(** * Road-corridor collision analysis: sampler, matcher and statistics

    Shallow embedding of [road_analysis/road_sampler.py] and
    [road_analysis/collision_analyzer.py], with the marker colours of
    [road_analysis/map_visualizer.py] and the loading, filtering and
    formatting functions of [road_analysis/utils.py].

    Conventions of the embedding:
    - Python exceptions are values of [PyError]; a computation that may raise
      has type [Result A] and is sequenced with the error monad below.
    - shapely computes on IEEE doubles; coordinates, lengths and distances are
      modelled over the exact reals [R], so every geometric statement is about
      exact planar geometry.
    - percentages and averages of the statistics report are exact rationals [Q].
    - the cartographic projection (pyproj behind geopandas' [to_crs] and
      [estimate_utm_crs]) is an external service, taken as the interface
      [Projector].
    - a pandas frame is the list of its rows, each paired with its index label;
      a python [set] of labels is a [gset Z]; a python [dict] is a [gmap].
    - a python [int] is a [Z]; a numpy [int64] is a [Z] of the 64-bit range,
      wrapped by [int64] where numpy wraps; strings are ASCII. *)

From Stdlib Require Import ZArith QArith Reals Lra Lia List String Ascii.
From stdpp Require Import gmap strings list fin_maps.

Local Open Scope Z_scope.

(* ===================================================================== *)
(** ** Python builtins used by the two modules *)
(* ===================================================================== *)

Module Py.

Inductive PyError : Set :=
| ValueError          (* range() step 0, int() of a malformed literal *)
| RuntimeError        (* geopandas: unable to determine UTM CRS *)
| ZeroDivisionError   (* int / int with a zero divisor *)
| GEOSException       (* shapely: LineString built from a single vertex *)
| OverflowError.      (* numpy: a python int beyond the 64-bit range *)

Definition Result (A : Type) : Type := PyError + A.

Definition Raise {A} (e : PyError) : Result A := inl e.
Definition Return {A} (a : A) : Result A := inr a.

Definition bind {A B} (m : Result A) (k : A → Result B) : Result B :=
  match m with
  | inl e => inl e
  | inr a => k a
  end.

(** [for x in xs: ...] with a body that may raise: the first exception
    aborts the loop. *)
Fixpoint mapM {A B} (f : A → Result B) (xs : list A) : Result (list B) :=
  match xs with
  | [] => Return []
  | x :: xs' =>
      bind (f x) (λ y, bind (mapM f xs') (λ ys, Return (y :: ys)))
  end.

(** [len(range(start, stop, step))], as CPython's [compute_range_length]. *)
Definition range_length (start stop step : Z) : Z :=
  let lo := if 0 <? step then start else stop in
  let hi := if 0 <? step then stop else start in
  let st := if 0 <? step then step else - step in
  if hi <=? lo then 0 else (hi - lo - 1) / st + 1.

(** [list(range(start, stop, step))]; a zero step raises [ValueError]. *)
Definition range (start stop step : Z) : Result (list Z) :=
  if step =? 0 then Raise ValueError
  else Return (map (λ k : nat, start + Z.of_nat k * step)
                   (seq 0 (Z.to_nat (range_length start stop step)))).

(** [int(x)] for a float [x]: truncation towards zero. *)
Definition int_of_float (x : R) : Z :=
  if Rle_dec 0 x then Int_part x else - Int_part (- x).

(** A numpy [int64]: the 64-bit range, and the value an integer wraps to. *)
Definition fits_int64 (z : Z) : bool := (- 2 ^ 63 <=? z) && (z <? 2 ^ 63).

Definition int64 (z : Z) : Z := (z + 2 ^ 63) `mod` 2 ^ 64 - 2 ^ 63.

(** [int(s)] for a string: optional surrounding whitespace, an optional
    sign, then decimal digits in which single underscores may separate
    digits, at most 4300 digits (the default of [sys.get_int_max_str_digits]).
    [None] stands for the [ValueError] of every other string.  The blanks
    that [int] skips are those of C's [isspace]: tab, line feed, vertical
    tab, form feed, carriage return and the space. *)
Definition is_space (c : ascii) : bool :=
  let n := nat_of_ascii c in
  ((9 <=? n)%nat && (n <=? 13)%nat) || (n =? 32)%nat.

Definition is_digit (c : ascii) : bool :=
  let n := nat_of_ascii c in (48 <=? n)%nat && (n <=? 57)%nat.

Definition max_str_digits : Z := 4300.

Definition digit_of (c : ascii) : option Z :=
  let n := nat_of_ascii c in
  if ((48 <=? n)%nat && (n <=? 57)%nat)%bool then Some (Z.of_nat n - 48) else None.

(** [after_digit] tells whether the previous character was a digit, the only
    place where an underscore or the end of the literal is accepted. *)
Fixpoint parse_digits (acc : Z) (after_digit : bool) (cs : list ascii) : option Z :=
  match cs with
  | [] => if after_digit then Some acc else None
  | c :: cs' =>
      match digit_of c with
      | Some d => parse_digits (10 * acc + d) true cs'
      | None =>
          if (Ascii.eqb c "_" && after_digit)%bool
          then parse_digits acc false cs'
          else None
      end
  end.

Fixpoint lstrip (cs : list ascii) : list ascii :=
  match cs with
  | c :: cs' => if is_space c then lstrip cs' else cs
  | [] => []
  end.

Definition strip (cs : list ascii) : list ascii :=
  rev (lstrip (rev (lstrip cs))).

Definition parse_literal (cs : list ascii) : option Z :=
  if Z.of_nat (length (List.filter is_digit cs)) <=? max_str_digits
  then parse_digits 0 false cs
  else None.

Definition int_of_str (s : string) : option Z :=
  match strip (list_ascii_of_string s) with
  | "-"%char :: cs => Z.opp <$> parse_literal cs
  | "+"%char :: cs => parse_literal cs
  | cs => parse_literal cs
  end.

(** [s.split(sep)[0]]: the text before the first separator. *)
Fixpoint split_head (sep : ascii) (s : string) : string :=
  match s with
  | EmptyString => EmptyString
  | String c s' => if Ascii.eqb c sep then EmptyString else String c (split_head sep s')
  end.

End Py.

Import Py.

Notation "'let*' x ':=' m 'in' k" := (bind m (λ x, k))
  (at level 10, x pattern, m at level 100, k at level 200).

(* ===================================================================== *)
(** ** Planar geometry (shapely) over the reals *)
(* ===================================================================== *)

Module Shapely.

Local Open Scope R_scope.

(** A point of the projected (metric) frame. *)
Definition Point : Type := R * R.

Definition sqdist (p q : Point) : R :=
  (p.1 - q.1) * (p.1 - q.1) + (p.2 - q.2) * (p.2 - q.2).

(** [p.distance(q)] for two points. *)
Definition distance (p q : Point) : R := sqrt (sqdist p q).

(** The point at parameter [t] of the segment from [a] to [b]. *)
Definition lerp (a b : Point) (t : R) : Point :=
  (a.1 + t * (b.1 - a.1), a.2 + t * (b.2 - a.2)).

(** The consecutive vertex pairs of a LineString. *)
Fixpoint segments (line : list Point) : list (Point * Point) :=
  match line with
  | a :: (b :: _) as rest => (a, b) :: segments rest
  | _ => []
  end.

(** [line.length]. *)
Definition line_length (line : list Point) : R :=
  foldr Rplus 0 (map (λ s, distance s.1 s.2) (segments line)).

(** Walk [d] metres from [a] along the remaining vertices; past the last
    vertex the walk stops there. *)
Fixpoint walk (a : Point) (rest : list Point) (d : R) : Point :=
  match rest with
  | [] => a
  | b :: rest' =>
      if Rle_dec d 0 then a
      else if Rle_dec d (distance a b) then lerp a b (d / distance a b)
      else walk b rest' (d - distance a b)
  end.

(** [line.interpolate(d)]: the point at distance [d] along the line, clamped
    to its end points; a negative [d] is measured back from the end.  The
    empty line (whose interpolation is the empty point) is never
    interpolated by the sampler; the origin stands for it here. *)
Definition interpolate (line : list Point) (d : R) : Point :=
  match line with
  | [] => (0, 0)
  | a :: rest =>
      if Rlt_dec d 0 then walk a rest (line_length line + d) else walk a rest d
  end.

Definition clamp01 (t : R) : R :=
  if Rle_dec t 0 then 0 else if Rle_dec 1 t then 1 else t.

(** Distance from [p] to the closed segment [a b]: the distance to the
    orthogonal projection of [p] on the carrier line, clamped to the segment. *)
Definition segment_distance (p a b : Point) : R :=
  if Req_dec_T (sqdist a b) 0 then distance p a
  else
    let t := ((p.1 - a.1) * (b.1 - a.1) + (p.2 - a.2) * (b.2 - a.2)) / sqdist a b in
    distance p (lerp a b (clamp01 t)).

(** [p.distance(line)]: the least distance to a segment of the line.  (A
    line without a vertex has no distance; 0 stands for it here.) *)
Definition line_distance (p : Point) (line : list Point) : R :=
  match segments line with
  | s :: ss =>
      fold_left Rmin (map (λ s, segment_distance p s.1 s.2) ss)
                (segment_distance p s.1 s.2)
  | [] => match line with a :: _ => distance p a | [] => 0 end
  end.

(** [q] lies on [line]: on one of its segments, or [line] is the single
    vertex [q]. *)
Definition on_line (q : Point) (line : list Point) : Prop :=
  (∃ s t, s ∈ segments line ∧ 0 <= t <= 1 ∧ q = lerp s.1 s.2 t) ∨ line = [q].

(** [LineString(coords)]: a single vertex is rejected. *)
Definition LineString {A} (coords : list A) : Result (list A) :=
  match coords with
  | [_] => Raise GEOSException
  | _ => Return coords
  end.

End Shapely.

Import Shapely.

(* ===================================================================== *)
(** ** The cartographic projection (geopandas / pyproj) *)
(* ===================================================================== *)

(** A geographic position: (longitude, latitude) in EPSG:4326. *)
Definition Geo : Type := R * R.

(** What the two modules use of geopandas' projection machinery.
    [estimate_utm_crs] sees the coordinates of a frame (it depends on their
    bounds only) and may raise instead of determining a zone; [to_utm] is
    [to_crs(utm_crs)] on one position and [from_utm] is [to_crs("EPSG:4326")]
    on one projected point.  A LineString is projected vertex by vertex. *)
Class Projector : Type := {
  CRS : Type;
  estimate_utm_crs : list Geo → Result CRS;
  to_utm : CRS → Geo → Point;
  from_utm : CRS → Point → Geo;
  (** A frame without coordinates has no bounds: [estimate_utm_crs] raises
      [ValueError] on it. *)
  estimate_utm_crs_empty : estimate_utm_crs [] = Raise ValueError
}.

(* ===================================================================== *)
(** ** road_sampler.py *)
(* ===================================================================== *)

Module Sampler.
Section WithProjector.
Context {PJ : Projector}.

(** The sampler in manual mode: the vertices given by the caller and the
    sampling step.  (In OSM mode the road line comes from the external
    OpenStreetMap query; sampling proceeds from [project_road] all the same.) *)
Record RoadSampler : Type := {
  road_coords : list Geo;
  distance_interval : Z
}.

Definition create_road_line (self : RoadSampler) : Result (list Geo) :=
  LineString (road_coords self).

(** Returns the estimated UTM frame with the road projected into it
    ([road_projected_gdf.crs] and [road_projected]). *)
Definition project_road (self : RoadSampler) : Result (CRS * list Point) :=
  let* road_line := create_road_line self in
  let* utm := estimate_utm_crs road_line in
  Return (utm, map (to_utm utm) road_line).

Definition generate_sample_points (self : RoadSampler) : Result (list Geo) :=
  let* (utm, road_projected) := project_road self in
  let* ds := range 0 (int_of_float (line_length road_projected))
                   (distance_interval self) in
  let points := map (λ d, interpolate road_projected (IZR d)) ds in
  Return (map (from_utm utm) points).

Definition get_road_length (self : RoadSampler) : Result R :=
  let* (_, road_projected) := project_road self in
  Return (line_length road_projected).

End WithProjector.
End Sampler.

(* ===================================================================== *)
(** ** collision_analyzer.py *)
(* ===================================================================== *)

Module Analyzer.

#[global] Instance Rle_decision (x y : R) : Decision (x <= y)%R := Rle_dec x y.

(** *** Frames *)

(** A row of the collision frame, with the columns the analyzer reads.
    [time] is [None] for a missing cell. *)
Record Collision : Type := {
  geometry : Geo;
  collision_severity : Z;
  day_of_week : Z;
  weather_conditions : Z;
  light_conditions : Z;
  time : option string;
  number_of_casualties : Z
}.

(** A row of [nearby_collisions]: the source row with the columns the
    matcher adds.  A label column holds [None] where pandas holds NaN. *)
Record MatchedCollision : Type := {
  source : Collision;
  distance_to_road_m : R;
  severity_name : option string;
  day_name : option string;
  weather_name : option string;
  light_name : option string;
  hour : Z
}.

(** A frame: rows with their index labels, in frame order. *)
Abbreviation Frame A := (list (Z * A)).

(** [frame.loc[labels]]: for every requested label in turn, the rows that
    carry it. *)
Definition loc {A} (frame : Frame A) (labels : list Z) : Frame A :=
  flat_map (λ l, filter (λ row, row.1 = l) frame) labels.

(** [series.map(table)]: a key absent from the dict gives NaN. *)
Definition series_map (table : gmap Z string) (code : Z) : option string :=
  table !! code.

(** [series.value_counts()]: occurrences per value, NaN cells dropped
    (pandas' default [dropna=True]). *)
Definition value_counts `{Countable K} (col : list (option K)) : gmap K Z :=
  foldr (λ cell counts,
           match cell with
           | Some k => <[k := 1 + default 0 (counts !! k)]> counts
           | None => counts
           end) ∅ col.

(** *** Mapping dictionaries *)

Definition SEVERITY_MAP : gmap Z string :=
  list_to_map [(1, "Fatal"); (2, "Serious"); (3, "Slight")]%string.

Definition DAY_MAP : gmap Z string :=
  list_to_map [(1, "Sunday"); (2, "Monday"); (3, "Tuesday"); (4, "Wednesday");
               (5, "Thursday"); (6, "Friday"); (7, "Saturday")]%string.

Definition WEATHER_MAP : gmap Z string :=
  list_to_map [(1, "Fine no high winds"); (2, "Raining no high winds");
               (3, "Snowing no high winds"); (4, "Fine + high winds");
               (5, "Raining + high winds"); (6, "Snowing + high winds");
               (7, "Fog or mist"); (8, "Other"); (9, "Unknown");
               (-1, "Data missing")]%string.

Definition LIGHT_MAP : gmap Z string :=
  list_to_map [(1, "Daylight"); (4, "Darkness - lights lit");
               (5, "Darkness - lights unlit"); (6, "Darkness - no lighting");
               (7, "Darkness - lighting unknown"); (-1, "Data missing")]%string.

(** *** The analyzer object *)

Record CollisionAnalyzer : Type := {
  collisions_gdf : Frame Collision;
  sample_points : list Geo;
  road_line : list Geo;
  radius : R;
  nearby_collisions : option (Frame MatchedCollision)
}.

(** [time.str.split(':').str[0].astype(int)] on one cell: [int] of the
    text before the first colon, converted to [int64]; a missing cell and a
    text that is no integer literal raise [ValueError], an integer beyond
    the 64-bit range raises [OverflowError]. *)
Definition parse_hour (t : option string) : Result Z :=
  match t with
  | Some s =>
      match int_of_str (split_head ":" s) with
      | Some h => if fits_int64 h then Return h else Raise OverflowError
      | None => Raise ValueError
      end
  | None => Raise ValueError
  end.

(** The four label columns cannot raise; the [hour] column raises at the
    first cell that does not convert, and then no frame is produced at
    all.  Rows are therefore completed one by one. *)
Definition _add_mapped_columns (rows : Frame (Collision * R))
  : Result (Frame MatchedCollision) :=
  mapM (λ row,
          let c := row.2.1 in
          let* h := parse_hour (time c) in
          Return (row.1,
                  {| source := c;
                     distance_to_road_m := row.2.2;
                     severity_name := series_map SEVERITY_MAP (collision_severity c);
                     day_name := series_map DAY_MAP (day_of_week c);
                     weather_name := series_map WEATHER_MAP (weather_conditions c);
                     light_name := series_map LIGHT_MAP (light_conditions c);
                     hour := h |})) rows.

(** The label columns of a matched row are the table entries of its codes. *)
Definition decoded (m : MatchedCollision) : Prop :=
  severity_name m = SEVERITY_MAP !! collision_severity (source m)
  ∧ day_name m = DAY_MAP !! day_of_week (source m)
  ∧ weather_name m = WEATHER_MAP !! weather_conditions (source m)
  ∧ light_name m = LIGHT_MAP !! light_conditions (source m).

(** What a completed row holds, column by column. *)
Definition completes (row : Z * (Collision * R)) (m : Z * MatchedCollision) : Prop :=
  m.1 = row.1
  ∧ source m.2 = row.2.1
  ∧ distance_to_road_m m.2 = row.2.2
  ∧ decoded m.2
  ∧ parse_hour (time row.2.1) = Return (hour m.2).

Section WithProjector.
Context {PJ : Projector}.

(** The labels of the collisions within [r] of one projected sample point:
    [distances[distances <= r].index]. *)
Definition within_radius (collisions_projected : Frame Point) (r : R)
    (sample_point : Point) : list Z :=
  (filter (λ row, (distance row.2 sample_point <= r)%R) collisions_projected).*1.

(** The loop over the sample points, accumulating into the set. *)
Definition nearby_indices (collisions_projected : Frame Point) (r : R)
    (sample_points_projected : list Point) : gset Z :=
  foldl (λ acc sp, acc ∪ list_to_set (within_radius collisions_projected r sp))
        ∅ sample_points_projected.

Definition find_nearby_collisions (self : CollisionAnalyzer)
  : Result (Frame MatchedCollision) :=
  let* utm_crs := estimate_utm_crs (sample_points self) in
  let collisions_projected :=
    map (λ row, (row.1, to_utm utm_crs (geometry row.2))) (collisions_gdf self) in
  let sample_points_projected := map (to_utm utm_crs) (sample_points self) in
  let road_projected := map (to_utm utm_crs) (road_line self) in
  let indices :=
    nearby_indices collisions_projected (radius self) sample_points_projected in
  let nearby := loc (collisions_gdf self) (elements indices) in
  let with_distance :=
    map (λ row, (row.1, (row.2, line_distance (to_utm utm_crs (geometry row.2))
                                               road_projected))) nearby in
  _add_mapped_columns with_distance.

(** The collision [c] is within the radius of at least one sample point,
    in the planar frame [utm]. *)
Definition within_reach (self : CollisionAnalyzer) (utm : CRS) (c : Collision) : Prop :=
  Exists (λ sp, (distance (to_utm utm (geometry c)) (to_utm utm sp) <= radius self)%R)
         (sample_points self).

End WithProjector.

(** *** Statistics *)

Record Share : Type := { count : Z; percentage : Q }.

Record Summary : Type := {
  total_collisions : Z;
  total_casualties : Z;
  avg_casualties_per_collision : Q;
  collisions_per_sample_point : Q
}.

Record TimeStats : Type := {
  most_common_hour : option Z;
  hour_counts : gmap Z Z;
  time_distribution : list (string * Share)
}.

(** The report; its [time] and [day_of_week] entries are [time_stats] and
    [day_of_week_stats] here, apart from the columns of those names. *)
Record Statistics : Type := {
  summary : Summary;
  severity : gmap string Share;
  time_stats : TimeStats;
  day_of_week_stats : gmap string Share;
  weather : gmap string Share;
  light : gmap string Share
}.

(** [{label: {count, percentage} for label, count in counts.items()}]. *)
Definition breakdown (counts : gmap string Z) (total : Z) : gmap string Share :=
  (λ c, {| count := c; percentage := (inject_Z c / inject_Z total) * 100 |}) <$> counts.

Definition occurrences (x : Z) (xs : list Z) : Z :=
  Z.of_nat (length (filter (λ y, y = x) xs)).

(** [series.mode()[0]]: the least of the most frequent values. *)
Definition mode (xs : list Z) : option Z :=
  let top := foldr Z.max 0 (map (λ x, occurrences x xs) xs) in
  match filter (λ x, occurrences x xs = top) xs with
  | [] => None
  | c :: cs => Some (foldr Z.min c cs)
  end.

Definition time_ranges : list (string * (Z * Z)) :=
  [("Night (00-06)", (0, 6)); ("Morning Rush (07-09)", (7, 9));
   ("Midday (10-15)", (10, 15)); ("Evening Rush (16-18)", (16, 18));
   ("Evening (19-23)", (19, 23))]%string.

Section WithProjector.
Context {PJ : Projector}.

(** [if self.nearby_collisions is None: self.find_nearby_collisions()],
    then the frame the statistics are computed on. *)
Definition ensure_nearby (self : CollisionAnalyzer) : Result (Frame MatchedCollision) :=
  match nearby_collisions self with
  | None => find_nearby_collisions self
  | Some rows => Return rows
  end.

(** [number_of_casualties] is an [int64] column: its sum wraps. *)
Definition calculate_statistics (self : CollisionAnalyzer) : Result Statistics :=
  let* nearby := ensure_nearby self in
  let total := Z.of_nat (length nearby) in
  let casualties :=
    int64 (foldr Z.add 0 (map (λ row, number_of_casualties (source row.2)) nearby)) in
  let avg := if 0 <? total then (inject_Z casualties / inject_Z total)%Q else 0%Q in
  let n_points := Z.of_nat (length (sample_points self)) in
  let* per_point :=
    if n_points =? 0 then Raise ZeroDivisionError
    else Return (inject_Z total / inject_Z n_points)%Q in
  let hours := map (λ row, hour row.2) nearby in
  let distribution :=
    map (λ range,
           let c := Z.of_nat (length (filter (λ h, range.2.1 <= h ∧ h <= range.2.2) hours)) in
           (range.1,
            {| count := c;
               percentage := if 0 <? total
                             then ((inject_Z c / inject_Z total) * 100)%Q else 0%Q |}))
        time_ranges in
  Return
    {| summary :=
         {| total_collisions := total;
            total_casualties := casualties;
            avg_casualties_per_collision := avg;
            collisions_per_sample_point := per_point |};
       severity := breakdown (value_counts (map (λ row, severity_name row.2) nearby)) total;
       time_stats :=
         {| most_common_hour := if 0 <? total then mode hours else None;
            hour_counts := value_counts (map Some hours);
            time_distribution := distribution |};
       day_of_week_stats := breakdown (value_counts (map (λ row, day_name row.2) nearby)) total;
       weather := breakdown (value_counts (map (λ row, weather_name row.2) nearby)) total;
       light := breakdown (value_counts (map (λ row, light_name row.2) nearby)) total |}.

End WithProjector.

(** The sum of the counts of one [value_counts] table. *)
Definition count_sum `{Countable K} (counts : gmap K Z) : Z :=
  map_fold (λ _ c acc, c + acc) 0 counts.

(** The number of cells of a column that hold a value (are not NaN). *)
Definition labelled {K} (col : list (option K)) : Z :=
  Z.of_nat (length (filter is_Some col)).

(** The sum of the percentages of one categorical dimension. *)
Definition percentage_sum (dimension : gmap string Share) : Q :=
  map_fold (λ _ share acc, (percentage share + acc)%Q) 0%Q dimension.

End Analyzer.

Import Sampler Analyzer.

(** A flat world, where positions are already metric and every projection
    is the identity: the frame in which the concrete scenarios are run.  As
    everywhere, no frame is estimated for an empty set of positions. *)
Definition flat_projector : Projector :=
  {| CRS := unit;
     estimate_utm_crs := λ coords,
       match coords with [] => Raise ValueError | _ => Return tt end;
     to_utm := λ _ p, p;
     from_utm := λ _ p, p;
     estimate_utm_crs_empty := eq_refl |}.

(** ** Scenarios in the flat world *)

Module Scenario.

(** A straight road running [len] metres north from the origin. *)
Definition straight (len : R) : list Geo := [(0, 0); (0, len)]%R.

Definition sampler_100 : RoadSampler :=
  {| road_coords := straight 100; distance_interval := 50 |}.

(** The road of about 111 metres of the example scenario. *)
Definition sampler_111 : RoadSampler :=
  {| road_coords := straight 111; distance_interval := 50 |}.

Definition sampler_backwards : RoadSampler :=
  {| road_coords := straight 100; distance_interval := -50 |}.

(** A road shorter than one metre. *)
Definition sampler_short : RoadSampler :=
  {| road_coords := straight (1 / 2); distance_interval := 50 |}.

(** A slight collision on a Monday afternoon, at the start of the road. *)
Definition collision_ok : Collision :=
  {| geometry := (0, 0)%R;
     collision_severity := 3;
     day_of_week := 2;
     weather_conditions := 1;
     light_conditions := 1;
     time := Some "17:30"%string;
     number_of_casualties := 1 |}.

(** The same collision with a time cell that is no integer literal. *)
Definition collision_bad_time : Collision :=
  {| geometry := (0, 0)%R;
     collision_severity := 3;
     day_of_week := 2;
     weather_conditions := 1;
     light_conditions := 1;
     time := Some "ab:30"%string;
     number_of_casualties := 1 |}.

(** The same collision with codes that the tables do not list. *)
Definition collision_unlisted : Collision :=
  {| geometry := (0, 0)%R;
     collision_severity := -1;
     day_of_week := 0;
     weather_conditions := 0;
     light_conditions := 2;
     time := Some "08:05"%string;
     number_of_casualties := 2 |}.

Definition analyzer_of (collisions : Frame Collision) (points : list Geo)
    (matched : option (Frame MatchedCollision)) : CollisionAnalyzer :=
  {| collisions_gdf := collisions;
     sample_points := points;
     road_line := straight 100;
     radius := 50;
     nearby_collisions := matched |}.

End Scenario.

(* ===================================================================== *)
(** ** road_sampler.py: construction, OpenStreetMap mode, summary *)
(* ===================================================================== *)

(** [max(xs, key=key)]: the first element whose key no later element
    exceeds; [ValueError] on an empty sequence. *)
Definition py_max {A K} (gt : K → K → bool) (key : A → K) (xs : list A) : Result A :=
  match xs with
  | [] => Raise ValueError
  | x :: rest =>
      Return (foldl (λ best y, if gt (key y) (key best) then y else best) x rest)
  end.

Definition Rgtb (x y : R) : bool := if Rlt_dec y x then true else false.

#[global] Instance Rle_preorder : PreOrder Rle.
Proof. split; [intros x; apply Rle_refl | intros x y z; apply Rle_trans]. Qed.

Module SamplerInit.

(** The attributes [__init__] sets from its arguments (the cached
    geometries all start as [None]). *)
Record RoadSamplerObject : Type := {
  road_coords : option (list Geo);
  distance_interval : Z;
  crs : string;
  area_name : option string;
  street_name : option string;
  from_osm : bool
}.

Definition __init__ (road_coords : option (list Geo)) (distance_interval : Z)
    (crs : string) (area_name street_name : option string)
  : Result RoadSamplerObject :=
  if bool_decide (road_coords = None)
     && (bool_decide (area_name = None) || bool_decide (street_name = None))
  then Raise ValueError
  else if bool_decide (road_coords ≠ None)
          && (bool_decide (area_name ≠ None) || bool_decide (street_name ≠ None))
  then Raise ValueError
  else Return {| road_coords := road_coords;
                 distance_interval := distance_interval;
                 crs := crs;
                 area_name := area_name;
                 street_name := street_name;
                 from_osm := bool_decide (area_name ≠ None)
                             && bool_decide (street_name ≠ None) |}.

End SamplerInit.

Module Osm.

(** A geometry, as an OpenStreetMap feature carries it and as [linemerge]
    returns it. *)
Inductive Geometry : Type :=
| LineStringG (coords : list Geo)
| MultiLineStringG (geoms : list (list Geo))
| OtherG.

(** What [fetch_from_osm] uses of an installed osmnx and of shapely.ops:
    the features of a place, each with its [name] cell ([None] for NaN) and
    its geometry, and the merge of line strings into maximal chains. *)
Class OsmSource : Type := {
  features_from_place : string → Result (list (option string * Geometry));
  linemerge : list (list Geo) → Geometry
}.

Section WithSource.
Context {OS : OsmSource}.

(** The line strings of the named features: a LineString itself, the
    members of a MultiLineString, nothing for other geometries. *)
Definition linestrings_of (filtered_road : list (option string * Geometry))
  : list (list Geo) :=
  flat_map (λ feature,
              match feature.2 with
              | LineStringG coords => [coords]
              | MultiLineStringG geoms => geoms
              | OtherG => []
              end) filtered_road.

Definition fetch_from_osm (area_name street_name : string) : Result Geometry :=
  let* roads := features_from_place area_name in
  let filtered_road := filter (λ feature, feature.1 = Some street_name) roads in
  match filtered_road with
  | [] => Raise ValueError
  | _ =>
      match linestrings_of filtered_road with
      | [] => Raise ValueError
      | linestrings =>
          match linemerge linestrings with
          | MultiLineStringG geoms =>
              let* longest := py_max Rgtb line_length geoms in
              Return (LineStringG longest)
          | road_line => Return road_line
          end
      end
  end.

End WithSource.
End Osm.

Module SamplerSummary.
Section WithProjector.
Context {PJ : Projector}.

(** The dict of [get_summary] for a sampler in manual mode. *)
Record Summary : Type := {
  road_length_m : R;
  num_sample_points : nat;
  distance_interval_m : Z;
  from_osm : bool;
  num_road_coords : nat
}.

Definition get_summary (self : RoadSampler) : Result Summary :=
  let* sample_points := generate_sample_points self in
  let* road_length := get_road_length self in
  Return {| road_length_m := road_length;
            num_sample_points := length sample_points;
            distance_interval_m := distance_interval self;
            from_osm := false;
            num_road_coords := length (road_coords self) |}.

End WithProjector.
End SamplerSummary.

(** The number of cells of a column that hold the value [k]. *)
Definition cells `{Countable K} (k : K) (col : list (option K)) : Z :=
  Z.of_nat (length (filter (λ cell, cell = Some k) col)).

(* ===================================================================== *)
(** ** map_visualizer.py *)
(* ===================================================================== *)

Module Visualizer.

Definition SEVERITY_COLORS : gmap string string :=
  list_to_map [("Fatal", "black"); ("Serious", "red"); ("Slight", "orange")]%string.

(** [self.SEVERITY_COLORS.get(row['severity_name'], 'gray')], the colour of
    a collision marker and of the severity in its popup. *)
Definition marker_color (row : MatchedCollision) : string :=
  default "gray"%string (severity_name row ≫= (SEVERITY_COLORS !!.)).

End Visualizer.

(* ===================================================================== *)
(** ** utils.py *)
(* ===================================================================== *)

Module Utils.

(** A row of the collision CSV, with the columns the package reads. *)
Record CsvRow : Type := {
  longitude : R;
  latitude : R;
  number_of_vehicles : Z;
  date : string;
  collision_severity : Z;
  day_of_week : Z;
  weather_conditions : Z;
  light_conditions : Z;
  time : option string;
  number_of_casualties : Z
}.

(** A row of the GeoDataFrame: the CSV row with its [geometry] column. *)
Abbreviation GeoRow := (CsvRow * Geo)%type.

(** The columns of a GeoDataFrame row that the analyzer reads. *)
Definition as_collision (row : GeoRow) : Collision :=
  {| Analyzer.geometry := row.2;
     Analyzer.collision_severity := collision_severity row.1;
     Analyzer.day_of_week := day_of_week row.1;
     Analyzer.weather_conditions := weather_conditions row.1;
     Analyzer.light_conditions := light_conditions row.1;
     Analyzer.time := time row.1;
     Analyzer.number_of_casualties := number_of_casualties row.1 |}.

(** [pd.read_csv]: the parsed rows under the default index 0, 1, 2, ... *)
Definition read_csv (rows : list CsvRow) : Frame CsvRow :=
  imap (λ i row, (Z.of_nat i, row)) rows.

Definition load_collision_data (rows : list CsvRow) (filter_zero_vehicles : bool)
  : Frame GeoRow :=
  let df := read_csv rows in
  let df := if filter_zero_vehicles
            then filter (λ row, 0 < number_of_vehicles row.2) df
            else df in
  map (λ row, (row.1, (row.2, (longitude row.2, latitude row.2)))) df.

(** What [filter_collisions] uses of pandas' dates:
    [pd.to_datetime(cell, format='%d/%m/%Y')], which raises on a cell of
    another shape; the date a bound of the range is compared as, which
    raises for a string that is no date; and the order of dates. *)
Class Dates : Type := {
  Timestamp : Type;
  to_datetime : string → Result Timestamp;
  as_bound : string → Result Timestamp;
  date_le : Timestamp → Timestamp → bool
}.

Section WithDates.
Context {DT : Dates}.

(** The rows kept by the date filter: the whole [date] column is parsed
    first, then it is compared with the start and with the end of the
    range. *)
Definition filter_dates (date_range : string * string) (frame : Frame GeoRow)
  : Result (Frame GeoRow) :=
  let* parsed := mapM (λ row, to_datetime (date row.2.1)) frame in
  let* start_date := as_bound date_range.1 in
  let* end_date := as_bound date_range.2 in
  Return (filter (λ pr, date_le start_date pr.2 && date_le pr.2 end_date = true)
                 (zip frame parsed)).*1.

(** An argument that is [None], or an empty severity list, is falsy and
    switches its filter off. *)
Definition filter_collisions (collisions_gdf : Frame GeoRow)
    (bounds : option (R * R * R * R)) (date_range : option (string * string))
    (severity : option (list Z)) : Result (Frame GeoRow) :=
  let filtered := collisions_gdf in
  let filtered :=
    match bounds with
    | Some (min_lon, min_lat, max_lon, max_lat) =>
        filter (λ row, (min_lon <= longitude row.2.1)%R
                       ∧ (longitude row.2.1 <= max_lon)%R
                       ∧ (min_lat <= latitude row.2.1)%R
                       ∧ (latitude row.2.1 <= max_lat)%R) filtered
    | None => filtered
    end in
  let* filtered :=
    match date_range with
    | Some range => filter_dates range filtered
    | None => Return filtered
    end in
  let filtered :=
    match severity with
    | Some (code :: codes) =>
        filter (λ row, collision_severity row.2.1 ∈ code :: codes) filtered
    | _ => filtered
    end in
  Return filtered.

End WithDates.

(** The exceptions of [format_collision_data]. *)
Inductive FormatError : Set :=
| TypeError        (* None % 12 *)
| MaxOfEmpty.      (* ValueError: max() of an empty sequence *)

(** The values [format_collision_data] interpolates into its text, in the
    order of the text; the decimal rendering of the numbers is left out. *)
Record SummaryFields : Type := {
  total_collisions : Z;
  total_casualties : Z;
  slight_pct : Q;
  serious_pct : Q;
  fatal_pct : Q;
  hour_12 : Z;
  am_pm : string;
  most_common_hour : Z;
  day_name : string;
  day_percentage : Q;
  weather_condition : string;
  weather_percentage : Q;
  light_condition : string;
  light_percentage : Q
}.

(** [severity.get(label, {}).get('percentage', 0)]. *)
Definition percentage_of (dimension : gmap string Share) (label : string) : Q :=
  default 0%Q (percentage <$> dimension !! label).

(** The order in which a dict of the report lists its items: the order of
    [value_counts()], which pandas leaves open among equal counts.  Any
    listing of the entries, each once, can stand for it. *)
Class DictOrder : Type := {
  items : gmap string Share → list (string * Share);
  items_entries : ∀ dimension, items dimension ≡ₚ map_to_list dimension
}.

Section WithDictOrder.
Context {DO : DictOrder}.

(** [max(dimension.items(), key=lambda x: x[1]['count'])]. *)
Definition most_common (dimension : gmap string Share)
  : FormatError + (string * Share) :=
  match py_max Z.gtb (λ item : string * Share, count item.2) (items dimension) with
  | inl _ => inl MaxOfEmpty
  | inr item => inr item
  end.

Definition format_collision_data (data : Statistics) : FormatError + SummaryFields :=
  match Analyzer.most_common_hour (time_stats data) with
  | None => inl TypeError
  | Some hour =>
      let hour_12 := hour `mod` 12 in
      let hour_12 := if hour_12 =? 0 then 12 else hour_12 in
      let am_pm := if hour <? 12 then "AM"%string else "PM"%string in
      match most_common (day_of_week_stats data) with
      | inl e => inl e
      | inr day =>
          match most_common (weather data) with
          | inl e => inl e
          | inr weather_item =>
              match most_common (light data) with
              | inl e => inl e
              | inr light_item =>
                  inr {| total_collisions := Analyzer.total_collisions (summary data);
                         total_casualties := Analyzer.total_casualties (summary data);
                         slight_pct := percentage_of (severity data) "Slight";
                         serious_pct := percentage_of (severity data) "Serious";
                         fatal_pct := percentage_of (severity data) "Fatal";
                         hour_12 := hour_12;
                         am_pm := am_pm;
                         most_common_hour := hour;
                         day_name := day.1;
                         day_percentage := percentage day.2;
                         weather_condition := weather_item.1;
                         weather_percentage := percentage weather_item.2;
                         light_condition := light_item.1;
                         light_percentage := percentage light_item.2 |}
              end
          end
      end
  end.

End WithDictOrder.
End Utils.

(* ===================================================================== *)
(** ** Worked cases for the matcher, the report and the utilities *)
(* ===================================================================== *)

Module Cases.
Import Scenario.

(** [collision_ok] and [collision_unlisted] with the columns the matcher
    adds. *)
Definition matched_ok : MatchedCollision :=
  {| source := collision_ok;
     distance_to_road_m := 0%R;
     severity_name := Some "Slight"%string;
     day_name := Some "Monday"%string;
     weather_name := Some "Fine no high winds"%string;
     light_name := Some "Daylight"%string;
     hour := 17 |}.

Definition matched_unlisted : MatchedCollision :=
  {| source := collision_unlisted;
     distance_to_road_m := 0%R;
     severity_name := None;
     day_name := None;
     weather_name := None;
     light_name := None;
     hour := 8 |}.

(** A collision a kilometre east of the road, and one 30 metres east of
    its start. *)
Definition collision_far : Collision :=
  {| geometry := (1000, 0)%R;
     collision_severity := 2;
     day_of_week := 3;
     weather_conditions := 2;
     light_conditions := 4;
     time := Some "23:10"%string;
     number_of_casualties := 1 |}.

Definition collision_aside : Collision :=
  {| geometry := (30, 0)%R;
     collision_severity := 3;
     day_of_week := 2;
     weather_conditions := 1;
     light_conditions := 1;
     time := Some "09:00"%string;
     number_of_casualties := 1 |}.

(** A collision 30 metres south of the start of the road, on the line that
    carries the road but before its first vertex. *)
Definition collision_before : Collision :=
  {| geometry := (0, -30)%R;
     collision_severity := 3;
     day_of_week := 2;
     weather_conditions := 1;
     light_conditions := 1;
     time := Some "09:00"%string;
     number_of_casualties := 1 |}.

(** A time cell whose hour is an integer literal beyond 64 bits. *)
Definition collision_huge_hour : Collision :=
  {| geometry := (0, 0)%R;
     collision_severity := 3;
     day_of_week := 2;
     weather_conditions := 1;
     light_conditions := 1;
     time := Some "9223372036854775808:00"%string;
     number_of_casualties := 1 |}.

(** The analyzer of [collision_ok] on the straight road, for a radius. *)
Definition analyzer_within (r : R) : CollisionAnalyzer :=
  {| collisions_gdf := [(0, collision_ok)];
     sample_points := [(0, 0); (0, 50)]%R;
     road_line := straight 100;
     radius := r;
     nearby_collisions := None |}.

(** An analyzer of one collision on the straight road. *)
Definition analyzer_single (c : Collision) (points : list Geo) : CollisionAnalyzer :=
  {| collisions_gdf := [(0, c)];
     sample_points := points;
     road_line := straight 100;
     radius := 50;
     nearby_collisions := None |}.

(** Two disconnected stretches of one street and an unnamed feature that
    is no line, with a merge that finds nothing to join. *)
Definition short_stretch : list Geo := [(0, 0); (0, 30)]%R.
Definition long_stretch : list Geo := [(10, 0); (10, 80)]%R.

Definition two_stretches : Osm.OsmSource :=
  {| Osm.features_from_place := λ _,
       Return [(Some "Askew Road"%string, Osm.LineStringG short_stretch);
               (None, Osm.OtherG);
               (Some "Askew Road"%string, Osm.LineStringG long_stretch)];
     Osm.linemerge := Osm.MultiLineStringG |}.

(** Dates for the cases: a cell of the shape dd/mm/yyyy parses to the
    number yyyymmdd, and a cell of another shape raises. *)
Definition day_number (cell : string) : Result Z :=
  match list_ascii_of_string cell with
  | [d1; d2; "/"; m1; m2; "/"; y1; y2; y3; y4]%char =>
      let digits := [y1; y2; y3; y4; m1; m2; d1; d2] in
      match parse_digits 0 false digits with
      | Some n => if forallb is_digit digits then Return n else Raise ValueError
      | None => Raise ValueError
      end
  | _ => Raise ValueError
  end.

(** A bound of a range is written yyyy-mm-dd. *)
Definition bound_number (bound : string) : Result Z :=
  match list_ascii_of_string bound with
  | [y1; y2; y3; y4; "-"; m1; m2; "-"; d1; d2]%char =>
      let digits := [y1; y2; y3; y4; m1; m2; d1; d2] in
      match parse_digits 0 false digits with
      | Some n => if forallb is_digit digits then Return n else Raise ValueError
      | None => Raise ValueError
      end
  | _ => Raise ValueError
  end.

Definition slash_dates : Utils.Dates :=
  {| Utils.Timestamp := Z;
     Utils.to_datetime := day_number;
     Utils.as_bound := bound_number;
     Utils.date_le := Z.leb |}.

(** The report's dicts listed as the map enumerates them. *)
Definition enumeration_order : Utils.DictOrder :=
  {| Utils.items := map_to_list;
     Utils.items_entries := λ _, reflexivity _ |}.

Definition csv_row (vehicles : Z) (date : string) (severity : Z) : Utils.CsvRow :=
  {| Utils.longitude := 0%R;
     Utils.latitude := 0%R;
     Utils.number_of_vehicles := vehicles;
     Utils.date := date;
     Utils.collision_severity := severity;
     Utils.day_of_week := 2;
     Utils.weather_conditions := 1;
     Utils.light_conditions := 1;
     Utils.time := Some "17:30"%string;
     Utils.number_of_casualties := 1 |}.

(** A file of three rows: the second one involves no vehicle. *)
Definition csv_file : list Utils.CsvRow :=
  [csv_row 2 "05/01/2023" 3; csv_row 0 "06/01/2023" 2; csv_row 1 "20/02/2023" 1].

End Cases.

(* ===================================================================== *)
(** * Properties *)
(* ===================================================================== *)

(** ** Python builtins *)

Section PyFacts.

Lemma bind_Return {A B} (m : Result A) (k : A → Result B) (b : B) :
  bind m k = Return b ↔ ∃ a, m = Return a ∧ k a = Return b.
Proof.
  destruct m as [e|a]; simpl; split.
  - intros [=].
  - intros (a & [=] & _).
  - eauto.
  - intros (a' & [= <-] & Hk). exact Hk.
Qed.

Lemma mapM_Return {A B} (f : A → Result B) (xs : list A) (ys : list B) :
  mapM f xs = Return ys ↔ Forall2 (λ x y, f x = Return y) xs ys.
Proof.
  revert ys. induction xs as [|x xs IH]; intros ys; simpl.
  - split.
    + intros [= <-]. constructor.
    + intros Hf. inversion Hf. reflexivity.
  - rewrite bind_Return. split.
    + intros (y & Hy & Hrest). apply bind_Return in Hrest as (ys' & Hys & [= <-]).
      constructor; [exact Hy | by apply IH].
    + intros Hf. inversion Hf as [|? y ? ys' Hy Hys]; subst.
      exists y. split; [exact Hy|]. apply bind_Return. exists ys'.
      split; [by apply IH | reflexivity].
Qed.

(** A forward range is 0 + k*step for the k below its length. *)
Lemma range_length_forward (start stop step k : Z) :
  0 < step → 0 ≤ k →
  k < range_length start stop step ↔ start + k * step < stop.
Proof.
  intros Hstep Hk. unfold range_length.
  destruct (Z.ltb_spec 0 step) as [_|]; [|lia].
  destruct (Z.leb_spec stop start) as [Hle|Hlt].
  - split; [lia|]. nia.
  - split.
    + intros Hlen.
      assert (k ≤ (stop - start - 1) / step) as Hq by lia.
      pose proof (Z.mul_div_le (stop - start - 1) step Hstep). nia.
    + intros Hbelow.
      assert (k ≤ (stop - start - 1) / step); [|lia].
      apply Z.div_le_lower_bound; [lia|nia].
Qed.

Lemma range_length_nonneg (start stop step : Z) :
  0 ≤ range_length start stop step.
Proof.
  unfold range_length.
  destruct (Z.ltb_spec 0 step); cbv zeta.
  - destruct (Z.leb_spec stop start); [lia|].
    pose proof (Z.div_pos (stop - start - 1) step). lia.
  - destruct (Z.leb_spec start stop); [lia|].
    destruct (Z.eq_dec step 0) as [->|].
    + rewrite Z.opp_0, Z.div_0_r. lia.
    + pose proof (Z.div_pos (start - stop - 1) (- step)). lia.
Qed.

Lemma range_forward (start stop step : Z) :
  0 < step →
  ∃ ds, range start stop step = Return ds
        ∧ Z.of_nat (length ds) = range_length start stop step
        ∧ NoDup ds
        ∧ ∀ d, d ∈ ds ↔ ∃ k, 0 ≤ k ∧ d = start + k * step ∧ d < stop.
Proof.
  intros Hstep. unfold range.
  destruct (Z.eqb_spec step 0) as [|_]; [lia|].
  eexists. split; [reflexivity|].
  pose proof (range_length_nonneg start stop step) as Hnn.
  split; [|split].
  - rewrite length_map, length_seq. lia.
  - apply NoDup_fmap_2_strong; [|apply NoDup_seq].
    intros i j _ _ Heq. nia.
  - intros d. rewrite list_elem_of_fmap. split.
    + intros (k & -> & Hk). apply elem_of_seq in Hk.
      exists (Z.of_nat k). split; [lia|]. split; [reflexivity|].
      apply range_length_forward; lia.
    + intros (k & Hk & -> & Hlt). exists (Z.to_nat k).
      split; [f_equal; lia|]. apply elem_of_seq.
      apply range_length_forward in Hlt; lia.
Qed.

(** A backward range from 0 to a bound that is not negative is empty. *)
Lemma range_backward_empty (stop step : Z) :
  step < 0 → 0 ≤ stop → range 0 stop step = Return [].
Proof.
  intros Hstep Hstop. unfold range, range_length.
  destruct (Z.eqb_spec step 0); [lia|].
  destruct (Z.ltb_spec 0 step); [lia|].
  destruct (Z.leb_spec 0 stop); [reflexivity|lia].
Qed.

Lemma int_of_float_IZR (z : Z) : int_of_float (IZR z) = z.
Proof.
  assert (∀ n, Int_part (IZR n) = n) as Hint.
  { intros n. symmetry. apply Int_part_spec. lra. }
  unfold int_of_float. destruct (Rle_dec 0 (IZR z)); [apply Hint|].
  rewrite <- opp_IZR, Hint. lia.
Qed.

Lemma int_of_float_nonneg (x : R) : (0 <= x)%R → 0 ≤ int_of_float x.
Proof.
  intros Hx. unfold int_of_float. destruct (Rle_dec 0 x) as [_|]; [|done].
  destruct (base_Int_part x) as [_ Hlow].
  assert (-1 < IZR (Int_part x))%R as Hgt by lra.
  apply lt_IZR in Hgt. lia.
Qed.

(** On a length that is not negative, [int] is the floor. *)
Lemma int_of_float_floor (x : R) (z : Z) :
  (0 <= x)%R → int_of_float x = z ↔ (IZR z <= x < IZR z + 1)%R.
Proof.
  intros Hx. unfold int_of_float. destruct (Rle_dec 0 x) as [_|]; [|done].
  split.
  - intros <-. destruct (base_Int_part x). lra.
  - intros [Hlo Hhi]. symmetry. apply Int_part_spec. lra.
Qed.

End PyFacts.

(** ** Lengths *)

Section LengthFacts.
Local Open Scope R_scope.

Lemma sqdist_nonneg (p q : Point) : 0 <= sqdist p q.
Proof. unfold sqdist. apply Rplus_le_le_0_compat; apply Rle_0_sqr. Qed.

Lemma distance_nonneg (p q : Point) : 0 <= distance p q.
Proof. apply sqrt_pos. Qed.

Lemma line_length_nonneg (line : list Point) : 0 <= line_length line.
Proof.
  unfold line_length. induction (segments line) as [|s ss IH]; simpl; [lra|].
  pose proof (distance_nonneg s.1 s.2). lra.
Qed.

(** A straight road running north from the origin. *)
Lemma line_length_vertical (y : R) : 0 <= y → line_length [(0, 0); (0, y)] = y.
Proof.
  intros Hy. unfold line_length, distance, sqdist. simpl.
  replace ((0 - 0) * (0 - 0) + (0 - y) * (0 - y)) with (y * y) by ring.
  rewrite sqrt_square by exact Hy. ring.
Qed.

End LengthFacts.

(** ** The sampler *)

Section SamplerFacts.
Context {PJ : Projector}.

Lemma project_road_spec (self : RoadSampler) (utm : CRS) (road : list Point) :
  project_road self = Return (utm, road) ↔
  length (road_coords self) ≠ 1%nat
  ∧ estimate_utm_crs (road_coords self) = Return utm
  ∧ road = map (to_utm utm) (road_coords self).
Proof.
  unfold project_road, create_road_line, LineString.
  destruct (road_coords self) as [|a [|b rest]]; simpl.
  - destruct (estimate_utm_crs []) as [e|u]; simpl; split.
    + intros [=].
    + intros (_ & [=] & _).
    + intros [= -> <-]. done.
    + intros (_ & [= ->] & ->). done.
  - split; [intros [=] | intros (Hlen & _); done].
  - destruct (estimate_utm_crs _) as [e|u]; simpl; split.
    + intros [=].
    + intros (_ & [=] & _).
    + intros [= -> <-]. done.
    + intros (_ & [= ->] & ->). done.
Qed.

Lemma generate_unfold (self : RoadSampler) (utm : CRS) (road : list Point) :
  project_road self = Return (utm, road) →
  generate_sample_points self =
    let* ds := range 0 (int_of_float (line_length road)) (distance_interval self) in
    Return (map (from_utm utm) (map (λ d, interpolate road (IZR d)) ds)).
Proof. intros Hproj. unfold generate_sample_points. rewrite Hproj. reflexivity. Qed.

(** The distances the sampler interpolates at, for a positive interval. *)
Lemma generate_forward (self : RoadSampler) (utm : CRS) (road : list Point) :
  0 < distance_interval self →
  project_road self = Return (utm, road) →
  ∃ ds,
    generate_sample_points self =
      Return (map (λ d, from_utm utm (interpolate road (IZR d))) ds)
    ∧ Z.of_nat (length ds) =
        range_length 0 (int_of_float (line_length road)) (distance_interval self)
    ∧ NoDup ds
    ∧ ∀ d, d ∈ ds ↔
           (∃ k, 0 ≤ k ∧ d = k * distance_interval self)
           ∧ 0 ≤ d < int_of_float (line_length road).
Proof.
  intros Hpos Hproj.
  destruct (range_forward 0 (int_of_float (line_length road)) _ Hpos)
    as (ds & Hrange & Hlen & Hnodup & Hin).
  exists ds. rewrite (generate_unfold _ _ _ Hproj), Hrange. simpl.
  rewrite map_map. split; [done|]. split; [done|]. split; [done|].
  intros d. rewrite Hin. split.
  - intros (k & Hk & -> & Hlt). split; [exists k; split; [done|lia] | nia].
  - intros ((k & Hk & ->) & _ & Hlt). exists k. split; [done|]. split; [lia|done].
Qed.

(** The number of sample distances is the ceiling of [floor(length) / interval]. *)
Lemma range_length_ceiling (L step : Z) :
  0 < step → 0 ≤ L → range_length 0 L step = (L + step - 1) / step.
Proof.
  intros Hstep HL. unfold range_length.
  destruct (Z.ltb_spec 0 step); [|lia]. cbv zeta.
  destruct (Z.leb_spec L 0).
  - assert (L = 0) as -> by lia. rewrite Z.div_small; lia.
  - replace (L + step - 1) with (L - 0 - 1 + 1 * step) by lia.
    rewrite Z.div_add by lia. reflexivity.
Qed.

Lemma ceiling_cases (L step : Z) :
  0 < step → 0 ≤ L →
  (L `mod` step ≠ 0 → (L + step - 1) / step = L / step + 1)
  ∧ (L `mod` step = 0 → (L + step - 1) / step = L / step).
Proof.
  intros Hstep HL.
  pose proof (Z.div_mod L step ltac:(lia)) as Hdm.
  pose proof (Z.mod_pos_bound L step Hstep) as Hbound.
  split; intros Hmod; symmetry.
  - apply (Z.div_unique _ _ _ (L `mod` step - 1)); lia.
  - apply (Z.div_unique _ _ _ (step - 1)); lia.
Qed.

Lemma generate_zero_interval (self : RoadSampler) (utm : CRS) (road : list Point) :
  distance_interval self = 0 →
  project_road self = Return (utm, road) →
  generate_sample_points self = Raise ValueError.
Proof.
  intros Hzero Hproj. rewrite (generate_unfold _ _ _ Hproj), Hzero. reflexivity.
Qed.

Lemma generate_negative_interval (self : RoadSampler) (utm : CRS) (road : list Point) :
  distance_interval self < 0 →
  project_road self = Return (utm, road) →
  generate_sample_points self = Return [].
Proof.
  intros Hneg Hproj. rewrite (generate_unfold _ _ _ Hproj).
  rewrite range_backward_empty; [reflexivity | exact Hneg |].
  apply int_of_float_nonneg, line_length_nonneg.
Qed.

(** A road whose truncated length is 0 gets no sample point at all. *)
Lemma generate_short_road (self : RoadSampler) (utm : CRS) (road : list Point) :
  0 < distance_interval self →
  project_road self = Return (utm, road) →
  int_of_float (line_length road) = 0 →
  generate_sample_points self = Return [].
Proof.
  intros Hpos Hproj Hshort.
  destruct (generate_forward _ _ _ Hpos Hproj) as (ds & -> & Hlen & _).
  rewrite Hshort in Hlen. unfold range_length in Hlen.
  destruct (Z.ltb_spec 0 (distance_interval self)); [|lia]. simpl in Hlen.
  destruct ds; [reflexivity | simpl in Hlen; lia].
Qed.

Lemma range_empty_span (step : Z) (ds : list Z) :
  range 0 0 step = Return ds → ds = [].
Proof.
  unfold range, range_length. destruct (step =? 0); [intros [=]|].
  destruct (0 <? step); simpl; by intros [= <-].
Qed.

(** Every sample point is interpolated on the projected road, which then has
    a vertex. *)
Lemma generate_inversion (self : RoadSampler) (samples : list Geo) :
  generate_sample_points self = Return samples →
  ∃ utm ds,
    estimate_utm_crs (road_coords self) = Return utm
    ∧ samples = map (λ d, from_utm utm
                            (interpolate (map (to_utm utm) (road_coords self)) (IZR d))) ds
    ∧ (ds ≠ [] → road_coords self ≠ []).
Proof.
  intros Hgen. unfold generate_sample_points in Hgen.
  apply bind_Return in Hgen as ([utm road] & Hproj & Hgen).
  apply bind_Return in Hgen as (ds & Hrange & [= <-]).
  apply project_road_spec in Hproj as (_ & Hest & ->).
  exists utm, ds. split; [done|]. split; [by rewrite map_map|].
  intros Hds Hempty. rewrite Hempty in Hrange. simpl in Hrange.
  change (line_length []) with 0%R in Hrange.
  change 0%R with (IZR 0) in Hrange. rewrite int_of_float_IZR in Hrange.
  by apply range_empty_span in Hrange.
Qed.

End SamplerFacts.

(** ** Points of a line and the distance to it *)

Section LineFacts.
Local Open Scope R_scope.

Lemma lerp_start (a b : Point) : lerp a b 0 = a.
Proof. destruct a as [ax ay]. unfold lerp. simpl. f_equal; ring. Qed.

Lemma lerp_end (a b : Point) : lerp a b 1 = b.
Proof. destruct a as [ax ay], b as [bx by']. unfold lerp. simpl. f_equal; ring. Qed.

Lemma on_line_cons (q a b : Point) (rest : list Point) :
  on_line q (b :: rest) → on_line q (a :: b :: rest).
Proof.
  intros [(s & t & Hs & Ht & ->) | Hsingle]; left.
  - exists s, t. split; [|done]. simpl. by apply list_elem_of_further.
  - injection Hsingle as -> ->. exists (a, q), 1. simpl.
    split; [apply list_elem_of_here|]. split; [lra|]. by rewrite lerp_end.
Qed.

Lemma walk_on_line (a : Point) (rest : list Point) (d : R) :
  on_line (walk a rest d) (a :: rest).
Proof.
  revert a d. induction rest as [|b rest IH]; intros a d; simpl.
  - by right.
  - destruct (Rle_dec d 0) as [Hd|Hd].
    + left. exists (a, b), 0. simpl.
      split; [apply list_elem_of_here|]. split; [lra|]. by rewrite lerp_start.
    + destruct (Rle_dec d (distance a b)) as [Hle|Hgt].
      * left. exists (a, b), (d / distance a b). simpl.
        split; [apply list_elem_of_here|]. split; [|done].
        assert (0 < distance a b) by lra. split.
        -- apply Rlt_le, Rdiv_lt_0_compat; lra.
        -- apply (Rmult_le_reg_r (distance a b)); [done|].
           unfold Rdiv. rewrite Rmult_assoc, Rinv_l by lra. lra.
      * apply on_line_cons, IH.
Qed.

(** Every interpolated point of a line with a vertex lies on it. *)
Lemma interpolate_on_line (line : list Point) (d : R) :
  line ≠ [] → on_line (interpolate line d) line.
Proof.
  destruct line as [|a rest]; [done|]. intros _. unfold interpolate.
  destruct (Rlt_dec d 0); apply walk_on_line.
Qed.

Lemma sqdist_zero (a b : Point) : sqdist a b = 0 → a = b.
Proof.
  destruct a as [ax ay], b as [bx by']. unfold sqdist. simpl. intros Hz.
  pose proof (Rle_0_sqr (ax - bx)) as H1. pose proof (Rle_0_sqr (ay - by')) as H2.
  unfold Rsqr in H1, H2.
  assert ((ax - bx) * (ax - bx) = 0) as Hx by lra.
  assert ((ay - by') * (ay - by') = 0) as Hy by lra.
  apply Rmult_integral in Hx, Hy. f_equal; lra.
Qed.

(** The difference of the squared distances from [p] to two points of the
    carrier line of [a b]. *)
Lemma sqdist_lerp_difference (p a b : Point) (t t0 : R) :
  sqdist p (lerp a b t) - sqdist p (lerp a b t0) =
  (t - t0) * ((t + t0) * sqdist a b
              - 2 * ((p.1 - a.1) * (b.1 - a.1) + (p.2 - a.2) * (b.2 - a.2))).
Proof.
  destruct p as [px py], a as [ax ay], b as [bx by']. unfold sqdist, lerp. simpl. ring.
Qed.

(** The clamped projection is the nearest point of the segment. *)
Lemma segment_distance_le (p a b : Point) (t : R) :
  0 <= t <= 1 → segment_distance p a b <= distance p (lerp a b t).
Proof.
  intros Ht. unfold segment_distance.
  destruct (Req_dec_T (sqdist a b) 0) as [Hz|Hnz].
  - apply sqdist_zero in Hz as <-.
    assert (lerp a a t = a) as ->; [|lra].
    destruct a as [ax ay]. unfold lerp. simpl. f_equal; ring.
  - apply sqrt_le_1_alt.
    pose proof (sqdist_nonneg a b) as Hn.
    set (s := (p.1 - a.1) * (b.1 - a.1) + (p.2 - a.2) * (b.2 - a.2)).
    pose proof (sqdist_lerp_difference p a b t) as Hdiff. fold s in Hdiff.
    assert (0 < sqdist a b) as Hpos by lra.
    assert (s / sqdist a b * sqdist a b = s) as Hts by (field; lra).
    unfold clamp01.
    destruct (Rle_dec (s / sqdist a b) 0) as [Hlow|Hlow].
    + specialize (Hdiff 0).
      assert (s <= 0) by nra. nra.
    + destruct (Rle_dec 1 (s / sqdist a b)) as [Hhigh|Hhigh].
      * specialize (Hdiff 1).
        assert (sqdist a b <= s) as Hs by nra.
        assert ((t + 1) * sqdist a b - 2 * s <= 0) as Hfactor by nra.
        nra.
      * specialize (Hdiff (s / sqdist a b)).
        assert (sqdist p (lerp a b t) - sqdist p (lerp a b (s / sqdist a b))
                = sqdist a b * ((t - s / sqdist a b) * (t - s / sqdist a b))) as Heq.
        { rewrite Hdiff. rewrite <- Hts at 3. ring. }
        pose proof (Rle_0_sqr (t - s / sqdist a b)) as Hsq. unfold Rsqr in Hsq.
        nra.
Qed.

Lemma fold_Rmin_le_init (xs : list R) (x : R) : fold_left Rmin xs x <= x.
Proof.
  revert x. induction xs as [|y ys IH]; intros x; simpl; [lra|].
  etransitivity; [apply IH | apply Rmin_l].
Qed.

Lemma fold_Rmin_le_elem (xs : list R) (x y : R) : y ∈ xs → fold_left Rmin xs x <= y.
Proof.
  revert x. induction xs as [|z zs IH]; intros x Hin; simpl.
  - by apply elem_of_nil in Hin.
  - apply elem_of_cons in Hin as [->|Hin].
    + etransitivity; [apply fold_Rmin_le_init | apply Rmin_r].
    + by apply IH.
Qed.

Lemma line_distance_le_segment (p : Point) (line : list Point) (s : Point * Point) :
  s ∈ segments line → line_distance p line <= segment_distance p s.1 s.2.
Proof.
  unfold line_distance. destruct (segments line) as [|s0 ss]; intros Hin.
  - by apply elem_of_nil in Hin.
  - apply elem_of_cons in Hin as [->|Hin].
    + apply fold_Rmin_le_init.
    + apply fold_Rmin_le_elem.
      apply (list_elem_of_fmap_2 (λ s, segment_distance p s.1 s.2)), Hin.
Qed.

(** The distance to a line is at most the distance to any of its points. *)
Lemma line_distance_le (p q : Point) (line : list Point) :
  on_line q line → line_distance p line <= distance p q.
Proof.
  intros [(s & t & Hs & Ht & ->) | ->].
  - etransitivity; [by apply line_distance_le_segment | by apply segment_distance_le].
  - unfold line_distance. simpl. lra.
Qed.

Lemma clamp01_range (t : R) : 0 <= clamp01 t <= 1.
Proof. unfold clamp01. destruct (Rle_dec t 0), (Rle_dec 1 t); lra. Qed.

(** The distance to a segment is the distance to one of its points. *)
Lemma segment_distance_attained (p a b : Point) :
  ∃ t, 0 <= t <= 1 ∧ segment_distance p a b = distance p (lerp a b t).
Proof.
  unfold segment_distance. destruct (Req_dec_T (sqdist a b) 0) as [Hz|Hnz].
  - exists 0. split; [lra|]. by rewrite lerp_start.
  - eexists. split; [apply clamp01_range | reflexivity].
Qed.

Lemma fold_Rmin_attained (xs : list R) (x : R) :
  fold_left Rmin xs x = x ∨ fold_left Rmin xs x ∈ xs.
Proof.
  revert x. induction xs as [|y ys IH]; intros x; simpl; [by left|].
  destruct (IH (Rmin x y)) as [->|Hin]; [|right; by right].
  unfold Rmin. destruct (Rle_dec x y); [by left | right; by left].
Qed.

(** The distance to a line that has a vertex is the distance to one of its
    points; with [line_distance_le], the least such distance. *)
Lemma line_distance_attained (p : Point) (line : list Point) :
  line ≠ [] → ∃ q, on_line q line ∧ line_distance p line = distance p q.
Proof.
  intros Hne. unfold line_distance, on_line.
  destruct (segments line) as [|s ss] eqn:Hsegs.
  - destruct line as [|a [|b rest]]; [done| |discriminate].
    exists a. split; [by right | done].
  - destruct (fold_Rmin_attained (map (λ s, segment_distance p s.1 s.2) ss)
                (segment_distance p s.1 s.2)) as [->|Hin].
    + destruct (segment_distance_attained p s.1 s.2) as (t & Ht & ->).
      eexists. split; [|reflexivity]. left. exists s, t. split; [by left | done].
    + apply (list_elem_of_fmap (λ s, segment_distance p s.1 s.2)) in Hin
        as (s' & -> & Hs').
      destruct (segment_distance_attained p s'.1 s'.2) as (t & Ht & Hd).
      exists (lerp s'.1 s'.2 t). split; [|exact Hd].
      left. exists s', t. split; [by right | done].
Qed.


Lemma distance_ge_dy (p q : Point) : Rabs (p.2 - q.2) <= distance p q.
Proof.
  unfold distance, sqdist. rewrite <- sqrt_Rsqr_abs. apply sqrt_le_1_alt.
  unfold Rsqr. pose proof (Rle_0_sqr (p.1 - q.1)) as Hsq. unfold Rsqr in Hsq. lra.
Qed.

End LineFacts.

(** ** Frames *)

Section FilterFacts.
Context {A : Type}.

Lemma filter_ext_in (P Q : A → Prop) `{!∀ x, Decision (P x), !∀ x, Decision (Q x)}
    (l : list A) :
  (∀ x, x ∈ l → P x ↔ Q x) → filter P l = filter Q l.
Proof.
  induction l as [|x l IH]; intros Hiff; [done|].
  rewrite !filter_cons, IH by (intros; apply Hiff; by right).
  apply decide_ext, Hiff. by left.
Qed.

Lemma filter_none (P : A → Prop) `{!∀ x, Decision (P x)} (l : list A) :
  (∀ x, x ∈ l → ¬ P x) → filter P l = [].
Proof.
  induction l as [|x l IH]; intros Hnone; [done|].
  rewrite filter_cons_False by (apply Hnone; by left).
  apply IH. intros; apply Hnone; by right.
Qed.

(** Filtering by one of two exclusive conditions. *)
Lemma filter_either (P Q : A → Prop) `{!∀ x, Decision (P x), !∀ x, Decision (Q x)}
    (l : list A) :
  (∀ x, P x → Q x → False) →
  filter (λ x, P x ∨ Q x) l ≡ₚ filter P l ++ filter Q l.
Proof.
  intros Hexcl. induction l as [|x l IH]; [done|].
  rewrite !filter_cons.
  destruct (decide (P x)) as [HP|HP], (decide (Q x)) as [HQ|HQ].
  - destruct (Hexcl x HP HQ).
  - rewrite decide_True by tauto. simpl. by rewrite IH.
  - rewrite decide_True by tauto. rewrite IH. by rewrite Permutation_middle.
  - rewrite decide_False by tauto. exact IH.
Qed.

End FilterFacts.

Section FrameFacts.
Context {A : Type}.
Implicit Types (frame : Frame A) (labels : list Z).

Lemma loc_cons frame l labels :
  loc frame (l :: labels) = filter (λ row, row.1 = l) frame ++ loc frame labels.
Proof. reflexivity. Qed.

(** Asking [loc] for distinct labels selects the rows that carry one of them. *)
Lemma loc_filter frame labels :
  NoDup labels → loc frame labels ≡ₚ filter (λ row, row.1 ∈ labels) frame.
Proof.
  induction 1 as [|l labels Hfresh _ IH].
  - rewrite filter_none; [done|]. intros row _ Hin.
    by apply elem_of_nil in Hin.
  - rewrite loc_cons, IH.
    rewrite <- (filter_either (λ row, row.1 = l) (λ row, row.1 ∈ labels)).
    + erewrite list_filter_iff; [done|]. intros row. simpl. by rewrite elem_of_cons.
    + intros row -> Hin. by apply Hfresh.
Qed.

Lemma NoDup_fst_agree frame l (x y : A) :
  NoDup frame.*1 → (l, x) ∈ frame → (l, y) ∈ frame → x = y.
Proof.
  induction frame as [|[l' z] frame IH]; simpl; intros Hnd Hx Hy.
  - by apply elem_of_nil in Hx.
  - apply NoDup_cons in Hnd as [Hfresh Hnd].
    apply elem_of_cons in Hx as [Hx|Hx], Hy as [Hy|Hy].
    + congruence.
    + injection Hx as -> ->. destruct Hfresh.
      apply list_elem_of_fmap. by exists (l', y).
    + injection Hy as -> ->. destruct Hfresh.
      apply list_elem_of_fmap. by exists (l', x).
    + by apply IH.
Qed.

Lemma NoDup_fst_filter (P : Z * A → Prop) `{!∀ x, Decision (P x)} frame :
  NoDup frame.*1 → NoDup (filter P frame).*1.
Proof.
  induction frame as [|row frame IH]; [done|]. simpl. intros Hnd.
  apply NoDup_cons in Hnd as [Hfresh Hnd]. rewrite filter_cons.
  destruct (decide (P row)); [|by apply IH]. simpl. apply NoDup_cons. split; [|by apply IH].
  intros Hin. apply Hfresh. apply list_elem_of_fmap in Hin as (row' & -> & Hin).
  apply list_elem_of_filter in Hin as [_ Hin]. by apply list_elem_of_fmap_2.
Qed.

End FrameFacts.

(** ** The decoded columns *)

Section ColumnFacts.

Lemma parse_hour_error (t : option string) (e : PyError) :
  parse_hour t = Raise e → e = ValueError ∨ e = OverflowError.
Proof.
  unfold parse_hour.
  destruct t as [s|]; [destruct (int_of_str _) as [h|]; [destruct (fits_int64 h)|]|];
    intros [= <-]; (by left) || (by right).
Qed.

(** A converted hour is a 64-bit integer. *)
Lemma parse_hour_int64 (t : option string) (h : Z) :
  parse_hour t = Return h → - 2 ^ 63 ≤ h < 2 ^ 63.
Proof.
  unfold parse_hour.
  destruct t as [s|]; [destruct (int_of_str _) as [h'|]|]; try discriminate.
  destruct (fits_int64 h') eqn:Hfits; [|discriminate]. intros [= <-].
  unfold fits_int64 in Hfits. apply andb_true_iff in Hfits as [Hlo Hhi].
  apply Z.leb_le in Hlo. apply Z.ltb_lt in Hhi. lia.
Qed.

Lemma add_mapped_columns_rows (rows : Frame (Collision * R))
    (matched : Frame MatchedCollision) :
  _add_mapped_columns rows = Return matched → Forall2 completes rows matched.
Proof.
  unfold _add_mapped_columns. rewrite mapM_Return. intros Hall.
  eapply Forall2_impl; [exact Hall|]. intros row m Hrow. simpl in Hrow.
  apply bind_Return in Hrow as (h & Hh & [= <-]). by repeat split.
Qed.

Lemma add_mapped_columns_source (rows : Frame (Collision * R))
    (matched : Frame MatchedCollision) :
  _add_mapped_columns rows = Return matched →
  (λ m, (m.1, (source m.2, distance_to_road_m m.2))) <$> matched = rows.
Proof.
  intros Hcols%add_mapped_columns_rows.
  induction Hcols as [|[l [c d]] m rows matched Hm _ IH]; [done|].
  destruct Hm as (Hl & Hc & Hd & _). rewrite fmap_cons, IH.
  simpl in Hl, Hc, Hd. by rewrite Hl, Hc, Hd.
Qed.

(** The decoding succeeds when every time cell is an integer literal. *)
Lemma add_mapped_columns_total (rows : Frame (Collision * R)) :
  (∀ row, row ∈ rows → ∃ h, parse_hour (time row.2.1) = Return h) →
  ∃ matched, _add_mapped_columns rows = Return matched.
Proof.
  unfold _add_mapped_columns. induction rows as [|row rows IH]; intros Hparse.
  - by eexists.
  - destruct (Hparse row) as [h Hh]; [by left|].
    destruct IH as [matched Hm]; [intros; apply Hparse; by right|].
    simpl. rewrite Hh. simpl. rewrite Hm. by eexists.
Qed.

(** One time cell that does not convert aborts the decoding of the whole
    frame, with the exception of the first such cell. *)
Lemma add_mapped_columns_abort (rows : Frame (Collision * R))
    (row : Z * (Collision * R)) (e : PyError) :
  row ∈ rows → parse_hour (time row.2.1) = Raise e →
  ∃ e' row', _add_mapped_columns rows = Raise e'
             ∧ row' ∈ rows ∧ parse_hour (time row'.2.1) = Raise e'.
Proof.
  unfold _add_mapped_columns. induction rows as [|row' rows IH]; intros Hin Hbad.
  - by apply elem_of_nil in Hin.
  - simpl. destruct (parse_hour (time row'.2.1)) as [e'|h] eqn:Hrow'; simpl.
    + exists e', row'. split; [done|]. split; [by left | done].
    + apply elem_of_cons in Hin as [->|Hin].
      * rewrite Hbad in Hrow'. discriminate.
      * destruct (IH Hin Hbad) as (e' & row'' & -> & Hin' & Hbad').
        exists e', row''. split; [done|]. split; [by right | done].
Qed.

End ColumnFacts.

(** ** The matcher *)

Section MatcherFacts.
Context {PJ : Projector}.

Lemma elem_of_within_radius (cp : Frame Point) (r : R) (sp : Point) (l : Z) :
  l ∈ within_radius cp r sp ↔ ∃ p, (l, p) ∈ cp ∧ (distance p sp <= r)%R.
Proof.
  unfold within_radius. rewrite list_elem_of_fmap. split.
  - intros ([l' p] & -> & Hin). apply list_elem_of_filter in Hin as [Hd Hin]. eauto.
  - intros (p & Hin & Hd). exists (l, p). split; [done|]. by apply list_elem_of_filter.
Qed.

(** The set holds the labels met within the radius of some sample point. *)
Lemma elem_of_nearby_indices (cp : Frame Point) (r : R) (sps : list Point) (l : Z) :
  l ∈ nearby_indices cp r sps ↔
  ∃ sp p, sp ∈ sps ∧ (l, p) ∈ cp ∧ (distance p sp <= r)%R.
Proof.
  unfold nearby_indices.
  assert (∀ acc : gset Z,
            l ∈ foldl (λ acc sp, acc ∪ list_to_set (within_radius cp r sp)) acc sps ↔
            l ∈ acc ∨ ∃ sp p, sp ∈ sps ∧ (l, p) ∈ cp ∧ (distance p sp <= r)%R) as Hgen.
  { induction sps as [|sp sps IH]; intros acc; simpl.
    - split; [by left|]. intros [Hacc|(sp & p & Hin & _)]; [done|].
      by apply elem_of_nil in Hin.
    - rewrite IH, elem_of_union, elem_of_list_to_set, elem_of_within_radius. split.
      + intros [[Hacc|(p & Hp & Hd)] | (sp' & p & Hsp & Hp & Hd)].
        * by left.
        * right. exists sp, p. split; [by left|done].
        * right. exists sp', p. split; [by right|done].
      + intros [Hacc | (sp' & p & Hsp & Hp & Hd)]; [by left; left|].
        apply elem_of_cons in Hsp as [->|Hsp].
        * left; right. by exists p.
        * right. by exists sp', p. }
  rewrite Hgen. split; [|by right]. intros [Hempty|Hfound]; [|done].
  by apply not_elem_of_empty in Hempty.
Qed.

Lemma find_unfold (self : CollisionAnalyzer) (utm : CRS) :
  estimate_utm_crs (sample_points self) = Return utm →
  find_nearby_collisions self =
  _add_mapped_columns
    ((λ row, (row.1, (row.2, line_distance (to_utm utm (geometry row.2))
                                           (to_utm utm <$> road_line self))))
       <$> loc (collisions_gdf self)
               (elements (nearby_indices
                            ((λ row, (row.1, to_utm utm (geometry row.2)))
                               <$> collisions_gdf self)
                            (radius self)
                            (to_utm utm <$> sample_points self)))).
Proof. intros Hest. unfold find_nearby_collisions. by rewrite Hest. Qed.

(** With distinct index labels, a row's label is in the set exactly when
    the row itself is within reach. *)
Lemma nearby_indices_reach (self : CollisionAnalyzer) (utm : CRS) (row : Z * Collision) :
  NoDup (collisions_gdf self).*1 →
  row ∈ collisions_gdf self →
  row.1 ∈ elements (nearby_indices
                      ((λ row, (row.1, to_utm utm (geometry row.2)))
                         <$> collisions_gdf self)
                      (radius self)
                      (to_utm utm <$> sample_points self))
  ↔ within_reach self utm row.2.
Proof.
  intros Hnd Hrow. rewrite elem_of_elements, elem_of_nearby_indices.
  unfold within_reach. rewrite Exists_exists. split.
  - intros (sp & p & Hsp & Hp & Hd).
    apply list_elem_of_fmap in Hsp as (geo & -> & Hgeo).
    apply list_elem_of_fmap in Hp as ([l c] & [= Hl ->] & Hc).
    destruct row as [l' c']. simpl in Hl. subst l'.
    rewrite (NoDup_fst_agree _ _ _ _ Hnd Hrow Hc). eauto.
  - intros (geo & Hgeo & Hd). exists (to_utm utm geo), (to_utm utm (geometry row.2)).
    split; [by apply list_elem_of_fmap_2|]. split; [|done].
    apply list_elem_of_fmap. by exists row.
Qed.

(** The rows handed to the distance and decoding steps. *)
Lemma nearby_rows (self : CollisionAnalyzer) (utm : CRS) :
  NoDup (collisions_gdf self).*1 →
  loc (collisions_gdf self)
      (elements (nearby_indices
                   ((λ row, (row.1, to_utm utm (geometry row.2)))
                      <$> collisions_gdf self)
                   (radius self)
                   (to_utm utm <$> sample_points self)))
  ≡ₚ filter (λ row, within_reach self utm row.2) (collisions_gdf self).
Proof.
  intros Hnd. rewrite loc_filter by apply NoDup_elements.
  erewrite filter_ext_in; [done|]. intros row Hrow. by apply nearby_indices_reach.
Qed.

Lemma strip_with_distance (f : Z * Collision → R) (rows : Frame Collision) :
  (λ row : Z * (Collision * R), (row.1, row.2.1))
    <$> ((λ row, (row.1, (row.2, f row))) <$> rows) = rows.
Proof.
  rewrite <- list_fmap_compose. rewrite <- (list_fmap_id rows) at 2.
  apply list_fmap_ext. by intros _ [??] _.
Qed.

(** The rows selected by the matcher, before the added columns. *)
Lemma matched_sources (self : CollisionAnalyzer) (utm : CRS)
    (matched : Frame MatchedCollision) :
  NoDup (collisions_gdf self).*1 →
  estimate_utm_crs (sample_points self) = Return utm →
  find_nearby_collisions self = Return matched →
  (λ m, (m.1, source m.2)) <$> matched
  ≡ₚ filter (λ row, within_reach self utm row.2) (collisions_gdf self).
Proof.
  intros Hnd Hest Hfind. rewrite (find_unfold _ _ Hest) in Hfind.
  apply add_mapped_columns_source in Hfind.
  apply (f_equal (fmap (λ row : Z * (Collision * R), (row.1, row.2.1)))) in Hfind.
  rewrite strip_with_distance, <- list_fmap_compose in Hfind.
  rewrite <- (nearby_rows _ _ Hnd), <- Hfind. done.
Qed.

(** The matcher returns a frame as soon as the time cells of the collisions
    within reach are integer literals. *)
Lemma find_total (self : CollisionAnalyzer) (utm : CRS) :
  NoDup (collisions_gdf self).*1 →
  estimate_utm_crs (sample_points self) = Return utm →
  (∀ row, row ∈ collisions_gdf self → within_reach self utm row.2 →
          ∃ h, parse_hour (time row.2) = Return h) →
  ∃ matched, find_nearby_collisions self = Return matched.
Proof.
  intros Hnd Hest Hparse. rewrite (find_unfold _ _ Hest).
  apply add_mapped_columns_total. intros row Hrow.
  apply list_elem_of_fmap in Hrow as (row' & -> & Hrow'). simpl.
  rewrite (nearby_rows _ _ Hnd) in Hrow'.
  apply list_elem_of_filter in Hrow' as [Hreach Hin]. by apply Hparse.
Qed.

(** The labels in the set are those of the rows within reach. *)
Lemma nearby_indices_labels (self : CollisionAnalyzer) (utm : CRS) (l : Z) :
  l ∈ elements (nearby_indices
                  ((λ row, (row.1, to_utm utm (geometry row.2)))
                     <$> collisions_gdf self)
                  (radius self)
                  (to_utm utm <$> sample_points self))
  ↔ l ∈ (filter (λ row, within_reach self utm row.2) (collisions_gdf self)).*1.
Proof.
  rewrite elem_of_elements, elem_of_nearby_indices, list_elem_of_fmap. split.
  - intros (sp & p & Hsp & Hp & Hd).
    apply list_elem_of_fmap in Hsp as (geo & -> & Hgeo).
    apply list_elem_of_fmap in Hp as ([l' c] & [= -> ->] & Hc).
    exists (l', c). split; [done|]. apply list_elem_of_filter. split; [|done].
    apply Exists_exists. by exists geo.
  - intros ([l' c] & -> & [Hreach Hc]%list_elem_of_filter).
    apply Exists_exists in Hreach as (geo & Hgeo & Hd).
    exists (to_utm utm geo), (to_utm utm (geometry c)).
    split; [by apply list_elem_of_fmap_2|]. split; [|done].
    apply list_elem_of_fmap. by exists (l', c).
Qed.

(** Whatever the labels of the frame: the rows handed to the distance and
    decoding steps are those whose label is the label of a row within
    reach. *)
Lemma labelled_rows (self : CollisionAnalyzer) (utm : CRS) :
  loc (collisions_gdf self)
      (elements (nearby_indices
                   ((λ row, (row.1, to_utm utm (geometry row.2)))
                      <$> collisions_gdf self)
                   (radius self)
                   (to_utm utm <$> sample_points self)))
  ≡ₚ filter (λ row, row.1 ∈ (filter (λ r, within_reach self utm r.2)
                                    (collisions_gdf self)).*1)
            (collisions_gdf self).
Proof.
  rewrite loc_filter by apply NoDup_elements.
  erewrite filter_ext_in; [done|]. intros row _. apply nearby_indices_labels.
Qed.

Lemma matched_of_labels (self : CollisionAnalyzer) (utm : CRS)
    (matched : Frame MatchedCollision) :
  estimate_utm_crs (sample_points self) = Return utm →
  find_nearby_collisions self = Return matched →
  (λ m, (m.1, source m.2)) <$> matched
  ≡ₚ filter (λ row, row.1 ∈ (filter (λ r, within_reach self utm r.2)
                                    (collisions_gdf self)).*1)
            (collisions_gdf self).
Proof.
  intros Hest Hfind. rewrite (find_unfold _ _ Hest) in Hfind.
  apply add_mapped_columns_source in Hfind.
  apply (f_equal (fmap (λ row : Z * (Collision * R), (row.1, row.2.1)))) in Hfind.
  rewrite strip_with_distance, <- list_fmap_compose in Hfind.
  change ((λ m : Z * MatchedCollision, (m.1, source m.2)) <$> matched
          = loc (collisions_gdf self)
                (elements (nearby_indices
                             ((λ row, (row.1, to_utm utm (geometry row.2)))
                                <$> collisions_gdf self)
                             (radius self)
                             (to_utm utm <$> sample_points self)))) in Hfind.
  rewrite Hfind. apply labelled_rows.
Qed.

(** Whatever the labels of the frame, the matcher returns a frame when
    every time cell of the frame converts. *)
Lemma find_total_all (self : CollisionAnalyzer) (utm : CRS) :
  estimate_utm_crs (sample_points self) = Return utm →
  (∀ row, row ∈ collisions_gdf self → ∃ h, parse_hour (time row.2) = Return h) →
  ∃ matched, find_nearby_collisions self = Return matched.
Proof.
  intros Hest Hparse. rewrite (find_unfold _ _ Hest).
  apply add_mapped_columns_total. intros row Hrow.
  apply list_elem_of_fmap in Hrow as (row' & -> & Hrow'). simpl.
  rewrite labelled_rows in Hrow'.
  apply list_elem_of_filter in Hrow' as [_ Hin]. by apply Hparse.
Qed.

(** One time cell that does not convert, in a collision within reach,
    aborts the whole match, whatever the labels of the frame. *)
Lemma find_abort (self : CollisionAnalyzer) (utm : CRS) (row : Z * Collision)
    (e : PyError) :
  estimate_utm_crs (sample_points self) = Return utm →
  row ∈ collisions_gdf self → within_reach self utm row.2 →
  parse_hour (time row.2) = Raise e →
  ∃ e' row', find_nearby_collisions self = Raise e'
             ∧ row' ∈ collisions_gdf self
             ∧ parse_hour (time row'.2) = Raise e'.
Proof.
  intros Hest Hrow Hreach Hbad. rewrite (find_unfold _ _ Hest).
  set (f := λ row : Z * Collision,
              (row.1, (row.2, line_distance (to_utm utm (geometry row.2))
                                            (to_utm utm <$> road_line self)))).
  destruct (add_mapped_columns_abort
              (f <$> loc (collisions_gdf self)
                         (elements (nearby_indices
                                      ((λ row, (row.1, to_utm utm (geometry row.2)))
                                         <$> collisions_gdf self)
                                      (radius self)
                                      (to_utm utm <$> sample_points self))))
              (f row) e) as (e' & row' & Hraise & Hin & Hbad').
  - apply list_elem_of_fmap_2. rewrite labelled_rows.
    apply list_elem_of_filter. split; [|done].
    apply list_elem_of_fmap. exists row. split; [done|]. by apply list_elem_of_filter.
  - exact Hbad.
  - apply list_elem_of_fmap in Hin as (row'' & -> & Hin).
    rewrite labelled_rows in Hin. apply list_elem_of_filter in Hin as [_ Hin].
    exists e', row''. split; [exact Hraise|]. by split.
Qed.

(** The attached distance of a matched row. *)
Lemma matched_distance (self : CollisionAnalyzer) (utm : CRS)
    (matched : Frame MatchedCollision) (m : Z * MatchedCollision) :
  estimate_utm_crs (sample_points self) = Return utm →
  find_nearby_collisions self = Return matched →
  m ∈ matched →
  distance_to_road_m m.2
  = line_distance (to_utm utm (geometry (source m.2))) (to_utm utm <$> road_line self).
Proof.
  intros Hest Hfind Hm. rewrite (find_unfold _ _ Hest) in Hfind.
  apply add_mapped_columns_rows in Hfind.
  apply list_elem_of_lookup in Hm as [i Hi].
  destruct (Forall2_lookup_r _ _ _ _ _ Hfind Hi) as (row & Hrow & Hcompletes).
  destruct Hcompletes as (_ & Hsource & Hd & _).
  apply list_lookup_fmap_Some in Hrow as (row' & -> & Hrow').
  simpl in Hsource, Hd. by rewrite Hd, Hsource.
Qed.

(** A frame of one collision within reach: that collision is the match. *)
Lemma single_match (self : CollisionAnalyzer) (utm : CRS) (row : Z * Collision) (h : Z) :
  collisions_gdf self = [row] →
  estimate_utm_crs (sample_points self) = Return utm →
  within_reach self utm row.2 →
  parse_hour (time row.2) = Return h →
  ∃ m, find_nearby_collisions self = Return [m]
       ∧ m.1 = row.1 ∧ source m.2 = row.2
       ∧ distance_to_road_m m.2
         = line_distance (to_utm utm (geometry row.2)) (to_utm utm <$> road_line self).
Proof.
  intros Hframe Hest Hreach Hparse.
  destruct (find_total_all self utm Hest) as [matched Hfind].
  { rewrite Hframe. intros ? ->%list_elem_of_singleton. by exists h. }
  pose proof (matched_of_labels self utm matched Hest Hfind) as Hperm.
  rewrite Hframe in Hperm. rewrite filter_cons_True in Hperm.
  2: { rewrite filter_cons_True by done. by left. }
  rewrite filter_nil in Hperm. apply Permutation_singleton_r in Hperm.
  destruct matched as [|m [|m' matched]]; [done| |done].
  injection Hperm as <-. exists m. split; [exact Hfind|]. split; [done|].
  split; [done|]. simpl.
  apply (matched_distance self utm [m] m Hest Hfind). by left.
Qed.


End MatcherFacts.

(** ** Counting and percentages *)

Section CountFacts.
Context `{Countable K}.

Lemma count_sum_insert_fresh (counts : gmap K Z) (k : K) (c : Z) :
  counts !! k = None → count_sum (<[k:=c]> counts) = c + count_sum counts.
Proof.
  intros Hfresh. unfold count_sum.
  rewrite map_fold_insert_L; [done | intros; lia | done].
Qed.

Lemma count_sum_insert (counts : gmap K Z) (k : K) (c : Z) :
  count_sum (<[k:=c]> counts) = c + count_sum counts - default 0 (counts !! k).
Proof.
  destruct (counts !! k) as [c0|] eqn:Hk; simpl.
  - rewrite <- insert_delete_eq.
    rewrite count_sum_insert_fresh by apply lookup_delete_eq.
    rewrite <- (insert_id counts k c0 Hk) at 2. rewrite <- insert_delete_eq.
    rewrite (count_sum_insert_fresh (delete k counts)) by apply lookup_delete_eq. lia.
  - rewrite count_sum_insert_fresh by done. lia.
Qed.

(** Every cell that holds a value is counted once; NaN cells are not. *)
Lemma value_counts_sum (col : list (option K)) :
  count_sum (value_counts col) = labelled col.
Proof.
  induction col as [|[k|] col IH].
  - done.
  - change (value_counts (Some k :: col))
      with (<[k := 1 + default 0 (value_counts col !! k)]> (value_counts col)).
    rewrite count_sum_insert, IH. unfold labelled.
    rewrite filter_cons_True by (by eexists). simpl length. lia.
  - change (value_counts (None :: col)) with (value_counts col).
    rewrite IH. unfold labelled. by rewrite filter_cons_False by (by intros [? [=]]).
Qed.

End CountFacts.

Section PercentageFacts.
Local Open Scope Q_scope.

(** Rational addition commutes on the nose, numerators in [Z] and
    denominators in [positive]. *)
Lemma Qplus_swap (a b y : Q) : a + (b + y) = b + (a + y).
Proof.
  destruct a as [an ad], b as [bn bd], y as [yn yd]. unfold Qplus. simpl. f_equal.
  - rewrite !Pos2Z.inj_mul. ring.
  - rewrite !Pos.mul_assoc. by rewrite (Pos.mul_comm ad bd).
Qed.

Lemma percentage_sum_insert (dimension : gmap string Share) (k : string) (share : Share) :
  dimension !! k = None →
  percentage_sum (<[k:=share]> dimension) = percentage share + percentage_sum dimension.
Proof.
  intros Hfresh. unfold percentage_sum.
  rewrite map_fold_insert_L; [done | intros; apply Qplus_swap | done].
Qed.

(** The percentages of a breakdown add up to the share of the counted rows. *)
Lemma percentage_sum_breakdown (counts : gmap string Z) (total : Z) :
  percentage_sum (breakdown counts total)
  == (inject_Z (count_sum counts) / inject_Z total) * 100.
Proof.
  unfold breakdown. induction counts as [|k c counts Hfresh IH] using map_ind.
  - rewrite fmap_empty. unfold percentage_sum, count_sum.
    rewrite !map_fold_empty. unfold Qdiv. simpl. ring.
  - rewrite fmap_insert, percentage_sum_insert by (by rewrite lookup_fmap, Hfresh).
    rewrite count_sum_insert_fresh by done. simpl. rewrite IH, inject_Z_plus.
    unfold Qdiv. ring.
Qed.

Lemma full_share (n total : Z) :
  (0 < total)%Z → (inject_Z n / inject_Z total) * 100 == 100 ↔ n = total.
Proof.
  intros Hpos. destruct total as [|p|p]; try lia.
  unfold Qeq, Qdiv, Qmult, Qinv, inject_Z. simpl. lia.
Qed.

End PercentageFacts.

(** ** The statistics report *)

Section StatisticsFacts.
Context {PJ : Projector}.

(** Without sample points the division by their number raises, whatever
    was matched. *)
Lemma calculate_no_points (self : CollisionAnalyzer) (rows : Frame MatchedCollision) :
  sample_points self = [] →
  ensure_nearby self = Return rows →
  calculate_statistics self = Raise ZeroDivisionError.
Proof.
  intros Hnone Hrows. unfold calculate_statistics. rewrite Hrows, Hnone. reflexivity.
Qed.

(** Without sample points the matcher raises: no planar frame is
    estimated for an empty set of points. *)
Lemma find_no_points (self : CollisionAnalyzer) :
  sample_points self = [] → find_nearby_collisions self = Raise ValueError.
Proof.
  intros Hnone. unfold find_nearby_collisions.
  by rewrite Hnone, estimate_utm_crs_empty.
Qed.

(** So a frame that the matcher returns comes with a sample point. *)
Lemma find_returns_points (self : CollisionAnalyzer) (matched : Frame MatchedCollision) :
  find_nearby_collisions self = Return matched → sample_points self ≠ [].
Proof. intros Hfind Hnone. rewrite (find_no_points self Hnone) in Hfind. discriminate. Qed.

(** Without sample points [calculate_statistics] raises: in the matcher
    when it has to run it, at the division when the matched frame is
    already on the analyzer. *)
Lemma calculate_raises_no_points (self : CollisionAnalyzer) :
  sample_points self = [] →
  (nearby_collisions self = None → calculate_statistics self = Raise ValueError)
  ∧ (∀ rows, nearby_collisions self = Some rows →
             calculate_statistics self = Raise ZeroDivisionError).
Proof.
  intros Hnone. split.
  - intros Hfresh. unfold calculate_statistics, ensure_nearby.
    by rewrite Hfresh, (find_no_points self Hnone).
  - intros rows Hrows. apply (calculate_no_points self rows Hnone).
    unfold ensure_nearby. by rewrite Hrows.
Qed.

(** With a sample point the report is produced from the matched frame. *)
Lemma calculate_returns (self : CollisionAnalyzer) (rows : Frame MatchedCollision) :
  sample_points self ≠ [] →
  ensure_nearby self = Return rows →
  ∃ stats,
    calculate_statistics self = Return stats
    ∧ total_collisions (summary stats) = Z.of_nat (length rows)
    ∧ total_casualties (summary stats) =
        int64 (foldr Z.add 0 ((λ row, number_of_casualties (source row.2)) <$> rows))
    ∧ avg_casualties_per_collision (summary stats) =
        (if 0 <? Z.of_nat (length rows)
         then inject_Z (total_casualties (summary stats)) / inject_Z (Z.of_nat (length rows))
         else 0)%Q
    ∧ collisions_per_sample_point (summary stats) =
        (inject_Z (Z.of_nat (length rows))
         / inject_Z (Z.of_nat (length (sample_points self))))%Q
    ∧ severity stats =
        breakdown (value_counts ((λ row, severity_name row.2) <$> rows))
                  (Z.of_nat (length rows))
    ∧ day_of_week_stats stats =
        breakdown (value_counts ((λ row, day_name row.2) <$> rows))
                  (Z.of_nat (length rows))
    ∧ weather stats =
        breakdown (value_counts ((λ row, weather_name row.2) <$> rows))
                  (Z.of_nat (length rows))
    ∧ light stats =
        breakdown (value_counts ((λ row, light_name row.2) <$> rows))
                  (Z.of_nat (length rows)).
Proof.
  intros Hsome Hrows. unfold calculate_statistics. rewrite Hrows.
  destruct (sample_points self) as [|sp sps]; [done|].
  eexists. split; [reflexivity|]. by repeat split.
Qed.


Lemma filter_all_length {A} (P : A → Prop) `{!∀ x, Decision (P x)} (l : list A) :
  length (filter P l) = length l ↔ Forall P l.
Proof.
  induction l as [|x l IH].
  - split; [constructor | done].
  - rewrite filter_cons, Forall_cons. pose proof (length_filter P l) as Hle.
    destruct (decide (P x)) as [HP|HP]; simpl.
    + rewrite <- IH. split; [intros [=]; done | intros [_ ->]; done].
    + split; [lia | tauto].
Qed.

(** The percentages of a label column add up to the share of its cells
    that hold a label: to 100 exactly when none is missing. *)
Lemma column_percentages (col : list (option string)) :
  col ≠ [] →
  let total := Z.of_nat (length col) in
  (percentage_sum (breakdown (value_counts col) total)
   == (inject_Z (labelled col) / inject_Z total) * 100)%Q
  ∧ ((percentage_sum (breakdown (value_counts col) total) == 100)%Q
     ↔ Forall is_Some col).
Proof.
  intros Hne total.
  assert (0 < total) as Hpos by (destruct col; [done | unfold total; simpl; lia]).
  pose proof (percentage_sum_breakdown (value_counts col) total) as Hsum.
  rewrite value_counts_sum in Hsum. split; [exact Hsum|].
  rewrite Hsum, (full_share _ total Hpos), <- (filter_all_length is_Some col).
  unfold labelled, total. apply Nat2Z.inj_iff.
Qed.

(** The frame the statistics are computed on, when the matcher produced it,
    holds decoded labels. *)
Lemma find_decoded (self : CollisionAnalyzer) (matched : Frame MatchedCollision) :
  find_nearby_collisions self = Return matched →
  ∀ m, m ∈ matched → decoded m.2.
Proof.
  intros Hfind m Hm. unfold find_nearby_collisions in Hfind.
  destruct (estimate_utm_crs (sample_points self)) as [e|utm]; [discriminate|].
  apply add_mapped_columns_rows in Hfind.
  apply list_elem_of_lookup in Hm as [i Hi].
  destruct (Forall2_lookup_r _ _ _ _ _ Hfind Hi) as (row & _ & Hcompletes).
  by destruct Hcompletes as (_ & _ & _ & Hdecoded & _).
Qed.

End StatisticsFacts.

(** ** Scenarios *)

Section ScenarioFacts.
Import Scenario.
Local Open Scope R_scope.

Lemma flat_project_road (coords : list Geo) (step : Z) :
  coords ≠ [] →
  length coords ≠ 1%nat →
  project_road (PJ := flat_projector)
    {| road_coords := coords; distance_interval := step |} = Return (tt, coords).
Proof.
  intros Hne Hlen.
  apply (project_road_spec (PJ := flat_projector) _ tt coords). simpl.
  split; [done|]. split; [by destruct coords|].
  symmetry. apply (list_fmap_id coords).
Qed.

Lemma straight_length (len : R) : 0 <= len → line_length (straight len) = len.
Proof. apply line_length_vertical. Qed.

(** Interpolation along the straight road. *)
Lemma straight_interpolate (len d : R) :
  0 <= d <= len → 0 < len → interpolate (straight len) d = (0, d).
Proof.
  intros [Hd Hle] Hlen. unfold interpolate, straight.
  destruct (Rlt_dec d 0) as [Hneg|_]; [lra|]. simpl.
  assert (distance (0, 0) (0, len) = len) as Hdist.
  { pose proof (straight_length len (Rlt_le _ _ Hlen)) as Hl.
    unfold line_length, straight in Hl. simpl in Hl. lra. }
  destruct (Rle_dec d 0) as [Hz|Hpos].
  - f_equal. lra.
  - rewrite Hdist. destruct (Rle_dec d len) as [_|Hgt]; [|lra].
    unfold lerp. simpl. f_equal; field; lra.
Qed.

Lemma distance_self (p : Point) : distance p p = 0.
Proof.
  unfold distance, sqdist.
  replace ((p.1 - p.1) * (p.1 - p.1) + (p.2 - p.2) * (p.2 - p.2)) with 0 by ring.
  apply sqrt_0.
Qed.

(** From a point level with the start of the straight road, or behind it,
    the nearest point of the road is its start. *)
Lemma straight_distance_start (x y len : R) :
  0 < len → y <= 0 → line_distance (x, y) (straight len) = distance (x, y) (0, 0).
Proof.
  intros Hlen Hy. unfold line_distance, straight. cbn [segments map fold_left fst snd].
  unfold segment_distance. cbn [fst snd].
  destruct (Req_dec_T (sqdist (0, 0) (0, len)) 0) as [Hz|Hnz]; [done|].
  assert (sqdist (0, 0) (0, len) = len * len) as Hsq by (unfold sqdist; simpl; ring).
  rewrite Hsq.
  assert (((x - 0) * (0 - 0) + (y - 0) * (len - 0)) / (len * len) <= 0) as Ht.
  { apply (Rmult_le_reg_r (len * len)); [nra|].
    unfold Rdiv. rewrite Rmult_assoc, Rinv_l by nra. nra. }
  unfold clamp01. destruct (Rle_dec _ 0) as [_|Hgt]; [|done]. by rewrite lerp_start.
Qed.

Lemma distance_origin_x (x : R) : 0 <= x → distance (x, 0) (0, 0) = x.
Proof.
  intros Hx. unfold distance, sqdist. simpl.
  replace ((x - 0) * (x - 0) + (0 - 0) * (0 - 0)) with (x * x) by ring.
  by apply sqrt_square.
Qed.

Lemma distance_origin_y (y : R) : y <= 0 → distance (0, y) (0, 0) = - y.
Proof.
  intros Hy. unfold distance, sqdist. simpl.
  replace ((0 - 0) * (0 - 0) + (y - 0) * (y - 0)) with (- y * - y) by ring.
  apply sqrt_square. lra.
Qed.

(** The sample points of a straight road of whole length. *)
Lemma straight_samples (len step : Z) (ds : list Z) :
  (0 < len)%Z →
  range 0 len step = Return ds →
  Forall (λ d, 0 <= IZR d <= IZR len) ds →
  generate_sample_points (PJ := flat_projector)
    {| road_coords := straight (IZR len); distance_interval := step |}
  = Return (map (λ d, (0, IZR d)) ds).
Proof.
  intros Hlen Hrange Hds.
  rewrite (generate_unfold (PJ := flat_projector) _ tt (straight (IZR len)))
    by (by apply flat_project_road).
  assert (0 < IZR len) as Hlen' by (by apply IZR_lt).
  rewrite straight_length, int_of_float_IZR by lra. simpl distance_interval.
  rewrite Hrange. unfold bind, Return. f_equal. clear Hrange.
  induction Hds as [|d ds Hd _ IH]; [done|].
  cbn [map]. rewrite IH, straight_interpolate by done. reflexivity.
Qed.

Lemma samples_100 :
  generate_sample_points (PJ := flat_projector) sampler_100 = Return [(0, 0); (0, 50)].
Proof.
  apply (straight_samples 100 50 [0; 50]%Z); [lia | reflexivity |].
  repeat constructor; lra.
Qed.

Lemma samples_111 :
  generate_sample_points (PJ := flat_projector) sampler_111
  = Return [(0, 0); (0, 50); (0, 100)].
Proof.
  apply (straight_samples 111 50 [0; 50; 100]%Z); [lia | reflexivity |].
  repeat constructor; lra.
Qed.

Lemma short_length : int_of_float (line_length (straight (1 / 2))) = 0%Z.
Proof. rewrite straight_length by lra. apply int_of_float_floor; lra. Qed.

End ScenarioFacts.

(* ===================================================================== *)
(** * The sampler (road_sampler.py) *)
(* ===================================================================== *)

Section SamplerClaims.
Import Scenario.

(** C3.  For every projected road and every positive interval, the sampler
    returns the points interpolated at a duplicate-free list of distances
    that holds exactly the multiples [0, I, 2I, ...] of the interval lying in
    the half-open range from 0 to [floor(length)], the integer truncation of
    the projected length: no point is interpolated at or past that bound. *)
Theorem sample_distances_exact {PJ : Projector} (self : RoadSampler) (utm : CRS)
    (road : list Point) :
  0 < distance_interval self →
  project_road self = Return (utm, road) →
  ∃ ds,
    generate_sample_points self =
      Return (map (λ d, from_utm utm (interpolate road (IZR d))) ds)
    ∧ NoDup ds
    ∧ (∀ d, d ∈ ds ↔
            (∃ k, 0 ≤ k ∧ d = k * distance_interval self)
            ∧ 0 ≤ d < int_of_float (line_length road))
    ∧ (IZR (int_of_float (line_length road)) <= line_length road
       < IZR (int_of_float (line_length road)) + 1)%R.
Proof.
  intros Hpos Hproj.
  destruct (generate_forward self utm road Hpos Hproj) as (ds & Hgen & _ & Hnd & Hin).
  exists ds. repeat split; try done; try (by apply Hin).
  - by apply (int_of_float_floor _ _ (line_length_nonneg road)).
  - by apply (int_of_float_floor _ _ (line_length_nonneg road)).
Qed.

Lemma sample_distances_exact_witness :
  0 < distance_interval sampler_111
  ∧ project_road (PJ := flat_projector) sampler_111 = Return (tt, straight 111)
  ∧ ∃ ds,
      generate_sample_points (PJ := flat_projector) sampler_111 =
        Return (map (λ d, interpolate (straight 111) (IZR d)) ds)
      ∧ NoDup ds
      ∧ (∀ d, d ∈ ds ↔
              (∃ k, 0 ≤ k ∧ d = k * 50)
              ∧ 0 ≤ d < int_of_float (line_length (straight 111)))
      ∧ (IZR (int_of_float (line_length (straight 111))) <= line_length (straight 111)
         < IZR (int_of_float (line_length (straight 111))) + 1)%R.
Proof.
  split; [simpl; lia|]. split; [by apply flat_project_road|].
  apply (sample_distances_exact (PJ := flat_projector) sampler_111 tt (straight 111)).
  - simpl. lia.
  - by apply flat_project_road.
Defined.

(** C2, as the code has it.  For every road with at least 2 vertices and
    every positive interval I the sampler returns exactly
    [ceil(floor(length) / I)] points: [floor(floor(length)/I) + 1] when
    [floor(length)] is no multiple of I, and [floor(floor(length)/I)] when it
    is one (none at all when [floor(length)] is 0).  With I = 50 and
    [floor(length)] between 101 and 150, as for the straight road of about
    111 metres, there are 3 points, at distances 0, 50 and 100. *)
Theorem sample_count {PJ : Projector} (self : RoadSampler) (utm : CRS) :
  (2 ≤ length (road_coords self))%nat →
  0 < distance_interval self →
  estimate_utm_crs (road_coords self) = Return utm →
  let road := map (to_utm utm) (road_coords self) in
  let L := int_of_float (line_length road) in
  let step := distance_interval self in
  ∃ pts,
    generate_sample_points self = Return pts
    ∧ Z.of_nat (length pts) = (L + step - 1) / step
    ∧ (L `mod` step ≠ 0 → Z.of_nat (length pts) = L / step + 1)
    ∧ (L `mod` step = 0 → Z.of_nat (length pts) = L / step)
    ∧ (step = 50 → 101 ≤ L ≤ 150 →
       pts = map (λ d, from_utm utm (interpolate road (IZR d))) [0; 50; 100]).
Proof.
  intros Hlen Hpos Hest road L step.
  assert (project_road self = Return (utm, road)) as Hproj.
  { apply project_road_spec. repeat split; [lia | done]. }
  assert (0 ≤ L) as HL by apply int_of_float_nonneg, line_length_nonneg.
  destruct (generate_forward self utm road Hpos Hproj) as (ds & Hgen & Hlen_ds & _).
  fold L step in Hlen_ds. rewrite range_length_ceiling in Hlen_ds by done.
  exists (map (λ d, from_utm utm (interpolate road (IZR d))) ds).
  rewrite length_map. split; [done|]. split; [done|].
  destruct (ceiling_cases L step Hpos HL) as [Hinexact Hexact].
  split; [|split].
  - intros Hmod. by rewrite Hlen_ds, Hinexact.
  - intros Hmod. by rewrite Hlen_ds, Hexact.
  - intros Hstep HL'.
    assert (generate_sample_points self =
            Return (map (λ d, from_utm utm (interpolate road (IZR d))) [0; 50; 100]))
      as Hthree.
    { rewrite (generate_unfold _ _ _ Hproj). fold road L step. rewrite Hstep.
      unfold range. rewrite range_length_ceiling by lia.
      replace ((L + 50 - 1) / 50) with 3
        by (apply (Z.div_unique _ _ _ (L - 101)); lia).
      reflexivity. }
    rewrite Hgen in Hthree. by injection Hthree.
Qed.

Lemma sample_count_witness :
  (2 ≤ length (road_coords sampler_111))%nat
  ∧ 0 < distance_interval sampler_111
  ∧ ∃ pts,
      generate_sample_points (PJ := flat_projector) sampler_111 = Return pts
      ∧ Z.of_nat (length pts) =
          (int_of_float (line_length (straight 111)) + 50 - 1) / 50.
Proof.
  split; [simpl; lia|]. split; [simpl; lia|].
  destruct (sample_count (PJ := flat_projector) sampler_111 tt)
    as (pts & Hgen & Hcount & _); [simpl; lia | simpl; lia | reflexivity |].
  exists pts. split; [exact Hgen | exact Hcount].
Defined.

(** C2 fails as stated: a road of truncated length 100 sampled every 50
    metres gets 2 points, not [floor(100/50) + 1 = 3]; and the road of
    111 metres sampled every 50 metres gets 3 points, at 0, 50 and 100,
    not 2. *)
Lemma sample_count_counterexample :
  (∃ pts,
     generate_sample_points (PJ := flat_projector) sampler_100 = Return pts
     ∧ length pts = 2%nat
     ∧ int_of_float (line_length (straight 100)) / 50 + 1 = 3)
  ∧ generate_sample_points (PJ := flat_projector) sampler_111
    = Return [(0, 0); (0, 50); (0, 100)]%R.
Proof.
  split; [|exact samples_111].
  eexists. split; [exact samples_100|]. split; [reflexivity|].
  rewrite straight_length by lra. change 100%R with (IZR 100).
  by rewrite int_of_float_IZR.
Qed.

(** C5, as the code has it.  No interval is rejected as such.  With an
    interval of 0 the sampling fails, with the [ValueError] of [range], once
    the road is projected and before any point is interpolated; with a
    negative interval it does not fail: it returns an empty set of sample
    points. *)
Theorem nonpositive_interval {PJ : Projector} (self : RoadSampler) (utm : CRS)
    (road : list Point) :
  distance_interval self ≤ 0 →
  project_road self = Return (utm, road) →
  (distance_interval self = 0 → generate_sample_points self = Raise ValueError)
  ∧ (distance_interval self < 0 → generate_sample_points self = Return []).
Proof.
  intros _ Hproj. split; intros Hstep.
  - by apply (generate_zero_interval self utm road).
  - by apply (generate_negative_interval self utm road).
Qed.

Lemma nonpositive_interval_witness :
  distance_interval sampler_backwards ≤ 0
  ∧ project_road (PJ := flat_projector) sampler_backwards = Return (tt, straight 100)
  ∧ (distance_interval sampler_backwards = 0 →
     generate_sample_points (PJ := flat_projector) sampler_backwards = Raise ValueError)
  ∧ (distance_interval sampler_backwards < 0 →
     generate_sample_points (PJ := flat_projector) sampler_backwards = Return []).
Proof.
  split; [simpl; lia|]. split; [by apply flat_project_road|].
  apply (nonpositive_interval (PJ := flat_projector) sampler_backwards tt (straight 100)).
  - simpl. lia.
  - by apply flat_project_road.
Defined.

(** C5 fails as stated: sampling the 100 metre road with the interval -50
    raises nothing and returns no sample point. *)
Lemma nonpositive_interval_counterexample :
  distance_interval sampler_backwards ≤ 0
  ∧ generate_sample_points (PJ := flat_projector) sampler_backwards = Return [].
Proof.
  split; [simpl; lia|].
  apply (generate_negative_interval (PJ := flat_projector) _ tt (straight 100)).
  - simpl. lia.
  - by apply flat_project_road.
Qed.

End SamplerClaims.

(* ===================================================================== *)
(** * The matcher (collision_analyzer.py) *)
(* ===================================================================== *)

Section MatcherClaims.
Import Scenario Cases.




Lemma origin_within_reach (collisions : Frame Collision)
    (matched : option (Frame MatchedCollision)) (c : Collision) :
  geometry c = (0, 0)%R →
  within_reach (PJ := flat_projector)
    (analyzer_of collisions [(0, 0); (0, 50)]%R matched) tt c.
Proof.
  intros Hgeo. apply Exists_cons_hd. simpl. rewrite Hgeo, distance_self. lra.
Qed.



(** C4, as the code has it.  For every matched collision the attached
    [distance_to_road_m] is the planar distance, in the frame estimated for
    the sample points, from the collision to the whole projected road line:
    for a road line with a vertex it is the distance to some point of the
    line, and no point of the line is nearer.
    When the road line and the sample points of the analyzer are those of
    one sampler, projected in one planar frame whose projection is undone
    by its inverse, the road line has a vertex and the value is at most the
    distance from the collision to any sample point, the nearest one
    included. *)
Theorem distance_to_road_bound {PJ : Projector} (self : CollisionAnalyzer)
    (matched : Frame MatchedCollision) (m : Z * MatchedCollision) :
  find_nearby_collisions self = Return matched →
  m ∈ matched →
  ∃ utm,
    estimate_utm_crs (sample_points self) = Return utm
    ∧ let p := to_utm utm (geometry (source m.2)) in
      let road := to_utm utm <$> road_line self in
      (road_line self ≠ [] →
       ∃ q, on_line q road ∧ distance_to_road_m m.2 = distance p q)
      ∧ (∀ q, on_line q road → (distance_to_road_m m.2 <= distance p q)%R)
      ∧ (∀ sampler : RoadSampler,
           road_line self = road_coords sampler →
           generate_sample_points sampler = Return (sample_points self) →
           estimate_utm_crs (road_coords sampler) = Return utm →
           (∀ x, to_utm utm (from_utm utm x) = x) →
           road_line self ≠ []
           ∧ ∀ sp, sp ∈ sample_points self →
                   (distance_to_road_m m.2 <= distance p (to_utm utm sp))%R).
Proof.
  intros Hfind Hm.
  destruct (estimate_utm_crs (sample_points self)) as [e|utm] eqn:Hest.
  { unfold find_nearby_collisions in Hfind. rewrite Hest in Hfind. discriminate. }
  exists utm. split; [reflexivity|]. intros p road.
  pose proof (matched_distance self utm matched m Hest Hfind Hm) as Hdist.
  fold p road in Hdist. rewrite Hdist.
  split; [|split].
  - intros Hne. apply line_distance_attained. by intros ?%fmap_nil_inv.
  - intros q. apply line_distance_le.
  - intros sampler Hroad Hgen Hest_road Hround.
    apply generate_inversion in Hgen as (utm' & ds & Hest' & Hsamples & Hvertex).
    rewrite Hest_road in Hest'. injection Hest' as <-.
    assert (sample_points self ≠ []) as Hpoints
      by (by apply (find_returns_points self matched)).
    assert (road_line self ≠ []) as Hne.
    { rewrite Hroad. apply Hvertex. intros ->. by rewrite Hsamples in Hpoints. }
    split; [exact Hne|]. intros sp Hsp.
    rewrite Hsamples in Hsp. apply list_elem_of_fmap in Hsp as (d & -> & Hd).
    rewrite Hround. unfold road. rewrite Hroad.
    apply line_distance_le, interpolate_on_line.
    intros Hempty%fmap_nil_inv. by rewrite Hroad in Hne.
Qed.

Lemma before_within_reach :
  within_reach (PJ := flat_projector)
    (analyzer_single collision_before [(0, 0); (0, 50)]%R) tt collision_before.
Proof.
  apply Exists_cons_hd. simpl. rewrite distance_origin_y by lra. lra.
Qed.

Lemma distance_to_road_bound_witness :
  generate_sample_points (PJ := flat_projector) sampler_100 = Return [(0, 0); (0, 50)]%R
  ∧ ∃ m,
      find_nearby_collisions (PJ := flat_projector)
        (analyzer_single collision_before [(0, 0); (0, 50)]%R) = Return [m]
      ∧ source m.2 = collision_before
      ∧ distance_to_road_m m.2 = 30%R
      ∧ (∃ q, on_line q (straight 100) ∧ distance (0, -30) q = 30)%R
      ∧ (∀ q, on_line q (straight 100) → 30 <= distance (0, -30) q)%R
      ∧ (∀ sp, sp ∈ [(0, 0); (0, 50)]%R → 30 <= distance (0, -30) sp)%R.
Proof.
  split; [exact samples_100|].
  destruct (single_match (PJ := flat_projector)
              (analyzer_single collision_before [(0, 0); (0, 50)]%R) tt
              (0, collision_before) 9 eq_refl eq_refl before_within_reach eq_refl)
    as (m & Hfind & _ & Hsource & Hd).
  assert (distance_to_road_m m.2 = 30%R) as Hvalue.
  { rewrite Hd. change (line_distance (0, -30)%R (straight 100) = 30%R).
    rewrite straight_distance_start, distance_origin_y by lra. lra. }
  exists m. split; [exact Hfind|]. split; [exact Hsource|]. split; [exact Hvalue|].
  destruct (distance_to_road_bound (PJ := flat_projector)
              (analyzer_single collision_before [(0, 0); (0, 50)]%R) [m] m
              Hfind ltac:(by left)) as ([] & _ & Hpoint & Hleast & Hsamples).
  rewrite Hvalue, Hsource in Hpoint, Hleast, Hsamples.
  split; [|split; [exact Hleast|]].
  - destruct Hpoint as (q & Hq & Hdq); [done|]. by exists q.
  - destruct (Hsamples sampler_100 eq_refl samples_100 eq_refl ltac:(done))
      as [_ Hsp].
    exact Hsp.
Defined.

(** C4 fails as stated when the sample points handed to the analyzer do
    not lie on its road line: the collision that sits on the one sample
    point, 30 metres beside the road, is matched at distance 0 from its
    nearest sample point and 30 from the road. *)
Lemma distance_to_road_counterexample :
  ∃ m,
    find_nearby_collisions (PJ := flat_projector)
      (analyzer_single collision_aside [(30, 0)]%R) = Return [m]
    ∧ source m.2 = collision_aside
    ∧ distance (geometry (source m.2)) (30, 0)%R = 0%R
    ∧ distance_to_road_m m.2 = 30%R.
Proof.
  destruct (single_match (PJ := flat_projector)
              (analyzer_single collision_aside [(30, 0)]%R) tt
              (0, collision_aside) 9 eq_refl eq_refl) as (m & Hfind & _ & Hsource & Hd).
  - apply Exists_cons_hd. simpl. rewrite distance_self. lra.
  - reflexivity.
  - exists m. split; [exact Hfind|]. split; [exact Hsource|]. split.
    + rewrite Hsource. apply distance_self.
    + rewrite Hd. change (line_distance (30, 0)%R (straight 100) = 30%R).
      rewrite straight_distance_start by lra. apply distance_origin_x. lra.
Qed.

(** C6, as the code has it.  When the time cell of one collision within
    reach of a sample point does not convert to an integer hour, the
    matcher raises for the whole match, whatever the index labels: no frame
    is returned and no record is skipped.  The exception is that of an
    unconvertible cell of the frame, [ValueError] for a missing cell or a
    text that is no integer literal and [OverflowError] for an integer
    beyond 64 bits; the decoding step raises the exception of its first
    such row. *)
Theorem malformed_time_aborts {PJ : Projector} (self : CollisionAnalyzer) (utm : CRS)
    (row : Z * Collision) :
  estimate_utm_crs (sample_points self) = Return utm →
  row ∈ collisions_gdf self →
  within_reach self utm row.2 →
  (∀ h, parse_hour (time row.2) ≠ Return h) →
  (∃ e row', find_nearby_collisions self = Raise e
             ∧ (e = ValueError ∨ e = OverflowError)
             ∧ row' ∈ collisions_gdf self
             ∧ parse_hour (time row'.2) = Raise e)
  ∧ (∀ matched, find_nearby_collisions self ≠ Return matched)
  ∧ ∃ e, parse_hour (time row.2) = Raise e
         ∧ (e = ValueError ∨ e = OverflowError)
         ∧ ∀ rows d, _add_mapped_columns ((row.1, (row.2, d)) :: rows) = Raise e.
Proof.
  intros Hest Hrow Hreach Hbad.
  destruct (parse_hour (time row.2)) as [e|h] eqn:Hparse; [|by destruct (Hbad h)].
  destruct (find_abort self utm row e Hest Hrow Hreach Hparse)
    as (e' & row' & Hraise & Hin & Hbad').
  split; [|split].
  - exists e', row'. split; [exact Hraise|].
    split; [by apply (parse_hour_error (time row'.2)) | by split].
  - intros matched Hfind. rewrite Hraise in Hfind. discriminate.
  - exists e. split; [done|]. split; [by apply (parse_hour_error (time row.2))|].
    intros rows d. unfold _add_mapped_columns. cbn [mapM]. cbn [fst snd].
    by rewrite Hparse.
Qed.

Lemma malformed_time_aborts_witness :
  (∀ h, parse_hour (time collision_bad_time) ≠ Return h)
  ∧ find_nearby_collisions (PJ := flat_projector)
      (analyzer_of [(0, collision_ok); (1, collision_bad_time)]
                   [(0, 0); (0, 50)]%R None) = Raise ValueError.
Proof.
  assert (∀ h, parse_hour (time collision_bad_time) ≠ Return h) as Hbad by (by intros h).
  split; [exact Hbad|].
  destruct (malformed_time_aborts (PJ := flat_projector)
              (analyzer_of [(0, collision_ok); (1, collision_bad_time)]
                           [(0, 0); (0, 50)]%R None) tt (1, collision_bad_time))
    as ((e & row' & Hraise & _ & Hin & Hparse) & _).
  - reflexivity.
  - apply list_elem_of_further, list_elem_of_here.
  - by apply origin_within_reach.
  - exact Hbad.
  - rewrite Hraise. f_equal.
    repeat (apply elem_of_cons in Hin as [->|Hin];
            [vm_compute in Hparse; congruence|]).
    by apply elem_of_nil in Hin.
Defined.

(** C6 fails as stated: with one well-formed and one malformed time cell
    among two collisions within reach, the decoding step and the whole match
    raise [ValueError], and the well-formed record is not returned; an hour
    beyond 64 bits raises [OverflowError] in the same way. *)
Lemma malformed_time_counterexample :
  parse_hour (time collision_ok) = Return 17
  ∧ _add_mapped_columns [(0, (collision_ok, 0%R)); (1, (collision_bad_time, 0%R))]
    = Raise ValueError
  ∧ _add_mapped_columns [(0, (collision_ok, 0%R)); (1, (collision_huge_hour, 0%R))]
    = Raise OverflowError
  ∧ find_nearby_collisions (PJ := flat_projector)
      (analyzer_of [(0, collision_ok); (1, collision_bad_time)]
                   [(0, 0); (0, 50)]%R None) = Raise ValueError.
Proof.
  split; [reflexivity|]. split; [reflexivity|]. split; [reflexivity|].
  destruct (find_abort (PJ := flat_projector)
              (analyzer_of [(0, collision_ok); (1, collision_bad_time)]
                           [(0, 0); (0, 50)]%R None)
              tt (1, collision_bad_time) ValueError eq_refl)
    as (e & row' & Hraise & Hin & Hparse).
  - apply list_elem_of_further, list_elem_of_here.
  - by apply origin_within_reach.
  - reflexivity.
  - rewrite Hraise. f_equal.
    repeat (apply elem_of_cons in Hin as [->|Hin];
            [vm_compute in Hparse; congruence|]).
    by apply elem_of_nil in Hin.
Qed.

End MatcherClaims.

(* ===================================================================== *)
(** * Decoding and statistics (collision_analyzer.py) *)
(* ===================================================================== *)

Section DecodingClaims.
Import Scenario.

Ltac table_lookup :=
  cbn [list_to_map foldr fst snd];
  repeat (rewrite lookup_insert;
          destruct (decide (_ = _)) as [<-|?];
          [split; [lia | intros _; by eexists]|]);
  rewrite lookup_empty; split; [by intros [? [=]] | lia].

Lemma severity_listed (code : Z) : is_Some (SEVERITY_MAP !! code) ↔ 1 ≤ code ≤ 3.
Proof. unfold SEVERITY_MAP. table_lookup. Qed.

Lemma day_listed (code : Z) : is_Some (DAY_MAP !! code) ↔ 1 ≤ code ≤ 7.
Proof. unfold DAY_MAP. table_lookup. Qed.

Lemma weather_listed (code : Z) :
  is_Some (WEATHER_MAP !! code) ↔ 1 ≤ code ≤ 9 ∨ code = -1.
Proof. unfold WEATHER_MAP. table_lookup. Qed.

Lemma light_listed (code : Z) :
  is_Some (LIGHT_MAP !! code) ↔ code = 1 ∨ 4 ≤ code ≤ 7 ∨ code = -1.
Proof. unfold LIGHT_MAP. table_lookup. Qed.

(** C7, as the code has it.  Decoding never fails on account of a code: it
    returns a frame as soon as the time cells parse.  In every frame it
    returns, each label column holds the table entry of the row's code,
    which is a label exactly for the listed codes (severity 1 to 3, day 1
    to 7, weather 1 to 9 and -1, light 1, 4 to 7 and -1) and the missing
    value for every other code.  Only the weather and light tables list -1,
    as "Data missing", and only the weather table has "Unknown", for 9. *)
Theorem decode_labels (rows : Frame (Collision * R)) :
  ((∀ row, row ∈ rows → ∃ h, parse_hour (time row.2.1) = Return h) →
   ∃ matched, _add_mapped_columns rows = Return matched)
  ∧ (∀ matched, _add_mapped_columns rows = Return matched →
                Forall2 completes rows matched)
  ∧ (∀ code,
       (SEVERITY_MAP !! code = None ↔ ¬ 1 ≤ code ≤ 3)
       ∧ (DAY_MAP !! code = None ↔ ¬ 1 ≤ code ≤ 7)
       ∧ (WEATHER_MAP !! code = None ↔ ¬ (1 ≤ code ≤ 9 ∨ code = -1))
       ∧ (LIGHT_MAP !! code = None ↔ ¬ (code = 1 ∨ 4 ≤ code ≤ 7 ∨ code = -1)))
  ∧ WEATHER_MAP !! (-1) = Some "Data missing"%string
  ∧ WEATHER_MAP !! 9 = Some "Unknown"%string
  ∧ LIGHT_MAP !! (-1) = Some "Data missing"%string.
Proof.
  split; [apply add_mapped_columns_total|].
  split; [apply add_mapped_columns_rows|].
  split; [|done]. intros code.
  rewrite <- severity_listed, <- day_listed, <- weather_listed, <- light_listed.
  rewrite !eq_None_not_Some. done.
Qed.

(** C7 fails as stated: a record whose four codes are not listed is decoded
    without error into four missing labels, not into "Data missing" or
    "Unknown". *)
Lemma decode_labels_counterexample :
  _add_mapped_columns [(0, (collision_unlisted, 0%R))]
  = Return [(0, {| source := collision_unlisted;
                   distance_to_road_m := 0%R;
                   severity_name := None;
                   day_name := None;
                   weather_name := None;
                   light_name := None;
                   hour := 8 |})].
Proof. reflexivity. Qed.

End DecodingClaims.

Section StatisticsClaims.
Import Scenario.

(** The percentages of one dimension of the report. *)
Lemma dimension_percentages (rows : Frame MatchedCollision)
    (name : MatchedCollision → option string) :
  rows ≠ [] →
  let col := (λ row, name row.2) <$> rows in
  let total := Z.of_nat (length rows) in
  (percentage_sum (breakdown (value_counts col) total)
   == (inject_Z (labelled col) / inject_Z total) * 100)%Q
  ∧ ((percentage_sum (breakdown (value_counts col) total) == 100)%Q
     ↔ ∀ row, row ∈ rows → is_Some (name row.2)).
Proof.
  intros Hne col total.
  assert (col ≠ []) as Hcol by (by intros ?%fmap_nil_inv).
  destruct (column_percentages col Hcol) as [Hsum Hfull].
  unfold col in Hsum, Hfull. rewrite length_fmap in Hsum, Hfull.
  split; [exact Hsum|]. unfold col, total. rewrite Hfull, Forall_fmap, Forall_forall.
  done.
Qed.

(** C9, as the code has it.  For every non-empty matched set, in exact
    rational arithmetic, the percentages of each categorical dimension
    (severity, day of week, weather, light) sum to 100 times the share of
    the matched records whose label in that dimension is present; the sum
    is 100 exactly when no record of the matched set has a missing label in
    that dimension, that is when every code is listed in the dimension's
    table. *)
Theorem percentages_sum {PJ : Projector} (self : CollisionAnalyzer)
    (rows : Frame MatchedCollision) (stats : Statistics) :
  ensure_nearby self = Return rows →
  rows ≠ [] →
  calculate_statistics self = Return stats →
  let share (name : MatchedCollision → option string) :=
    ((inject_Z (labelled ((λ row, name row.2) <$> rows))
      / inject_Z (Z.of_nat (length rows))) * 100)%Q in
  let complete (name : MatchedCollision → option string) :=
    ∀ row, row ∈ rows → is_Some (name row.2) in
  ((percentage_sum (severity stats) == share severity_name)%Q
   ∧ ((percentage_sum (severity stats) == 100)%Q ↔ complete severity_name))
  ∧ ((percentage_sum (day_of_week_stats stats) == share day_name)%Q
     ∧ ((percentage_sum (day_of_week_stats stats) == 100)%Q ↔ complete day_name))
  ∧ ((percentage_sum (weather stats) == share weather_name)%Q
     ∧ ((percentage_sum (weather stats) == 100)%Q ↔ complete weather_name))
  ∧ ((percentage_sum (light stats) == share light_name)%Q
     ∧ ((percentage_sum (light stats) == 100)%Q ↔ complete light_name))
  ∧ (nearby_collisions self = None → ∀ row, row ∈ rows → decoded row.2).
Proof.
  intros Hrows Hne Hstats share complete.
  assert (nearby_collisions self = None → ∀ row, row ∈ rows → decoded row.2) as Hdecoded.
  { intros Hfresh. unfold ensure_nearby in Hrows. rewrite Hfresh in Hrows.
    by apply (find_decoded self). }
  assert (sample_points self ≠ []) as Hpoints.
  { intros Hnone. rewrite (calculate_no_points self rows Hnone Hrows) in Hstats.
    discriminate. }
  destruct (calculate_returns self rows Hpoints Hrows)
    as (stats' & Hstats' & _ & _ & _ & _ & Hsev & Hday & Hweather & Hlight).
  rewrite Hstats in Hstats'. injection Hstats' as <-.
  rewrite Hsev, Hday, Hweather, Hlight.
  split; [|split; [|split; [|split]]];
    [apply (dimension_percentages rows _ Hne)..|exact Hdecoded].
Qed.

Lemma decoded_pair :
  _add_mapped_columns [(0, (collision_ok, 0%R)); (1, (collision_unlisted, 0%R))]
  = Return [(0, {| source := collision_ok;
                   distance_to_road_m := 0%R;
                   severity_name := Some "Slight"%string;
                   day_name := Some "Monday"%string;
                   weather_name := Some "Fine no high winds"%string;
                   light_name := Some "Daylight"%string;
                   hour := 17 |});
            (1, {| source := collision_unlisted;
                   distance_to_road_m := 0%R;
                   severity_name := None;
                   day_name := None;
                   weather_name := None;
                   light_name := None;
                   hour := 8 |})].
Proof. reflexivity. Qed.

Lemma percentages_sum_witness :
  ∃ rows stats,
    _add_mapped_columns [(0, (collision_ok, 0%R))] = Return rows
    ∧ rows ≠ []
    ∧ calculate_statistics (PJ := flat_projector)
        (analyzer_of [] [(0, 0)]%R (Some rows)) = Return stats
    ∧ (percentage_sum (severity stats) == 100)%Q
    ∧ (percentage_sum (light stats) == 100)%Q.
Proof.
  eexists. eexists. split; [reflexivity|]. split; [done|]. split; [reflexivity|].
  match goal with
  | |- (percentage_sum (severity ?s) == _)%Q ∧ _ =>
      destruct (percentages_sum (PJ := flat_projector)
                  (analyzer_of [] [(0, 0)]%R
                     (Some [(0, {| source := collision_ok;
                                   distance_to_road_m := 0%R;
                                   severity_name := Some "Slight"%string;
                                   day_name := Some "Monday"%string;
                                   weather_name := Some "Fine no high winds"%string;
                                   light_name := Some "Daylight"%string;
                                   hour := 17 |})]))
                  _ s eq_refl ltac:(done) eq_refl)
        as ((_ & Hsev) & _ & _ & (_ & Hlight) & _)
  end.
  split.
  - apply Hsev. intros row ->%list_elem_of_singleton. by eexists.
  - apply Hlight. intros row ->%list_elem_of_singleton. by eexists.
Defined.

(** C9 fails as stated: with two matched records, one of them carrying
    codes that the tables do not list, the percentages of every dimension
    sum to 50, not to 100. *)
Lemma percentages_sum_counterexample :
  ∃ rows stats,
    _add_mapped_columns [(0, (collision_ok, 0%R)); (1, (collision_unlisted, 0%R))]
      = Return rows
    ∧ calculate_statistics (PJ := flat_projector)
        (analyzer_of [] [(0, 0)]%R (Some rows)) = Return stats
    ∧ (percentage_sum (severity stats) == 50)%Q
    ∧ (percentage_sum (day_of_week_stats stats) == 50)%Q
    ∧ (percentage_sum (weather stats) == 50)%Q
    ∧ (percentage_sum (light stats) == 50)%Q
    ∧ ¬ (percentage_sum (light stats) == 100)%Q.
Proof.
  eexists. eexists. split; [exact decoded_pair|]. split; [reflexivity|].
  cbn [severity day_of_week_stats weather light].
  repeat split; by vm_compute.
Qed.




(** C10, as the code has it.  [calculate_statistics] divides by the number
    of sample points without a guard, and the sampler does produce the
    empty set of sample points, for every road whose truncated length is
    0.  For every analyzer whose set of sample points is empty no report is
    returned: when the matched frame is already on the analyzer the
    division raises [ZeroDivisionError]; when it is not, the matcher is run
    first and raises [ValueError], no planar frame being estimated for an
    empty set of points, so that the division is not reached. *)
Theorem no_sample_point_division {PJ : Projector} (sampler : RoadSampler)
    (utm : CRS) (road : list Point) (self : CollisionAnalyzer) :
  0 < distance_interval sampler →
  project_road sampler = Return (utm, road) →
  int_of_float (line_length road) = 0 →
  sample_points self = [] →
  generate_sample_points sampler = Return []
  ∧ (∀ rows, nearby_collisions self = Some rows →
             calculate_statistics self = Raise ZeroDivisionError)
  ∧ (nearby_collisions self = None →
     find_nearby_collisions self = Raise ValueError
     ∧ calculate_statistics self = Raise ValueError)
  ∧ ∀ stats, calculate_statistics self ≠ Return stats.
Proof.
  intros Hpos Hproj Hshort Hnone.
  destruct (calculate_raises_no_points self Hnone) as [Hfresh Hcached].
  split; [by apply (generate_short_road sampler utm road)|].
  split; [exact Hcached|].
  split; [intros Hn; split; [by apply find_no_points | by apply Hfresh]|].
  intros stats Hstats.
  destruct (nearby_collisions self) as [rows|] eqn:Hrows.
  - rewrite (Hcached rows eq_refl) in Hstats. discriminate.
  - rewrite (Hfresh eq_refl) in Hstats. discriminate.
Qed.

Lemma no_sample_point_division_witness :
  0 < distance_interval sampler_short
  ∧ project_road (PJ := flat_projector) sampler_short = Return (tt, straight (1 / 2))
  ∧ int_of_float (line_length (straight (1 / 2))) = 0
  ∧ generate_sample_points (PJ := flat_projector) sampler_short = Return []
  ∧ calculate_statistics (PJ := flat_projector)
      (analyzer_of [(0, collision_ok)] [] (Some [])) = Raise ZeroDivisionError
  ∧ calculate_statistics (PJ := flat_projector)
      (analyzer_of [(0, collision_ok)] [] None) = Raise ValueError.
Proof.
  assert (project_road (PJ := flat_projector) sampler_short
          = Return (tt, straight (1 / 2))) as Hproj by (by apply flat_project_road).
  split; [simpl; lia|]. split; [exact Hproj|]. split; [exact short_length|].
  destruct (no_sample_point_division (PJ := flat_projector) sampler_short tt
              (straight (1 / 2)) (analyzer_of [(0, collision_ok)] [] (Some [])))
    as (Hgen & Hcached & _).
  - simpl. lia.
  - exact Hproj.
  - exact short_length.
  - reflexivity.
  - split; [exact Hgen|]. split; [by apply (Hcached [])|].
    destruct (no_sample_point_division (PJ := flat_projector) sampler_short tt
                (straight (1 / 2)) (analyzer_of [(0, collision_ok)] [] None))
      as (_ & _ & Hfresh & _).
    + simpl. lia.
    + exact Hproj.
    + exact short_length.
    + reflexivity.
    + by apply Hfresh.
Defined.

(** C10 fails as stated: on an analyzer that was given the empty set of
    sample points (with the collisions and the road of the short road) and
    has not matched yet, [calculate_statistics] does not reach the
    division; it raises the [ValueError] of the matcher. *)
Lemma no_sample_point_division_counterexample :
  generate_sample_points (PJ := flat_projector) sampler_short = Return []
  ∧ find_nearby_collisions (PJ := flat_projector)
      (analyzer_of [(0, collision_ok)] [] None) = Raise ValueError
  ∧ calculate_statistics (PJ := flat_projector)
      (analyzer_of [(0, collision_ok)] [] None) = Raise ValueError
  ∧ calculate_statistics (PJ := flat_projector)
      (analyzer_of [(0, collision_ok)] [] None) ≠ Raise ZeroDivisionError.
Proof.
  split.
  - apply (generate_short_road (PJ := flat_projector) _ tt (straight (1 / 2))).
    + simpl. lia.
    + by apply flat_project_road.
    + exact short_length.
  - split; [reflexivity|]. split; [reflexivity | discriminate].
Qed.

End StatisticsClaims.

(* ===================================================================== *)
(** * Further properties of the sampler *)
(* ===================================================================== *)

Section WalkFacts.
Local Open Scope R_scope.

Lemma distance_triangle (p q r : Point) : distance p r <= distance p q + distance q r.
Proof.
  destruct p as [px py], q as [qx qy], r as [rx ry].
  exact (triangle px py rx ry qx qy).
Qed.

Lemma distance_sym (p q : Point) : distance p q = distance q p.
Proof. unfold distance, sqdist. f_equal. ring. Qed.

(** Two points of one segment are as far apart as their parameters say. *)
Lemma distance_lerp (a b : Point) (t1 t2 : R) :
  t1 <= t2 → distance (lerp a b t1) (lerp a b t2) = (t2 - t1) * distance a b.
Proof.
  intros Hle. unfold distance.
  replace (sqdist (lerp a b t1) (lerp a b t2))
    with ((t2 - t1) * (t2 - t1) * sqdist a b)
    by (destruct a, b; unfold sqdist, lerp; simpl; ring).
  rewrite sqrt_mult; [|nra|apply sqdist_nonneg].
  rewrite sqrt_square by lra. reflexivity.
Qed.

(** The walk never gets further from its start than the distance walked. *)
Lemma walk_from_start (a : Point) (rest : list Point) (d : R) :
  distance a (walk a rest d) <= Rmax 0 d.
Proof.
  revert a d. induction rest as [|b rest IH]; intros a d; simpl.
  - rewrite distance_self. apply Rmax_l.
  - destruct (Rle_dec d 0) as [Hd|Hd]; [rewrite distance_self; apply Rmax_l|].
    rewrite Rmax_right by lra.
    destruct (Rle_dec d (distance a b)) as [Hle|Hgt].
    + replace (distance a (lerp a b (d / distance a b)))
        with (distance (lerp a b 0) (lerp a b (d / distance a b)))
        by (by rewrite lerp_start).
      rewrite distance_lerp.
      * field_simplify; lra.
      * apply Rlt_le, Rdiv_lt_0_compat; lra.
    + pose proof (distance_triangle a b (walk b rest (d - distance a b))) as Htri.
      pose proof (IH b (d - distance a b)) as Hrest.
      rewrite Rmax_right in Hrest by lra. lra.
Qed.

(** Two walks along one line end no further apart than the difference of
    the distances walked. *)
Lemma walk_spacing (a : Point) (rest : list Point) (d1 d2 : R) :
  d1 <= d2 → distance (walk a rest d1) (walk a rest d2) <= d2 - d1.
Proof.
  revert a d1 d2. induction rest as [|b rest IH]; intros a d1 d2 Hle.
  - simpl. rewrite distance_self. lra.
  - destruct (Rle_dec d1 0) as [Hd1|Hd1].
    + assert (walk a (b :: rest) d1 = a) as -> by (simpl; by destruct (Rle_dec d1 0)).
      pose proof (walk_from_start a (b :: rest) d2) as Hstart.
      destruct (Rle_dec d2 0).
      * rewrite Rmax_left in Hstart; lra.
      * rewrite Rmax_right in Hstart; lra.
    + simpl. destruct (Rle_dec d1 0) as [|_]; [done|].
      destruct (Rle_dec d2 0) as [|_]; [lra|].
      pose proof (distance_nonneg a b) as Hnn.
      destruct (Rle_dec d1 (distance a b)) as [H1|H1],
               (Rle_dec d2 (distance a b)) as [H2|H2]; try lra.
      * rewrite distance_lerp.
        -- field_simplify; lra.
        -- apply Rmult_le_compat_r; [|lra]. apply Rlt_le, Rinv_0_lt_compat. lra.
      * pose proof (distance_triangle (lerp a b (d1 / distance a b)) b
                      (walk b rest (d2 - distance a b))) as Htri.
        pose proof (walk_from_start b rest (d2 - distance a b)) as Hrest.
        rewrite Rmax_right in Hrest by lra.
        assert (distance (lerp a b (d1 / distance a b)) b
                = distance a b - d1) as Hend.
        { replace (distance (lerp a b (d1 / distance a b)) b)
            with (distance (lerp a b (d1 / distance a b)) (lerp a b 1))
            by (by rewrite lerp_end).
          rewrite distance_lerp.
          - field. lra.
          - apply (Rmult_le_reg_r (distance a b)); [lra|].
            unfold Rdiv. rewrite Rmult_assoc, Rinv_l by lra. lra. }
        lra.
      * specialize (IH b (d1 - distance a b) (d2 - distance a b)). lra.
Qed.

Lemma interpolate_spacing (line : list Point) (d1 d2 : R) :
  0 <= d1 <= d2 →
  distance (interpolate line d1) (interpolate line d2) <= d2 - d1.
Proof.
  intros [H1 H2]. unfold interpolate. destruct line as [|a rest].
  - rewrite distance_self. lra.
  - destruct (Rlt_dec d1 0), (Rlt_dec d2 0); try lra. by apply walk_spacing.
Qed.

Lemma interpolate_start (a : Point) (rest : list Point) :
  interpolate (a :: rest) 0 = a.
Proof.
  unfold interpolate. destruct (Rlt_dec 0 0); [lra|].
  destruct rest; simpl; [done|]. destruct (Rle_dec 0 0); [done|lra].
Qed.

End WalkFacts.

Section SamplerGeometry.
Context {PJ : Projector}.

(** A forward range, element by element. *)
Lemma range_lookup (start stop step : Z) (ds : list Z) (i : nat) (d : Z) :
  range start stop step = Return ds →
  ds !! i = Some d → d = start + Z.of_nat i * step.
Proof.
  unfold range. destruct (step =? 0); [intros [=]|]. intros [= <-].
  rewrite list_lookup_fmap. destruct (seq 0 _ !! i) as [k|] eqn:Hk; [|intros [=]].
  apply lookup_seq in Hk as [-> _]. by intros [= <-].
Qed.

(** The sample points, one by one. *)
Lemma generate_lookup (self : RoadSampler) (utm : CRS) (road : list Point)
    (samples : list Geo) (i : nat) (p : Geo) :
  project_road self = Return (utm, road) →
  generate_sample_points self = Return samples →
  samples !! i = Some p →
  p = from_utm utm (interpolate road (IZR (Z.of_nat i * distance_interval self)))
  ∧ Z.of_nat i * distance_interval self < int_of_float (line_length road)
    ∨ distance_interval self < 0.
Proof.
  intros Hproj Hgen Hp. rewrite (generate_unfold _ _ _ Hproj) in Hgen.
  apply bind_Return in Hgen as (ds & Hrange & [= <-]).
  destruct (Z.lt_trichotomy (distance_interval self) 0) as [Hneg|[Hz|Hpos]];
    [by right | rewrite Hz in Hrange; discriminate | left].
  rewrite map_map in Hp.
  change (map ?f ds) with (f <$> ds) in Hp.
  apply list_lookup_fmap_Some in Hp as (d & -> & Hd).
  pose proof (range_lookup _ _ _ _ _ _ Hrange Hd) as Hval. simpl in Hval. subst d.
  split; [done|].
  destruct (range_forward 0 (int_of_float (line_length road)) _ Hpos)
    as (ds' & Hrange' & _ & _ & Hin).
  rewrite Hrange in Hrange'. injection Hrange' as <-.
  apply list_elem_of_lookup_2, Hin in Hd as (k & _ & Hk & Hlt). lia.
Qed.

(** X1.  Sampling with a positive interval, in a planar frame whose
    projection is undone by its inverse: any two consecutive sample points
    are at most one interval apart in the plane. *)
Theorem sample_spacing (self : RoadSampler) (utm : CRS) (road : list Point)
    (samples : list Geo) (i : nat) (p q : Geo) :
  0 < distance_interval self →
  project_road self = Return (utm, road) →
  (∀ x, to_utm utm (from_utm utm x) = x) →
  generate_sample_points self = Return samples →
  samples !! i = Some p →
  samples !! S i = Some q →
  (distance (to_utm utm p) (to_utm utm q) <= IZR (distance_interval self))%R.
Proof.
  intros Hpos Hproj Hround Hgen Hp Hq.
  destruct (generate_lookup _ _ _ _ _ _ Hproj Hgen Hp) as [[-> _]|]; [|lia].
  destruct (generate_lookup _ _ _ _ _ _ Hproj Hgen Hq) as [[-> _]|]; [|lia].
  rewrite !Hround.
  etransitivity; [apply interpolate_spacing|].
  - split; [apply IZR_le; lia | apply IZR_le; lia].
  - rewrite <- minus_IZR. apply IZR_le. lia.
Qed.

(** X2.  Sampling with a positive interval a road of two or more vertices
    whose truncated length is at least 1: there is a first sample point, and
    it is the first vertex of the road, projected and unprojected. *)
Theorem first_sample_point (self : RoadSampler) (utm : CRS) (v0 : Geo)
    (rest : list Geo) :
  0 < distance_interval self →
  road_coords self = v0 :: rest →
  rest ≠ [] →
  estimate_utm_crs (v0 :: rest) = Return utm →
  1 ≤ int_of_float (line_length (map (to_utm utm) (v0 :: rest))) →
  ∃ samples,
    generate_sample_points self = Return (from_utm utm (to_utm utm v0) :: samples).
Proof.
  intros Hpos Hcoords Hrest Hest Hlen.
  assert (project_road self = Return (utm, map (to_utm utm) (v0 :: rest))) as Hproj.
  { apply project_road_spec. rewrite Hcoords. repeat split; [|done].
    destruct rest; [done | simpl; lia]. }
  rewrite (generate_unfold _ _ _ Hproj). unfold range.
  destruct (Z.eqb_spec (distance_interval self) 0) as [|_]; [lia|].
  rewrite range_length_ceiling by lia.
  set (L := int_of_float (line_length (map (to_utm utm) (v0 :: rest)))) in *.
  assert (1 ≤ (L + distance_interval self - 1) / distance_interval self) as Hone
    by (apply Z.div_le_lower_bound; lia).
  destruct (Z.to_nat ((L + distance_interval self - 1) / distance_interval self))
    as [|n] eqn:Hn; [lia|].
  eexists. unfold bind, Return. cbn [seq map]. do 3 f_equal.
  change (0 + Z.of_nat 0 * distance_interval self) with 0.
  apply interpolate_start.
Qed.

Lemma generated_on_road (self : RoadSampler) (utm : CRS) (samples : list Geo)
    (p : Geo) :
  estimate_utm_crs (road_coords self) = Return utm →
  (∀ x, to_utm utm (from_utm utm x) = x) →
  generate_sample_points self = Return samples →
  p ∈ samples →
  on_line (to_utm utm p) (map (to_utm utm) (road_coords self)).
Proof.
  intros Hest Hround Hgen Hp.
  apply generate_inversion in Hgen as (utm' & ds & Hest' & -> & Hvertex).
  rewrite Hest in Hest'. injection Hest' as <-.
  apply list_elem_of_fmap in Hp as (d & -> & Hd). rewrite Hround.
  apply interpolate_on_line. intros Hempty%fmap_nil_inv.
  apply Hvertex; [|done]. intros ->. by apply elem_of_nil in Hd.
Qed.

(** X3.  Whatever the interval, in a planar frame whose projection is
    undone by its inverse: every sample point the sampler returns lies on
    the projected road line, on one of its segments. *)
Theorem samples_on_road (self : RoadSampler) (utm : CRS) (samples : list Geo)
    (p : Geo) :
  estimate_utm_crs (road_coords self) = Return utm →
  (∀ x, to_utm utm (from_utm utm x) = x) →
  generate_sample_points self = Return samples →
  p ∈ samples →
  on_line (to_utm utm p) (map (to_utm utm) (road_coords self)).
Proof. apply generated_on_road. Qed.

(** X4.  The sampler returns a set of sample points exactly when the road
    is not given as a single vertex, a planar frame can be estimated for it
    and the interval is not 0; a single vertex raises the line string's
    exception, and an interval of 0 on a projected road raises
    [ValueError]. *)
Theorem generate_succeeds_iff (self : RoadSampler) :
  ((∃ samples, generate_sample_points self = Return samples) ↔
   length (road_coords self) ≠ 1%nat
   ∧ (∃ utm, estimate_utm_crs (road_coords self) = Return utm)
   ∧ distance_interval self ≠ 0)
  ∧ (length (road_coords self) = 1%nat →
     generate_sample_points self = Raise GEOSException).
Proof.
  split; [split|].
  - intros [samples Hgen]. unfold generate_sample_points in Hgen.
    apply bind_Return in Hgen as ([utm road] & Hproj & Hgen).
    apply bind_Return in Hgen as (ds & Hrange & _).
    apply project_road_spec in Hproj as (Hlen & Hest & _).
    split; [done|]. split; [by exists utm|].
    intros Hzero. rewrite Hzero in Hrange. discriminate.
  - intros (Hlen & [utm Hest] & Hstep).
    assert (project_road self = Return (utm, map (to_utm utm) (road_coords self)))
      as Hproj by (by apply project_road_spec).
    rewrite (generate_unfold _ _ _ Hproj). unfold range.
    destruct (Z.eqb_spec (distance_interval self) 0); [done|]. by eexists.
  - intros Hone. unfold generate_sample_points, project_road, create_road_line.
    destruct (road_coords self) as [|v [|w rest]]; try discriminate. reflexivity.
Qed.

(** X5.  The summary of a sampler with a positive interval I, once its road
    is projected: it reports the projected length and the number n of
    sample points, and the two agree, the road being shorter than n*I + 1
    metres and, when there is a sample point, at least (n-1)*I + 1 metres
    long, so that the stretch past the last sample point is shorter than
    I + 1 metres. *)
Theorem summary_consistent (self : RoadSampler) (utm : CRS) (road : list Point) :
  0 < distance_interval self →
  project_road self = Return (utm, road) →
  ∃ summary,
    SamplerSummary.get_summary self = Return summary
    ∧ SamplerSummary.road_length_m summary = line_length road
    ∧ SamplerSummary.distance_interval_m summary = distance_interval self
    ∧ SamplerSummary.num_road_coords summary = length (road_coords self)
    ∧ (let n := Z.of_nat (SamplerSummary.num_sample_points summary) in
       (line_length road < IZR (n * distance_interval self) + 1)%R
       ∧ (1 ≤ n → (IZR ((n - 1) * distance_interval self) + 1 <= line_length road)%R)).
Proof.
  intros Hpos Hproj.
  destruct (generate_forward self utm road Hpos Hproj) as (ds & Hgen & Hn & _ & _).
  pose proof (line_length_nonneg road) as Hnn.
  set (L := int_of_float (line_length road)) in *.
  assert (0 ≤ L) as HL by (by apply int_of_float_nonneg).
  destruct (proj1 (int_of_float_floor (line_length road) L Hnn) eq_refl) as [Hlo Hhi].
  rewrite range_length_ceiling in Hn by done.
  unfold SamplerSummary.get_summary, get_road_length. rewrite Hgen, Hproj.
  eexists. split; [reflexivity|]. cbn -[Z.mul Z.sub Z.of_nat]. rewrite length_map.
  split; [done|]. split; [done|]. split; [done|]. rewrite Hn.
  set (I := distance_interval self) in *.
  pose proof (Z.div_mod (L + I - 1) I ltac:(lia)) as Hdm.
  pose proof (Z.mod_pos_bound (L + I - 1) I Hpos) as Hmod.
  split.
  - assert (IZR L <= IZR ((L + I - 1) / I * I))%R as Hcover by (apply IZR_le; nia).
    lra.
  - intros Hone.
    assert (IZR (((L + I - 1) / I - 1) * I) + 1 <= IZR L)%R as Hbelow.
    { rewrite <- (plus_IZR _ 1). apply IZR_le. nia. }
    lra.
Qed.

End SamplerGeometry.

Section SamplerGeometryWitnesses.
Import Scenario.

Lemma sample_spacing_witness :
  generate_sample_points (PJ := flat_projector) sampler_111
    = Return [(0, 0); (0, 50); (0, 100)]%R
  ∧ (distance (0, 50) (0, 100) <= 50)%R.
Proof.
  split; [exact samples_111|].
  apply (sample_spacing (PJ := flat_projector) sampler_111 tt (straight 111)
           [(0, 0); (0, 50); (0, 100)]%R 1 (0, 50)%R (0, 100)%R).
  - simpl. lia.
  - by apply flat_project_road.
  - reflexivity.
  - exact samples_111.
  - reflexivity.
  - reflexivity.
Defined.

Lemma first_sample_point_witness :
  0 < distance_interval sampler_111
  ∧ 1 ≤ int_of_float (line_length (straight 111))
  ∧ ∃ samples,
      generate_sample_points (PJ := flat_projector) sampler_111
      = Return ((0, 0)%R :: samples).
Proof.
  assert (1 ≤ int_of_float (line_length (straight 111))) as Hlen.
  { rewrite straight_length by lra. change 111%R with (IZR 111).
    rewrite int_of_float_IZR. lia. }
  split; [simpl; lia|]. split; [exact Hlen|].
  apply (first_sample_point (PJ := flat_projector) sampler_111 tt (0, 0)%R [(0, 111)%R]).
  - simpl. lia.
  - reflexivity.
  - done.
  - reflexivity.
  - exact Hlen.
Defined.

Lemma samples_on_road_witness :
  generate_sample_points (PJ := flat_projector) sampler_111
    = Return [(0, 0); (0, 50); (0, 100)]%R
  ∧ on_line (0, 50)%R (straight 111).
Proof.
  split; [exact samples_111|].
  apply (samples_on_road (PJ := flat_projector) sampler_111 tt
           [(0, 0); (0, 50); (0, 100)]%R (0, 50)%R).
  - reflexivity.
  - reflexivity.
  - exact samples_111.
  - apply list_elem_of_further, list_elem_of_here.
Defined.

Lemma summary_consistent_witness :
  0 < distance_interval sampler_111
  ∧ ∃ summary,
      SamplerSummary.get_summary (PJ := flat_projector) sampler_111 = Return summary
      ∧ SamplerSummary.road_length_m summary = line_length (straight 111).
Proof.
  split; [simpl; lia|].
  destruct (summary_consistent (PJ := flat_projector) sampler_111 tt (straight 111))
    as (summary & Hsum & Hlen & _).
  - simpl. lia.
  - by apply flat_project_road.
  - exists summary. split; [exact Hsum | exact Hlen].
Defined.

End SamplerGeometryWitnesses.

(* ===================================================================== *)
(** * Further properties of the matcher *)
(* ===================================================================== *)

Section MatcherMore.
Context {PJ : Projector}.

Lemma segment_distance_nonneg (p a b : Point) : (0 <= segment_distance p a b)%R.
Proof.
  unfold segment_distance. destruct (Req_dec_T _ _); apply distance_nonneg.
Qed.

Lemma fold_Rmin_nonneg (xs : list R) (x : R) :
  (0 <= x)%R → Forall (λ y, 0 <= y)%R xs → (0 <= fold_left Rmin xs x)%R.
Proof.
  intros Hx Hxs. revert x Hx. induction Hxs as [|y ys Hy _ IH]; intros x Hx; simpl.
  - done.
  - apply IH. by apply Rmin_glb.
Qed.

Lemma line_distance_nonneg (p : Point) (line : list Point) :
  (0 <= line_distance p line)%R.
Proof.
  unfold line_distance. destruct (segments line) as [|s ss].
  - destruct line; [lra | apply distance_nonneg].
  - apply fold_Rmin_nonneg; [apply segment_distance_nonneg|].
    apply Forall_forall. intros y Hy.
    apply list_elem_of_fmap in Hy as (s' & -> & _).
    apply segment_distance_nonneg.
Qed.

(** X6.  Whatever the index labels of the collision frame: the frame the
    matcher returns holds, up to order and added columns, exactly the rows
    whose label is the label of a row within reach of a sample point.  With
    a repeated label, a row out of reach is therefore returned as soon as a
    row of the same label is within reach. *)
Theorem matched_by_label (self : CollisionAnalyzer) (utm : CRS)
    (matched : Frame MatchedCollision) :
  estimate_utm_crs (sample_points self) = Return utm →
  find_nearby_collisions self = Return matched →
  (λ m, (m.1, source m.2)) <$> matched
  ≡ₚ filter (λ row, row.1 ∈ (filter (λ r, within_reach self utm r.2)
                                    (collisions_gdf self)).*1)
            (collisions_gdf self).
Proof. apply matched_of_labels. Qed.

(** X7.  A larger radius never loses a collision: of two analyzers that
    differ in their radius only, over a frame with distinct labels, every
    collision matched by the one with the smaller radius is matched by the
    other. *)
Theorem radius_monotone (self wider : CollisionAnalyzer) (utm : CRS)
    (matched matched' : Frame MatchedCollision) (l : Z) (c : Collision) :
  collisions_gdf wider = collisions_gdf self →
  sample_points wider = sample_points self →
  (radius self <= radius wider)%R →
  NoDup (collisions_gdf self).*1 →
  estimate_utm_crs (sample_points self) = Return utm →
  find_nearby_collisions self = Return matched →
  find_nearby_collisions wider = Return matched' →
  (l, c) ∈ (λ m, (m.1, source m.2)) <$> matched →
  (l, c) ∈ (λ m, (m.1, source m.2)) <$> matched'.
Proof.
  intros Hframe Hpoints Hr Hnd Hest Hfind Hfind' Hin.
  rewrite (matched_sources self utm matched Hnd Hest Hfind) in Hin.
  rewrite (matched_sources wider utm matched'); [| by rewrite Hframe
                                                 | by rewrite Hpoints | done].
  apply list_elem_of_filter in Hin as [Hreach Hin].
  apply list_elem_of_filter. rewrite Hframe. split; [|done].
  unfold within_reach in *. rewrite Hpoints.
  eapply Exists_impl; [exact Hreach|]. simpl. intros sp Hd. lra.
Qed.

(** X8.  With a negative radius nothing is matched: the matcher returns the
    empty frame, whatever the collisions and their time cells. *)
Theorem negative_radius (self : CollisionAnalyzer) (utm : CRS) :
  (radius self < 0)%R →
  estimate_utm_crs (sample_points self) = Return utm →
  find_nearby_collisions self = Return [].
Proof.
  intros Hneg Hest. rewrite (find_unfold _ _ Hest).
  assert (elements (nearby_indices
                      ((λ row, (row.1, to_utm utm (geometry row.2)))
                         <$> collisions_gdf self)
                      (radius self)
                      (to_utm utm <$> sample_points self)) = []) as ->;
    [|reflexivity].
  apply elements_empty_iff, set_equiv. intros l.
  rewrite <- elem_of_elements, nearby_indices_labels, list_elem_of_fmap.
  split; [|by intros ?%not_elem_of_empty].
  intros (row & _ & [Hreach _]%list_elem_of_filter).
  apply Exists_exists in Hreach as (sp & _ & Hd).
  pose proof (distance_nonneg (to_utm utm (geometry row.2)) (to_utm utm sp)). lra.
Qed.

(** X9.  When the analyzer is given the road of a sampler and the sample
    points that sampler generated, in one planar frame whose projection is
    undone by its inverse, over a frame with distinct labels: every matched
    collision lies within the radius of the road line itself, its
    [distance_to_road_m] being between 0 and the radius. *)
Theorem matched_within_corridor (sampler : RoadSampler) (self : CollisionAnalyzer)
    (utm : CRS) (matched : Frame MatchedCollision) (m : Z * MatchedCollision) :
  road_line self = road_coords sampler →
  generate_sample_points sampler = Return (sample_points self) →
  estimate_utm_crs (road_coords sampler) = Return utm →
  estimate_utm_crs (sample_points self) = Return utm →
  (∀ p, to_utm utm (from_utm utm p) = p) →
  NoDup (collisions_gdf self).*1 →
  find_nearby_collisions self = Return matched →
  m ∈ matched →
  (0 <= distance_to_road_m m.2 <= radius self)%R.
Proof.
  intros Hroad Hgen Hest_road Hest Hround Hnd Hfind Hm.
  assert (distance_to_road_m m.2
          = line_distance (to_utm utm (geometry (source m.2)))
                          (to_utm utm <$> road_line self)) as ->.
  { pose proof Hfind as Hrows. rewrite (find_unfold _ _ Hest) in Hrows.
    apply add_mapped_columns_rows in Hrows.
    apply list_elem_of_lookup in Hm as [i Hi].
    destruct (Forall2_lookup_r _ _ _ _ _ Hrows Hi) as (row & Hrow & Hcompletes).
    destruct Hcompletes as (_ & Hsource & Hd & _).
    apply list_lookup_fmap_Some in Hrow as (row' & -> & Hrow').
    simpl in Hsource, Hd. by rewrite Hd, Hsource. }
  split; [apply line_distance_nonneg|].
  assert ((m.1, source m.2) ∈ (λ m, (m.1, source m.2)) <$> matched) as Hin
    by (by apply (list_elem_of_fmap_2 (λ m : Z * MatchedCollision, (m.1, source m.2)))).
  rewrite (matched_sources self utm matched Hnd Hest Hfind) in Hin.
  apply list_elem_of_filter in Hin as [Hreach _]. simpl in Hreach.
  apply Exists_exists in Hreach as (sp & Hsp & Hd).
  etransitivity; [|exact Hd].
  pose proof (generated_on_road sampler utm (sample_points self) sp
                Hest_road Hround Hgen Hsp) as Hon.
  rewrite Hroad. by apply line_distance_le.
Qed.

End MatcherMore.

(* ===================================================================== *)
(** * Further properties of the statistics *)
(* ===================================================================== *)

Section CountsMore.
Context `{Countable K}.

Lemma cells_nonneg (k : K) (col : list (option K)) : 0 ≤ cells k col.
Proof. unfold cells. lia. Qed.

Lemma cells_cons (k : K) (cell : option K) (col : list (option K)) :
  cells k (cell :: col) = (if decide (cell = Some k) then 1 else 0) + cells k col.
Proof.
  unfold cells. rewrite filter_cons. destruct (decide (cell = Some k)); simpl length; lia.
Qed.

(** A value is in the table of counts exactly when it occurs, with the
    number of its occurrences. *)
Lemma value_counts_lookup (col : list (option K)) (k : K) :
  value_counts col !! k = if decide (cells k col = 0) then None else Some (cells k col).
Proof.
  induction col as [|[k'|] col IH].
  - done.
  - change (value_counts (Some k' :: col))
      with (<[k' := 1 + default 0 (value_counts col !! k')]> (value_counts col)).
    rewrite cells_cons. pose proof (cells_nonneg k col) as Hnn.
    destruct (decide (k' = k)) as [->|Hne].
    + rewrite lookup_insert_eq, IH.
      destruct (decide (Some k = Some k)) as [_|]; [|done].
      destruct (decide (cells k col = 0)) as [Hz|Hnz];
        rewrite decide_False by lia; simpl; f_equal; lia.
    + rewrite lookup_insert_ne by exact Hne. rewrite IH.
      destruct (decide (Some k' = Some k)) as [[=]|_]; [done|].
      by rewrite !Z.add_0_l.
  - change (value_counts (None :: col)) with (value_counts col).
    rewrite cells_cons. destruct (decide (None = Some k)) as [[=]|_].
    rewrite Z.add_0_l. exact IH.
Qed.

End CountsMore.

Section StatisticsMore.
Context {PJ : Projector}.

(** The report, field by field, when it is produced. *)
Lemma calculate_report (self : CollisionAnalyzer) (rows : Frame MatchedCollision)
    (stats : Statistics) :
  ensure_nearby self = Return rows →
  calculate_statistics self = Return stats →
  sample_points self ≠ []
  ∧ severity stats
    = breakdown (value_counts ((λ row, severity_name row.2) <$> rows))
                (Z.of_nat (length rows))
  ∧ day_of_week_stats stats
    = breakdown (value_counts ((λ row, day_name row.2) <$> rows))
                (Z.of_nat (length rows))
  ∧ weather stats
    = breakdown (value_counts ((λ row, weather_name row.2) <$> rows))
                (Z.of_nat (length rows))
  ∧ light stats
    = breakdown (value_counts ((λ row, light_name row.2) <$> rows))
                (Z.of_nat (length rows))
  ∧ most_common_hour (time_stats stats)
    = (if 0 <? Z.of_nat (length rows) then mode ((λ row, hour row.2) <$> rows) else None)
  ∧ hour_counts (time_stats stats)
    = value_counts (Some <$> ((λ row, hour row.2) <$> rows))
  ∧ time_distribution (time_stats stats)
    = (λ range : string * (Z * Z),
         let c := Z.of_nat (length (filter (λ h, range.2.1 <= h ∧ h <= range.2.2)
                                           ((λ row, hour row.2) <$> rows))) in
         (range.1,
          {| count := c;
             percentage := if 0 <? Z.of_nat (length rows)
                           then ((inject_Z c / inject_Z (Z.of_nat (length rows))) * 100)%Q
                           else 0%Q |})) <$> time_ranges.
Proof.
  intros Hrows Hstats. unfold calculate_statistics in Hstats. rewrite Hrows in Hstats.
  destruct (sample_points self) as [|sp sps]; [discriminate|].
  injection Hstats as <-. by repeat split.
Qed.

Lemma breakdown_lookup (counts : gmap string Z) (total : Z) (label : string) :
  breakdown counts total !! label
  = (λ c, {| count := c; percentage := (inject_Z c / inject_Z total) * 100 |})
      <$> counts !! label.
Proof. unfold breakdown. apply lookup_fmap. Qed.

(** The entry of one label in the breakdown of a label column. *)
Lemma column_entry (col : list (option string)) (total : Z) (label : string)
    (share : Share) :
  breakdown (value_counts col) total !! label = Some share ↔
  0 < cells label col
  ∧ share = {| count := cells label col;
               percentage := (inject_Z (cells label col) / inject_Z total) * 100 |}.
Proof.
  rewrite breakdown_lookup, value_counts_lookup.
  pose proof (cells_nonneg label col) as Hnn.
  destruct (decide (cells label col = 0)) as [Hz|Hnz]; simpl.
  - split; [intros [=] | lia].
  - split; [intros [= <-]; split; [lia|done] | intros [_ ->]; done].
Qed.

(** X10.  In the report of a matched set, each categorical dimension
    (severity, day of week, weather, light) has an entry for a label exactly
    when some matched row carries that label; the entry's count is the
    number of such rows and its percentage is 100 times that count over the
    number of all matched rows.  Labels that no row carries have no entry. *)
Theorem breakdown_entries (self : CollisionAnalyzer) (rows : Frame MatchedCollision)
    (stats : Statistics) (label : string) (share : Share) :
  ensure_nearby self = Return rows →
  calculate_statistics self = Return stats →
  let entry (dimension : gmap string Share) (name : MatchedCollision → option string) :=
    dimension !! label = Some share ↔
    0 < cells label ((λ row, name row.2) <$> rows)
    ∧ share = {| count := cells label ((λ row, name row.2) <$> rows);
                 percentage := (inject_Z (cells label ((λ row, name row.2) <$> rows))
                                / inject_Z (Z.of_nat (length rows))) * 100 |} in
  entry (severity stats) severity_name
  ∧ entry (day_of_week_stats stats) day_name
  ∧ entry (weather stats) weather_name
  ∧ entry (light stats) light_name.
Proof.
  intros Hrows Hstats entry.
  destruct (calculate_report self rows stats Hrows Hstats)
    as (_ & Hsev & Hday & Hweather & Hlight & _).
  unfold entry. rewrite Hsev, Hday, Hweather, Hlight.
  split; [|split; [|split]]; apply column_entry.
Qed.

Lemma bucket_counts (hours : list Z) :
  foldr Z.add 0
    ((λ range : string * (Z * Z),
        Z.of_nat (length (filter (λ h, range.2.1 <= h ∧ h <= range.2.2) hours)))
       <$> time_ranges)
  = Z.of_nat (length (filter (λ h, 0 <= h ∧ h <= 23) hours)).
Proof.
  unfold time_ranges. cbn [fmap list_fmap foldr fst snd].
  induction hours as [|h hours IH]; [done|].
  rewrite !filter_cons.
  repeat (destruct (decide (_ ≤ h ∧ h ≤ _))); simpl length; lia.
Qed.

(** X11.  The five time-of-day ranges of the report are disjoint and cover
    the hours 0 to 23 only: their counts add up to the number of matched
    rows whose hour lies between 0 and 23, and so to the number of all
    matched rows exactly when no row has an hour outside 0 to 23 (hours are
    parsed, not checked). *)
Theorem time_ranges_cover (self : CollisionAnalyzer) (rows : Frame MatchedCollision)
    (stats : Statistics) :
  ensure_nearby self = Return rows →
  calculate_statistics self = Return stats →
  let counted :=
    foldr Z.add 0 ((λ entry, count entry.2) <$> time_distribution (time_stats stats)) in
  counted = Z.of_nat (length (filter (λ row, 0 <= hour row.2 ∧ hour row.2 <= 23) rows))
  ∧ (counted = Z.of_nat (length rows) ↔
     ∀ row, row ∈ rows → 0 <= hour row.2 ∧ hour row.2 <= 23).
Proof.
  intros Hrows Hstats counted.
  destruct (calculate_report self rows stats Hrows Hstats)
    as (_ & _ & _ & _ & _ & _ & _ & Hdist).
  assert (counted
          = Z.of_nat (length (filter (λ row, 0 <= hour row.2 ∧ hour row.2 <= 23) rows)))
    as Hcounted.
  { unfold counted. rewrite Hdist, <- list_fmap_compose.
    etransitivity; [apply (bucket_counts ((λ row, hour row.2) <$> rows))|].
    f_equal. clear. induction rows as [|row rows IH]; [done|].
    rewrite fmap_cons, !filter_cons.
    destruct (decide (0 ≤ hour row.2 ∧ hour row.2 ≤ 23)); simpl; lia. }
  split; [exact Hcounted|]. rewrite Hcounted, Nat2Z.inj_iff.
  rewrite (filter_all_length (λ row : Z * MatchedCollision,
                                0 ≤ hour row.2 ∧ hour row.2 ≤ 23) rows).
  by rewrite Forall_forall.
Qed.

Lemma occurrences_nonneg (x : Z) (xs : list Z) : 0 ≤ occurrences x xs.
Proof. unfold occurrences. lia. Qed.

Lemma occurrences_pos (x : Z) (xs : list Z) : x ∈ xs ↔ 0 < occurrences x xs.
Proof.
  unfold occurrences. split.
  - intros Hin. assert (x ∈ filter (λ y, y = x) xs) as Hf
      by (by apply list_elem_of_filter).
    destruct (filter (λ y, y = x) xs); [by apply elem_of_nil in Hf | simpl; lia].
  - intros Hpos. destruct (filter (λ y, y = x) xs) as [|y ys] eqn:Hf; [simpl in Hpos; lia|].
    assert (y ∈ filter (λ y, y = x) xs) as Hy by (rewrite Hf; by left).
    by apply list_elem_of_filter in Hy as [-> Hy].
Qed.

Lemma foldr_max_bound (f : Z → Z) (xs : list Z) :
  (∀ x, x ∈ xs → f x ≤ foldr Z.max 0 (f <$> xs))
  ∧ (xs ≠ [] → (∀ x, x ∈ xs → 0 ≤ f x) →
     ∃ x, x ∈ xs ∧ f x = foldr Z.max 0 (f <$> xs)).
Proof.
  induction xs as [|y ys [IHle IHex]]; [split; [by intros ? ?%elem_of_nil | done]|].
  rewrite fmap_cons. cbn [foldr]. split.
  - intros x [->|Hx]%elem_of_cons; [lia|]. specialize (IHle x Hx). lia.
  - intros _ Hnn. destruct (decide (ys = [])) as [->|Hne].
    + exists y. split; [by left|]. simpl. specialize (Hnn y ltac:(by left)). lia.
    + destruct IHex as (x & Hx & Hfx); [done | intros; apply Hnn; by right|].
      destruct (Z.max_spec (f y) (foldr Z.max 0 (f <$> ys))) as [[_ ->]|[_ ->]].
      * exists x. split; [by right|done].
      * exists y. split; [by left|done].
Qed.

Lemma foldr_min_least (c : Z) (cs : list Z) :
  foldr Z.min c cs ∈ c :: cs ∧ ∀ x, x ∈ c :: cs → foldr Z.min c cs ≤ x.
Proof.
  induction cs as [|y ys [IHin IHle]]; simpl.
  - split; [by left|]. by intros x ->%list_elem_of_singleton.
  - split.
    + destruct (Z.min_spec y (foldr Z.min c ys)) as [[_ ->]|[_ ->]].
      * right; by left.
      * apply elem_of_cons in IHin as [->|Hin]; [by left | right; by right].
    + intros x Hx.
      assert (x = y ∨ x ∈ c :: ys) as [->|Hx'].
      { apply elem_of_cons in Hx as [->|Hx]; [right; by left|].
        apply elem_of_cons in Hx as [->|Hx]; [by left | right; by right]. }
      * lia.
      * specialize (IHle x Hx'). lia.
Qed.

(** The mode of a non-empty list: a most frequent value, the least one. *)
Lemma mode_spec (xs : list Z) :
  xs ≠ [] →
  ∃ h, mode xs = Some h
       ∧ h ∈ xs
       ∧ ∀ h', occurrences h' xs ≤ occurrences h xs
               ∧ (occurrences h' xs = occurrences h xs → h ≤ h').
Proof.
  intros Hne. unfold mode.
  destruct (foldr_max_bound (λ x, occurrences x xs) xs) as [Hle Hex].
  destruct Hex as (x0 & Hx0 & Htop); [done | intros; apply occurrences_nonneg|].
  change (map ?f xs) with (f <$> xs).
  set (top := foldr Z.max 0 ((λ x, occurrences x xs) <$> xs)) in *.
  destruct (filter (λ x, occurrences x xs = top) xs) as [|c cs] eqn:Hcand.
  - assert (x0 ∈ filter (λ x, occurrences x xs = top) xs) as Hin
      by (by apply list_elem_of_filter).
    rewrite Hcand in Hin. by apply elem_of_nil in Hin.
  - destruct (foldr_min_least c cs) as [Hin Hleast].
    rewrite <- Hcand in Hin, Hleast.
    apply list_elem_of_filter in Hin as [Hocc Hin].
    eexists. split; [reflexivity|]. split; [exact Hin|]. intros h'. rewrite Hocc.
    assert (0 < top) as Htop_pos by (rewrite <- Htop; by apply occurrences_pos).
    split.
    + destruct (decide (h' ∈ xs)) as [Hh'|Hh']; [by apply Hle|].
      pose proof (occurrences_nonneg h' xs). rewrite occurrences_pos in Hh'. lia.
    + intros Heq. apply Hleast, list_elem_of_filter. split; [done|].
      apply occurrences_pos. lia.
Qed.

(** X12.  For a non-empty matched set the report's most common hour is an
    hour of some matched row, no hour occurs more often, and among the hours
    that occur as often it is the least; for an empty matched set it is
    absent. *)
Theorem most_common_hour_spec (self : CollisionAnalyzer)
    (rows : Frame MatchedCollision) (stats : Statistics) :
  ensure_nearby self = Return rows →
  calculate_statistics self = Return stats →
  let hours := (λ row, hour row.2) <$> rows in
  (rows = [] → most_common_hour (time_stats stats) = None)
  ∧ (rows ≠ [] →
     ∃ h, most_common_hour (time_stats stats) = Some h
          ∧ (∃ row, row ∈ rows ∧ hour row.2 = h)
          ∧ ∀ h', occurrences h' hours ≤ occurrences h hours
                  ∧ (occurrences h' hours = occurrences h hours → h ≤ h')).
Proof.
  intros Hrows Hstats hours.
  destruct (calculate_report self rows stats Hrows Hstats)
    as (_ & _ & _ & _ & _ & Hmode & _).
  rewrite Hmode. split.
  - by intros ->.
  - intros Hne. destruct rows as [|row rows']; [done|].
    destruct (mode_spec hours) as (h & Hh & Hin & Hmax); [done|].
    exists h. split; [exact Hh|]. split; [|exact Hmax].
    apply list_elem_of_fmap in Hin as (r & -> & Hr). by exists r.
Qed.

(** X13.  The table of hour counts of the report holds an hour exactly
    when a matched row has it, with the number of those rows. *)
Theorem hour_counts_spec (self : CollisionAnalyzer) (rows : Frame MatchedCollision)
    (stats : Statistics) (h : Z) :
  ensure_nearby self = Return rows →
  calculate_statistics self = Return stats →
  hour_counts (time_stats stats) !! h
  = if decide (occurrences h ((λ row, hour row.2) <$> rows) = 0) then None
    else Some (occurrences h ((λ row, hour row.2) <$> rows)).
Proof.
  intros Hrows Hstats.
  destruct (calculate_report self rows stats Hrows Hstats)
    as (_ & _ & _ & _ & _ & _ & Hcounts & _).
  rewrite Hcounts, value_counts_lookup.
  assert (cells h (Some <$> ((λ row, hour row.2) <$> rows))
          = occurrences h ((λ row, hour row.2) <$> rows)) as ->; [|done].
  unfold cells, occurrences. f_equal. clear Hcounts.
  induction ((λ row : Z * MatchedCollision, hour row.2) <$> rows) as [|x xs IH]; [done|].
  rewrite fmap_cons, !filter_cons.
  destruct (decide (x = h)) as [->|Hne].
  - destruct (decide (Some h = Some h)) as [_|]; [|done]. simpl. by rewrite IH.
  - destruct (decide (Some x = Some h)) as [[=]|_]; [done|]. exact IH.
Qed.

Lemma int64_fits (z : Z) : - 2 ^ 63 ≤ z < 2 ^ 63 → int64 z = z.
Proof. intros Hz. unfold int64. rewrite Z.mod_small; lia. Qed.

Lemma int64_range (z : Z) : - 2 ^ 63 ≤ int64 z < 2 ^ 63.
Proof.
  unfold int64. pose proof (Z.mod_pos_bound (z + 2 ^ 63) (2 ^ 64) ltac:(lia)). lia.
Qed.

(** X14.  [calculate_statistics] returns a report exactly when the matched
    frame is obtained and there is at least one sample point; its summary
    then holds the number of matched rows, the 64-bit sum of their
    casualties (the sum itself when it fits in 64 bits, and the sum wrapped
    into the 64-bit range, that is modulo 2^64, otherwise), the quotient of
    the two (0 for an empty match) and the number of rows per sample
    point. *)
Theorem report_summary (self : CollisionAnalyzer) :
  ((∃ stats, calculate_statistics self = Return stats) ↔
   (∃ rows, ensure_nearby self = Return rows) ∧ sample_points self ≠ [])
  ∧ ∀ rows stats,
      ensure_nearby self = Return rows →
      calculate_statistics self = Return stats →
      let casualties :=
        foldr Z.add 0 ((λ row, number_of_casualties (source row.2)) <$> rows) in
      total_collisions (summary stats) = Z.of_nat (length rows)
      ∧ (- 2 ^ 63 ≤ casualties < 2 ^ 63 → total_casualties (summary stats) = casualties)
      ∧ (- 2 ^ 63 ≤ total_casualties (summary stats) < 2 ^ 63
         ∧ (total_casualties (summary stats) - casualties) `mod` 2 ^ 64 = 0)
      ∧ (rows = [] → avg_casualties_per_collision (summary stats) = 0%Q)
      ∧ (rows ≠ [] →
         (avg_casualties_per_collision (summary stats)
            * inject_Z (total_collisions (summary stats))
          == inject_Z (total_casualties (summary stats)))%Q)
      ∧ (collisions_per_sample_point (summary stats)
           * inject_Z (Z.of_nat (length (sample_points self)))
         == inject_Z (total_collisions (summary stats)))%Q.
Proof.
  split; [split|].
  - intros [stats Hstats]. unfold calculate_statistics in Hstats.
    apply bind_Return in Hstats as (rows & Hrows & Hstats).
    split; [by exists rows|]. intros Hnone. rewrite Hnone in Hstats. discriminate.
  - intros [[rows Hrows] Hpoints].
    destruct (calculate_returns self rows Hpoints Hrows) as (stats & Hstats & _).
    by exists stats.
  - intros rows stats Hrows Hstats casualties.
    destruct (calculate_report self rows stats Hrows Hstats) as (Hpoints & _).
    destruct (calculate_returns self rows Hpoints Hrows)
      as (stats' & Hstats' & Htotal & Hcas & Havg & Hper & _).
    rewrite Hstats in Hstats'. injection Hstats' as <-.
    fold casualties in Hcas.
    split; [exact Htotal|]. split; [intros Hfits; by rewrite Hcas, int64_fits|].
    split.
    { rewrite Hcas. split; [apply int64_range|]. unfold int64.
      replace ((casualties + 2 ^ 63) `mod` 2 ^ 64 - 2 ^ 63 - casualties)
        with ((casualties + 2 ^ 63) `mod` 2 ^ 64 - (casualties + 2 ^ 63)) by lia.
      rewrite Zminus_mod, Z.mod_mod, Z.sub_diag by lia. reflexivity. }
    rewrite Havg, Hper, Htotal. split; [by intros ->|]. split.
    + intros Hne. destruct rows as [|row rows']; [done|].
      assert ((0 <? Z.of_nat (length (row :: rows'))) = true) as ->
        by (apply Z.ltb_lt; simpl; lia).
      field. unfold Qeq. simpl. lia.
    + field. destruct (sample_points self); [done|]. unfold Qeq. simpl. lia.
Qed.

End StatisticsMore.

(* ===================================================================== *)
(** * Construction and OpenStreetMap mode of the sampler *)
(* ===================================================================== *)

Section MaxFacts.
Context {A K : Type} (gt : K → K → bool) (le : K → K → Prop) `{!PreOrder le}.
Hypothesis gt_false : ∀ x y, gt x y = false → le x y.
Hypothesis gt_true : ∀ x y, gt x y = true → le y x.

Lemma foldl_max_spec (key : A → K) (best : A) (rest : list A) :
  let chosen := foldl (λ best y, if gt (key y) (key best) then y else best) best rest in
  chosen ∈ best :: rest
  ∧ le (key best) (key chosen)
  ∧ ∀ x, x ∈ rest → le (key x) (key chosen).
Proof using gt_false gt_true PreOrder0.
  revert best. induction rest as [|y rest IH]; intros best; simpl.
  - split; [by left|]. split; [reflexivity|]. by intros x ?%elem_of_nil.
  - destruct (gt (key y) (key best)) eqn:Hgt.
    + destruct (IH y) as (Hin & Hle & Hall).
      split; [by right|]. split; [etransitivity; [by apply gt_true|exact Hle]|].
      intros x [->|Hx]%elem_of_cons; [exact Hle | by apply Hall].
    + destruct (IH best) as (Hin & Hle & Hall).
      split; [apply elem_of_cons in Hin as [->|Hin]; [by left | right; by right]|].
      split; [exact Hle|].
      intros x [->|Hx]%elem_of_cons; [|by apply Hall].
      etransitivity; [by apply gt_false | exact Hle].
Qed.

(** [max] raises on the empty sequence only, and returns an element that
    no element exceeds. *)
Lemma py_max_spec (key : A → K) (xs : list A) :
  (xs = [] → py_max gt key xs = Raise ValueError)
  ∧ (xs ≠ [] → ∃ chosen, py_max gt key xs = Return chosen
                          ∧ chosen ∈ xs
                          ∧ ∀ x, x ∈ xs → le (key x) (key chosen)).
Proof using gt_false gt_true PreOrder0.
  split; [by intros ->|]. intros Hne. destruct xs as [|x rest]; [done|].
  destruct (foldl_max_spec key x rest) as (Hin & Hle & Hall).
  eexists. split; [reflexivity|]. split; [exact Hin|].
  intros y [->|Hy]%elem_of_cons; [exact Hle | by apply Hall].
Qed.

End MaxFacts.

Section ConstructionFacts.

Lemma Rgtb_false (x y : R) : Rgtb x y = false → (x <= y)%R.
Proof. unfold Rgtb. destruct (Rlt_dec y x); [done | intros _; lra]. Qed.

Lemma Rgtb_true (x y : R) : Rgtb x y = true → (y <= x)%R.
Proof. unfold Rgtb. destruct (Rlt_dec y x); [intros _; lra | done]. Qed.

(** X15.  [__init__] accepts exactly two combinations of arguments: road
    coordinates without area and street name (manual mode), or an area name
    and a street name without coordinates (OSM mode, the only case where
    [from_osm] is set); every other combination, such as coordinates
    together with a street name, raises [ValueError].  The interval and the
    coordinates are stored unchecked. *)
Theorem init_modes (road_coords : option (list Geo)) (distance_interval : Z)
    (crs : string) (area_name street_name : option string) :
  let made := SamplerInit.__init__ road_coords distance_interval crs area_name street_name in
  let manual := is_Some road_coords ∧ area_name = None ∧ street_name = None in
  let osm := road_coords = None ∧ is_Some area_name ∧ is_Some street_name in
  (manual ∨ osm →
   ∃ self, made = Return self
           ∧ SamplerInit.road_coords self = road_coords
           ∧ SamplerInit.distance_interval self = distance_interval
           ∧ SamplerInit.area_name self = area_name
           ∧ SamplerInit.street_name self = street_name
           ∧ (SamplerInit.from_osm self = true ↔ osm))
  ∧ (¬ (manual ∨ osm) → made = Raise ValueError).
Proof.
  intros made manual osm. unfold made, manual, osm, SamplerInit.__init__.
  destruct road_coords as [coords|], area_name as [area|], street_name as [street|];
    cbn; (split; [intros Hmode | intros Hnot]).
  all: try reflexivity.
  all: try (destruct Hmode as [(Hc & Ha & Hs)|(Hc & Ha & Hs)];
            try discriminate;
            try (by apply is_Some_None in Hc);
            try (by apply is_Some_None in Ha);
            try (by apply is_Some_None in Hs); fail).
  all: try (exfalso; apply Hnot; (left + right); repeat split; by eexists).
  - eexists. split; [reflexivity|]. cbn. repeat split; try done.
    by intros ([=] & _).
  - eexists. split; [reflexivity|]. cbn. repeat split; try done; by eexists.
Qed.

(** X16.  [fetch_from_osm], once the features of the place are fetched:
    it raises [ValueError] when the features carrying the street name hold
    no line string (in particular when no feature carries the name); when
    their line strings merge into several disconnected chains it returns
    one of these chains, and no chain is longer than the one returned; when
    they merge into a single line, that line is returned. *)
Theorem fetch_from_osm_spec {OS : Osm.OsmSource} (area_name street_name : string)
    (roads : list (option string * Osm.Geometry)) :
  Osm.features_from_place area_name = Return roads →
  let lines :=
    Osm.linestrings_of (filter (λ feature, feature.1 = Some street_name) roads) in
  (lines = [] → Osm.fetch_from_osm area_name street_name = Raise ValueError)
  ∧ (lines ≠ [] →
     (∀ geoms, Osm.linemerge lines = Osm.MultiLineStringG geoms → geoms ≠ [] →
        ∃ longest,
          Osm.fetch_from_osm area_name street_name = Return (Osm.LineStringG longest)
          ∧ longest ∈ geoms
          ∧ ∀ chain, chain ∈ geoms → (line_length chain <= line_length longest)%R)
     ∧ (∀ line, Osm.linemerge lines = Osm.LineStringG line →
          Osm.fetch_from_osm area_name street_name = Return (Osm.LineStringG line))).
Proof.
  intros Hroads lines. subst lines.
  unfold Osm.fetch_from_osm. rewrite Hroads. simpl bind.
  generalize (filter (λ feature : option string * Osm.Geometry,
                        feature.1 = Some street_name) roads).
  intros filtered. split.
  - intros Hnone. destruct filtered as [|feature features]; [done|]. by rewrite Hnone.
  - intros Hsome. destruct filtered as [|feature features]; [done|].
    destruct (Osm.linestrings_of (feature :: features)) as [|ls lss]; [done|].
    split.
    + intros geoms Hmerged Hne. rewrite Hmerged.
      destruct (py_max_spec Rgtb Rle Rgtb_false Rgtb_true line_length geoms)
        as [_ Hmax].
      destruct (Hmax Hne) as (longest & Hchosen & Hin & Hall).
      exists longest. by rewrite Hchosen.
    + intros line Hmerged. by rewrite Hmerged.
Qed.

End ConstructionFacts.

(* ===================================================================== *)
(** * The map markers and the utilities *)
(* ===================================================================== *)

Section ColourFacts.

(** X18.  The marker of a decoded collision is black, red or orange for the
    severity codes 1, 2 and 3, and gray for every other code, whose
    severity label is missing. *)
Theorem marker_colour (m : MatchedCollision) :
  decoded m →
  Visualizer.marker_color m =
    (if decide (collision_severity (source m) = 1) then "black"
     else if decide (collision_severity (source m) = 2) then "red"
     else if decide (collision_severity (source m) = 3) then "orange"
     else "gray")%string.
Proof.
  intros (Hsev & _). unfold Visualizer.marker_color. rewrite Hsev.
  destruct (decide (collision_severity (source m) = 1)) as [->|H1]; [reflexivity|].
  destruct (decide (collision_severity (source m) = 2)) as [->|H2]; [reflexivity|].
  destruct (decide (collision_severity (source m) = 3)) as [->|H3]; [reflexivity|].
  assert (SEVERITY_MAP !! collision_severity (source m) = None) as ->; [|reflexivity].
  apply eq_None_not_Some. rewrite severity_listed. lia.
Qed.

End ColourFacts.

Section UtilsFacts.
Import Utils.

Lemma read_csv_labels (rows : list CsvRow) :
  (read_csv rows).*1 = Z.of_nat <$> seq 0 (length rows).
Proof.
  unfold read_csv. rewrite fmap_imap.
  rewrite (imap_ext _ (λ i _, Z.of_nat i)) by done.
  by rewrite imap_seq_0.
Qed.

Lemma NoDup_fst_sublist {A} (l k : Frame A) :
  sublist l k → NoDup k.*1 → NoDup l.*1.
Proof.
  intros Hsub Hnd. eapply sublist_NoDup; [exact Hnd | by apply fmap_sublist].
Qed.

Lemma read_csv_NoDup (rows : list CsvRow) : NoDup (read_csv rows).*1.
Proof. rewrite read_csv_labels. apply NoDup_fmap_2; [apply _|apply NoDup_seq]. Qed.

Lemma elem_of_read_csv (rows : list CsvRow) (l : Z) (row : CsvRow) :
  (l, row) ∈ read_csv rows ↔ ∃ i : nat, rows !! i = Some row ∧ l = Z.of_nat i.
Proof.
  unfold read_csv. rewrite elem_of_lookup_imap. split.
  - intros (i & x & [= -> ->] & Hi). by exists i.
  - intros (i & Hi & ->). by exists i, row.
Qed.

Lemma load_NoDup (rows : list CsvRow) (filter_zero_vehicles : bool) :
  NoDup (load_collision_data rows filter_zero_vehicles).*1.
Proof.
  pose proof (read_csv_NoDup rows) as Hnd.
  unfold load_collision_data. rewrite <- list_fmap_compose.
  destruct filter_zero_vehicles.
  - apply (NoDup_fst_filter (λ row : Z * CsvRow, 0 < number_of_vehicles row.2)) in Hnd.
    erewrite list_fmap_ext; [exact Hnd|]. by intros _ [??] _.
  - erewrite list_fmap_ext; [exact Hnd|]. by intros _ [??] _.
Qed.

Lemma elem_of_load (rows : list CsvRow) (filter_zero_vehicles : bool)
    (l : Z) (row : CsvRow) (geo : Geo) :
  (l, (row, geo)) ∈ load_collision_data rows filter_zero_vehicles ↔
  (∃ i : nat, rows !! i = Some row ∧ l = Z.of_nat i)
  ∧ (filter_zero_vehicles = true → 0 < number_of_vehicles row)
  ∧ geo = (longitude row, latitude row).
Proof.
  unfold load_collision_data.
  change (map ?f ?x) with (f <$> x). rewrite list_elem_of_fmap. split.
  - intros ([l' row'] & [= -> -> ->] & Hin). simpl.
    destruct filter_zero_vehicles.
    + apply list_elem_of_filter in Hin as [Hpos Hin].
      split; [by apply elem_of_read_csv|]. by split.
    + split; [by apply elem_of_read_csv|]. by split.
  - intros (Hrow & Hpos & ->). exists (l, row). split; [done|].
    apply elem_of_read_csv in Hrow. destruct filter_zero_vehicles; [|done].
    apply list_elem_of_filter. split; [by apply Hpos | done].
Qed.

(** X19.  [load_collision_data] returns, under distinct index labels, the
    rows of the file, each labelled with its position in the file and given
    the geometry (longitude, latitude); with the vehicle filter on, exactly
    the rows with more than 0 vehicles remain, and they keep the labels
    they had in the file. *)
Theorem load_collision_data_spec (rows : list CsvRow) (filter_zero_vehicles : bool) :
  let gdf := load_collision_data rows filter_zero_vehicles in
  NoDup gdf.*1
  ∧ ∀ l row geo,
      (l, (row, geo)) ∈ gdf ↔
      (∃ i : nat, rows !! i = Some row ∧ l = Z.of_nat i)
      ∧ (filter_zero_vehicles = true → 0 < number_of_vehicles row)
      ∧ geo = (longitude row, latitude row).
Proof. split; [apply load_NoDup | apply elem_of_load]. Qed.

End UtilsFacts.

Section FilterCollisions.
Import Utils.
Context {DT : Dates}.

Lemma zip_parsed {A B} (f : A → Result B) (xs : list A) (ys : list B) :
  Forall2 (λ x y, f x = Return y) xs ys →
  (zip xs ys).*1 = xs
  ∧ (∀ x y, (x, y) ∈ zip xs ys → f x = Return y)
  ∧ (∀ x, x ∈ xs → ∃ y, (x, y) ∈ zip xs ys).
Proof.
  induction 1 as [|x y xs ys Hxy _ (IH1 & IH2 & IH3)]; csimpl.
  - split; [done|]. split; [by intros ?? ?%elem_of_nil | by intros ? ?%elem_of_nil].
  - split; [by rewrite IH1|]. split.
    + intros x' y' [[= -> ->]|Hin]%elem_of_cons; [done | by apply IH2].
    + intros x' [->|Hin]%elem_of_cons.
      * exists y. by left.
      * destruct (IH3 x' Hin) as (y' & Hy'). exists y'. by right.
Qed.

Lemma filter_dates_spec (range : string * string) (frame out : Frame GeoRow) :
  filter_dates range frame = Return out →
  out `sublist_of` frame
  ∧ ∀ row, row ∈ out ↔
           row ∈ frame
           ∧ ∃ ts start_date end_date,
               to_datetime (date row.2.1) = Return ts
               ∧ as_bound range.1 = Return start_date
               ∧ as_bound range.2 = Return end_date
               ∧ date_le start_date ts = true ∧ date_le ts end_date = true.
Proof.
  unfold filter_dates.
  destruct (mapM _ frame) as [e|parsed] eqn:Hparsed; [discriminate|].
  destruct (as_bound range.1) as [e|start_date] eqn:Hstart; [discriminate|].
  destruct (as_bound range.2) as [e|end_date] eqn:Hend; [discriminate|].
  intros [= <-]. apply mapM_Return in Hparsed.
  destruct (zip_parsed _ _ _ Hparsed) as (Hfst & Hval & Hex). split.
  - rewrite <- Hfst at 2. apply fmap_sublist, sublist_filter.
  - intros row. rewrite list_elem_of_fmap. split.
    + intros ([row' ts] & -> & [Hin Hzip]%list_elem_of_filter). simpl in *. split.
      * rewrite <- Hfst. apply list_elem_of_fmap. by exists (row', ts).
      * apply andb_true_iff in Hin as [Hlo Hhi].
        exists ts, start_date, end_date. split; [by apply (Hval row')|]. done.
    + intros (Hin & ts & lo & hi & Hts & [= <-] & [= <-] & Hlo & Hhi).
      destruct (Hex row Hin) as (ts' & Hzip).
      pose proof (Hval _ _ Hzip) as Hts'. simpl in Hts'.
      rewrite Hts in Hts'. injection Hts' as <-.
      exists (row, ts). split; [done|]. apply list_elem_of_filter.
      split; [|done]. simpl. by rewrite Hlo, Hhi.
Qed.

Lemma filter_dates_returns (range : string * string) (frame : Frame GeoRow) :
  (∃ out, filter_dates range frame = Return out) ↔
  (∀ row, row ∈ frame → ∃ ts, to_datetime (date row.2.1) = Return ts)
  ∧ (∃ start_date, as_bound range.1 = Return start_date)
  ∧ (∃ end_date, as_bound range.2 = Return end_date).
Proof.
  unfold filter_dates. split.
  - intros (out & Hout).
    destruct (mapM _ frame) as [e|parsed] eqn:Hparsed; [discriminate|].
    destruct (as_bound range.1) as [e|start_date]; [discriminate|].
    destruct (as_bound range.2) as [e|end_date]; [discriminate|].
    apply mapM_Return in Hparsed.
    destruct (zip_parsed _ _ _ Hparsed) as (_ & Hval & Hex).
    split; [|split; by eexists].
    intros row Hin. destruct (Hex row Hin) as (ts & Hzip). exists ts.
    by apply (Hval row).
  - intros (Hall & (start_date & ->) & (end_date & ->)).
    assert (∃ parsed, mapM (λ row : Z * GeoRow, to_datetime (date row.2.1)) frame
                      = Return parsed) as (parsed & ->).
    { induction frame as [|row frame IH]; [by eexists|].
      destruct (Hall row) as (ts & Hts); [by left|].
      destruct IH as (parsed & Hparsed); [intros; apply Hall; by right|].
      exists (ts :: parsed). cbn [mapM]. by rewrite Hts; cbn; rewrite Hparsed. }
    by eexists.
Qed.

Lemma bounds_step (bounds : option (R * R * R * R)) (gdf : Frame GeoRow) :
  let kept :=
    match bounds with
    | Some (min_lon, min_lat, max_lon, max_lat) =>
        filter (λ row : Z * GeoRow,
                  (min_lon <= longitude row.2.1)%R ∧ (longitude row.2.1 <= max_lon)%R
                  ∧ (min_lat <= latitude row.2.1)%R ∧ (latitude row.2.1 <= max_lat)%R) gdf
    | None => gdf
    end in
  kept `sublist_of` gdf
  ∧ ∀ row, row ∈ kept ↔
           row ∈ gdf
           ∧ ∀ min_lon min_lat max_lon max_lat,
               bounds = Some (min_lon, min_lat, max_lon, max_lat) →
               (min_lon <= longitude row.2.1 <= max_lon)%R
               ∧ (min_lat <= latitude row.2.1 <= max_lat)%R.
Proof.
  destruct bounds as [[[[min_lon min_lat] max_lon] max_lat]|]; simpl.
  - split; [apply sublist_filter|]. intros row. rewrite list_elem_of_filter. split.
    + intros [(? & ? & ? & ?) Hin]. split; [done|]. by intros ???? [= <- <- <- <-].
    + intros [Hin Hbox]. destruct (Hbox _ _ _ _ eq_refl) as [[??] [??]]. by repeat split.
  - split; [done|]. intros row. split; [by intros ? | by intros [? _]].
Qed.

Lemma severity_step (severity : option (list Z)) (frame : Frame GeoRow) :
  let kept :=
    match severity with
    | Some (code :: codes) =>
        filter (λ row : Z * GeoRow, collision_severity row.2.1 ∈ code :: codes) frame
    | _ => frame
    end in
  kept `sublist_of` frame
  ∧ ∀ row, row ∈ kept ↔
           row ∈ frame
           ∧ ∀ codes, severity = Some codes → codes ≠ [] →
                      collision_severity row.2.1 ∈ codes.
Proof.
  destruct severity as [[|code codes]|]; simpl.
  - split; [done|]. intros row. split; [|by intros [? _]].
    intros Hin. split; [done|]. by intros ? [= <-].
  - split; [apply sublist_filter|]. intros row. rewrite list_elem_of_filter. split.
    + intros [Hsev Hin]. split; [done|]. by intros ? [= <-].
    + intros [Hin Hsev]. split; [by apply Hsev | done].
  - split; [done|]. intros row. split; [by intros ? | by intros [? _]].
Qed.

Lemma dates_step (date_range : option (string * string)) (frame out : Frame GeoRow) :
  match date_range with
  | Some range => filter_dates range frame
  | None => Return frame
  end = Return out →
  out `sublist_of` frame
  ∧ ∀ row, row ∈ out ↔
           row ∈ frame
           ∧ ∀ range, date_range = Some range →
                      ∃ ts start_date end_date,
                        to_datetime (date row.2.1) = Return ts
                        ∧ as_bound range.1 = Return start_date
                        ∧ as_bound range.2 = Return end_date
                        ∧ date_le start_date ts = true
                        ∧ date_le ts end_date = true.
Proof.
  destruct date_range as [range|].
  - intros [Hsub Hin]%filter_dates_spec. split; [done|]. intros row. rewrite Hin.
    split; intros [? Hts]; (split; [done|]); [by intros ? [= <-] | by apply Hts].
  - intros [= <-]. split; [done|]. intros row. split; [by intros ? | by intros [? _]].
Qed.

Lemma filter_collisions_steps (gdf out : Frame GeoRow)
    (bounds : option (R * R * R * R)) (date_range : option (string * string))
    (severity : option (list Z)) :
  filter_collisions gdf bounds date_range severity = Return out →
  out `sublist_of` gdf
  ∧ ∀ row, row ∈ out ↔
      row ∈ gdf
      ∧ (∀ min_lon min_lat max_lon max_lat,
           bounds = Some (min_lon, min_lat, max_lon, max_lat) →
           (min_lon <= longitude row.2.1 <= max_lon)%R
           ∧ (min_lat <= latitude row.2.1 <= max_lat)%R)
      ∧ (∀ range, date_range = Some range →
                  ∃ ts start_date end_date,
                    to_datetime (date row.2.1) = Return ts
                    ∧ as_bound range.1 = Return start_date
                    ∧ as_bound range.2 = Return end_date
                    ∧ date_le start_date ts = true
                    ∧ date_le ts end_date = true)
      ∧ (∀ codes, severity = Some codes → codes ≠ [] →
                  collision_severity row.2.1 ∈ codes).
Proof.
  unfold filter_collisions.
  destruct (bounds_step bounds gdf) as [Hsub1 Hin1]. cbv zeta in Hsub1, Hin1.
  set (bounded := match bounds with Some _ => _ | None => _ end) in *.
  destruct (match date_range with Some _ => _ | None => _ end) as [e|dated] eqn:Hdated;
    [discriminate|].
  apply dates_step in Hdated as [Hsub2 Hin2].
  destruct (severity_step severity dated) as [Hsub3 Hin3]. cbv zeta in Hsub3, Hin3.
  intros [= <-]. split.
  - etransitivity; [exact Hsub3|]. by etransitivity.
  - intros row. rewrite Hin3, Hin2, Hin1. tauto.
Qed.

(** X20.  When [filter_collisions] returns, it returns the rows of its
    frame, in their order and under their labels, that pass every filter
    that is switched on: inside the bounds (borders included), a date that
    parses and lies between the two dates of the range (ends included), a
    severity code in the list.  A filter whose argument is [None] is off,
    and so is the severity filter for an empty list. *)
Theorem filter_collisions_spec (gdf out : Frame GeoRow)
    (bounds : option (R * R * R * R)) (date_range : option (string * string))
    (severity : option (list Z)) :
  filter_collisions gdf bounds date_range severity = Return out →
  out `sublist_of` gdf
  ∧ ∀ row, row ∈ out ↔
      row ∈ gdf
      ∧ (∀ min_lon min_lat max_lon max_lat,
           bounds = Some (min_lon, min_lat, max_lon, max_lat) →
           (min_lon <= longitude row.2.1 <= max_lon)%R
           ∧ (min_lat <= latitude row.2.1 <= max_lat)%R)
      ∧ (∀ range, date_range = Some range →
                  ∃ ts start_date end_date,
                    to_datetime (date row.2.1) = Return ts
                    ∧ as_bound range.1 = Return start_date
                    ∧ as_bound range.2 = Return end_date
                    ∧ date_le start_date ts = true
                    ∧ date_le ts end_date = true)
      ∧ (∀ codes, severity = Some codes → codes ≠ [] →
                  collision_severity row.2.1 ∈ codes).
Proof. apply filter_collisions_steps. Qed.

(** X21.  [filter_collisions] raises only when the date filter is on: it
    returns exactly when there is no date range, or the date cell of every
    row inside the bounds parses and both ends of the range are dates.  A
    row with a malformed date aborts the filter whatever its severity code,
    while a row outside the bounds never does. *)
Theorem filter_collisions_returns (gdf : Frame GeoRow)
    (bounds : option (R * R * R * R)) (date_range : option (string * string))
    (severity : option (list Z)) :
  (∃ out, filter_collisions gdf bounds date_range severity = Return out) ↔
  (∀ range, date_range = Some range →
     (∀ row, row ∈ gdf →
        (∀ min_lon min_lat max_lon max_lat,
           bounds = Some (min_lon, min_lat, max_lon, max_lat) →
           (min_lon <= longitude row.2.1 <= max_lon)%R
           ∧ (min_lat <= latitude row.2.1 <= max_lat)%R) →
        ∃ ts, to_datetime (date row.2.1) = Return ts)
     ∧ (∃ start_date, as_bound range.1 = Return start_date)
     ∧ (∃ end_date, as_bound range.2 = Return end_date)).
Proof.
  unfold filter_collisions.
  destruct (bounds_step bounds gdf) as [_ Hin1]. cbv zeta in Hin1.
  set (bounded := match bounds with Some _ => _ | None => _ end) in *.
  destruct date_range as [range|].
  - split.
    + intros (out & Hout) ? [= <-].
      destruct (filter_dates range bounded) as [e|dated] eqn:Hdated; [discriminate|].
      destruct (proj1 (filter_dates_returns range bounded)) as (Hall & Hlo & Hhi);
        [by eexists|].
      split; [|by split]. intros row Hrow Hbox. apply Hall, Hin1. by split.
    + intros Hall. destruct (Hall range eq_refl) as (Hrows & Hlo & Hhi).
      destruct (proj2 (filter_dates_returns range bounded)) as (dated & ->).
      { split; [|by split]. intros row [Hrow Hbox]%Hin1. by apply Hrows. }
      by eexists.
  - split; [done|]. intros _. by eexists.
Qed.

End FilterCollisions.

Section Pipeline.
Import Utils.
Context {DT : Dates}.

(** X22.  Loading a file and filtering it gives the matcher what it relies
    on: the index labels of the frame are distinct, and every row is a row
    of the file, found there at the position its label names, with the
    geometry (longitude, latitude). *)
Theorem loaded_filtered_index (rows : list CsvRow) (filter_zero_vehicles : bool)
    (out : Frame GeoRow) (bounds : option (R * R * R * R))
    (date_range : option (string * string)) (severity : option (list Z)) :
  filter_collisions (load_collision_data rows filter_zero_vehicles)
                    bounds date_range severity = Return out →
  NoDup ((λ row : Z * GeoRow, (row.1, as_collision row.2)) <$> out).*1
  ∧ ∀ l row geo, (l, (row, geo)) ∈ out →
                 0 ≤ l ∧ rows !! Z.to_nat l = Some row
                 ∧ geo = (longitude row, latitude row).
Proof.
  intros [Hsub Hin]%filter_collisions_steps. split.
  - rewrite <- list_fmap_compose.
    erewrite list_fmap_ext; [|by intros ? [] ?].
    eapply NoDup_fst_sublist; [exact Hsub | apply load_NoDup].
  - intros l row geo [Hrow _]%Hin.
    apply elem_of_load in Hrow as ((i & Hi & ->) & _ & ->).
    rewrite Nat2Z.id. split; [lia|]. by split.
Qed.

End Pipeline.

Section FormatFacts.
Import Utils.
Context {DO : DictOrder}.

Lemma Zgtb_false (x y : Z) : (x >? y) = false → x ≤ y.
Proof. rewrite Z.gtb_ltb. apply Z.ltb_ge. Qed.

Lemma Zgtb_true (x y : Z) : (x >? y) = true → y ≤ x.
Proof. rewrite Z.gtb_ltb. intros ?%Z.ltb_lt. lia. Qed.

Lemma items_empty (dimension : gmap string Share) :
  items dimension = [] ↔ dimension = ∅.
Proof.
  rewrite <- map_to_list_empty_iff. split; intros Hnil.
  - apply Permutation_nil_r. by rewrite <- Hnil, items_entries.
  - apply Permutation_nil_r. by rewrite <- Hnil, items_entries.
Qed.

Lemma elem_of_items (dimension : gmap string Share) (label : string) (share : Share) :
  (label, share) ∈ items dimension ↔ dimension !! label = Some share.
Proof. by rewrite items_entries, elem_of_map_to_list. Qed.

Lemma most_common_spec (dimension : gmap string Share) :
  (dimension = ∅ → most_common dimension = inl MaxOfEmpty)
  ∧ (dimension ≠ ∅ →
     ∃ label share,
       most_common dimension = inr (label, share)
       ∧ dimension !! label = Some share
       ∧ ∀ l s, dimension !! l = Some s → count s ≤ count share).
Proof.
  unfold most_common.
  destruct (py_max_spec Z.gtb Z.le Zgtb_false Zgtb_true
              (λ item : string * Share, count item.2) (items dimension))
    as [Hnil Hcons].
  split.
  - intros Hempty. by rewrite Hnil by (by apply items_empty).
  - intros Hne. destruct Hcons as ([label share] & -> & Hin & Hmax).
    { by intros ?%items_empty. }
    exists label, share. split; [done|]. split; [by apply elem_of_items|].
    intros l s Hl. apply (Hmax (l, s)). by apply elem_of_items.
Qed.

Lemma most_common_error (dimension : gmap string Share) (e : FormatError) :
  most_common dimension = inl e → e = MaxOfEmpty.
Proof. unfold most_common. by destruct (py_max _ _ _); intros [= <-]. Qed.

Lemma type_error_iff (data : Statistics) :
  format_collision_data data = inl TypeError ↔
  Analyzer.most_common_hour (time_stats data) = None.
Proof.
  unfold format_collision_data.
  destruct (Analyzer.most_common_hour (time_stats data)); [|done].
  destruct (most_common (day_of_week_stats data)) eqn:H1;
    [apply most_common_error in H1 as ->; split; [congruence | discriminate]|].
  destruct (most_common (weather data)) eqn:H2;
    [apply most_common_error in H2 as ->; split; [congruence | discriminate]|].
  destruct (most_common (light data)) eqn:H3;
    [apply most_common_error in H3 as ->; split; [congruence | discriminate]|].
  split; discriminate.
Qed.

Lemma format_error_cases (data : Statistics) :
  (format_collision_data data = inl TypeError ↔
   Analyzer.most_common_hour (time_stats data) = None)
  ∧ (format_collision_data data = inl MaxOfEmpty ↔
     Analyzer.most_common_hour (time_stats data) ≠ None
     ∧ (day_of_week_stats data = ∅ ∨ weather data = ∅ ∨ light data = ∅)).
Proof.
  unfold format_collision_data.
  destruct (Analyzer.most_common_hour (time_stats data)) as [hour|].
  2: { split; [done|]. split; [done | by intros [? _]]. }
  destruct (most_common_spec (day_of_week_stats data)) as [Hd0 Hd1].
  destruct (most_common_spec (weather data)) as [Hw0 Hw1].
  destruct (most_common_spec (light data)) as [Hl0 Hl1].
  destruct (decide (day_of_week_stats data = ∅)) as [Hd|Hd].
  { rewrite (Hd0 Hd). split; [done|]. split; [intros _; split; [done | by left] | done]. }
  destruct (Hd1 Hd) as (? & ? & -> & _).
  destruct (decide (weather data = ∅)) as [Hw|Hw].
  { rewrite (Hw0 Hw). split; [done|].
    split; [intros _; split; [done | right; by left] | done]. }
  destruct (Hw1 Hw) as (? & ? & -> & _).
  destruct (decide (light data = ∅)) as [Hl|Hl].
  { rewrite (Hl0 Hl). split; [done|].
    split; [intros _; split; [done | right; by right] | done]. }
  destruct (Hl1 Hl) as (? & ? & -> & _).
  split; [done|]. split; [done|]. intros (_ & [?|[?|?]]); done.
Qed.

(** X23.  [format_collision_data] fails in two ways and in no other: with
    [TypeError] exactly when the report has no most common hour, and with
    the [ValueError] of [max()] exactly when it has one but its day,
    weather or light breakdown is empty. *)
Theorem format_errors (data : Statistics) :
  (format_collision_data data = inl TypeError ↔
   Analyzer.most_common_hour (time_stats data) = None)
  ∧ (format_collision_data data = inl MaxOfEmpty ↔
     Analyzer.most_common_hour (time_stats data) ≠ None
     ∧ (day_of_week_stats data = ∅ ∨ weather data = ∅ ∨ light data = ∅)).
Proof. apply format_error_cases. Qed.

(** X24.  The clock time printed for the most common hour: the 12-hour
    value lies in 1..12, and for an hour of the day (0..23) it reads back
    to that hour, AM for the hours before noon; midnight is printed as
    12 AM and noon as 12 PM. *)
Theorem format_clock (data : Statistics) (fields : SummaryFields) :
  format_collision_data data = inr fields →
  Analyzer.most_common_hour (time_stats data) = Some (most_common_hour fields)
  ∧ 1 ≤ hour_12 fields ≤ 12
  ∧ (am_pm fields = "AM"%string ∨ am_pm fields = "PM"%string)
  ∧ (am_pm fields = "AM"%string ↔ most_common_hour fields < 12)
  ∧ (0 ≤ most_common_hour fields < 24 →
     most_common_hour fields
     = hour_12 fields `mod` 12 + (if decide (am_pm fields = "AM"%string) then 0 else 12)).
Proof.
  unfold format_collision_data.
  destruct (Analyzer.most_common_hour (time_stats data)) as [hour|]; [|discriminate].
  destruct (most_common _) as [|day]; [discriminate|].
  destruct (most_common _) as [|weather_item]; [discriminate|].
  destruct (most_common _) as [|light_item]; [discriminate|].
  intros [= <-]. cbn.
  pose proof (Z.mod_pos_bound hour 12 ltac:(lia)) as Hmod.
  split; [done|]. split.
  { destruct (hour `mod` 12 =? 0) eqn:H0; [lia|]. apply Z.eqb_neq in H0. lia. }
  split; [destruct (hour <? 12); [by left | by right]|].
  split.
  { destruct (hour <? 12) eqn:Hlt; [apply Z.ltb_lt in Hlt | apply Z.ltb_ge in Hlt].
    - done.
    - split; [discriminate | lia]. }
  intros Hday.
  destruct (hour <? 12) eqn:Hlt; [apply Z.ltb_lt in Hlt | apply Z.ltb_ge in Hlt].
  - rewrite decide_True by done.
    destruct (hour `mod` 12 =? 0) eqn:H0;
      [apply Z.eqb_eq in H0 | apply Z.eqb_neq in H0].
    + rewrite Z.mod_small in H0 by lia. subst hour. reflexivity.
    + rewrite Z.mod_mod by lia. rewrite Z.mod_small by lia. lia.
  - rewrite decide_False by discriminate.
    assert (hour `mod` 12 = hour - 12) as Hm.
    { symmetry. apply (Z.mod_unique_pos hour 12 1); lia. }
    rewrite Hm.
    destruct (hour - 12 =? 0) eqn:H0;
      [apply Z.eqb_eq in H0 | apply Z.eqb_neq in H0].
    + change (12 `mod` 12) with 0. lia.
    + rewrite Z.mod_small by lia. lia.
Qed.

(** X25.  The weekday, weather and light condition that
    [format_collision_data] names as most common are entries of the
    report's breakdowns whose count no other entry of the breakdown
    exceeds, printed with their own percentage; the three severity
    percentages are those of the report's entries, and 0 for a severity
    without entry. *)
Theorem format_most_common (data : Statistics) (fields : SummaryFields) :
  format_collision_data data = inr fields →
  (∃ share, day_of_week_stats data !! day_name fields = Some share
            ∧ day_percentage fields = percentage share
            ∧ ∀ l s, day_of_week_stats data !! l = Some s → count s ≤ count share)
  ∧ (∃ share, weather data !! weather_condition fields = Some share
              ∧ weather_percentage fields = percentage share
              ∧ ∀ l s, weather data !! l = Some s → count s ≤ count share)
  ∧ (∃ share, light data !! light_condition fields = Some share
              ∧ light_percentage fields = percentage share
              ∧ ∀ l s, light data !! l = Some s → count s ≤ count share)
  ∧ (∀ label pct,
       (label, pct) ∈ [("Slight"%string, slight_pct fields);
                       ("Serious"%string, serious_pct fields);
                       ("Fatal"%string, fatal_pct fields)] →
       match severity data !! label with
       | Some share => pct = percentage share
       | None => pct = 0%Q
       end).
Proof.
  unfold format_collision_data.
  destruct (Analyzer.most_common_hour (time_stats data)) as [hour|]; [|discriminate].
  destruct (most_common_spec (day_of_week_stats data)) as [Hd0 Hd1].
  destruct (most_common_spec (weather data)) as [Hw0 Hw1].
  destruct (most_common_spec (light data)) as [Hl0 Hl1].
  destruct (decide (day_of_week_stats data = ∅)) as [Hd|Hd];
    [by rewrite (Hd0 Hd)|].
  destruct (Hd1 Hd) as (dl & ds & -> & Hdin & Hdmax).
  destruct (decide (weather data = ∅)) as [Hw|Hw]; [by rewrite (Hw0 Hw)|].
  destruct (Hw1 Hw) as (wl & ws & -> & Hwin & Hwmax).
  destruct (decide (light data = ∅)) as [Hl|Hl]; [by rewrite (Hl0 Hl)|].
  destruct (Hl1 Hl) as (ll & ls & -> & Hlin & Hlmax).
  intros [= <-]. cbn.
  split; [by exists ds|]. split; [by exists ws|]. split; [by exists ls|].
  intros label pct Hin.
  repeat (apply elem_of_cons in Hin as [[= -> ->]|Hin]);
    [..|by apply elem_of_nil in Hin];
    unfold percentage_of; by destruct (severity data !! _).
Qed.

End FormatFacts.

Section FormatReport.
Import Utils.
Context {PJ : Projector} {DO : DictOrder}.

Lemma value_counts_empty `{Countable K} (col : list (option K)) :
  value_counts col = ∅ ↔ ∀ cell, cell ∈ col → cell = None.
Proof.
  rewrite map_empty. split.
  - intros Hnone [k|] Hin; [|done]. specialize (Hnone k).
    rewrite value_counts_lookup in Hnone.
    destruct (decide (cells k col = 0)) as [H0|]; [|done].
    unfold cells in H0. apply (f_equal Z.to_nat) in H0. rewrite Nat2Z.id in H0.
    apply length_zero_iff_nil in H0.
    assert (Some k ∈ filter (λ cell, cell = Some k) col) as Hk
      by by apply list_elem_of_filter.
    rewrite H0 in Hk. by apply elem_of_nil in Hk.
  - intros Hall k. rewrite value_counts_lookup.
    rewrite decide_True; [done|].
    induction col as [|cell col IH]; [done|]. rewrite cells_cons.
    rewrite decide_False, IH; [done | intros; apply Hall; by right |].
    intros ->. by specialize (Hall _ ltac:(by left)).
Qed.

Lemma breakdown_empty {A} (name : A → option string) (rows : list A) :
  breakdown (value_counts (name <$> rows)) (Z.of_nat (length rows)) = ∅ ↔
  ∀ row, row ∈ rows → name row = None.
Proof.
  unfold breakdown. rewrite fmap_empty_iff, value_counts_empty. split.
  - intros Hall row Hin. apply Hall, list_elem_of_fmap. by exists row.
  - intros Hall cell (row & -> & Hin)%list_elem_of_fmap. by apply Hall.
Qed.

(** X26.  The report of a match without collisions cannot be formatted:
    on a report that [calculate_statistics] returns,
    [format_collision_data] raises [TypeError] exactly when the report
    counts 0 collisions. *)
Theorem format_empty_match (self : CollisionAnalyzer) (stats : Statistics) :
  calculate_statistics self = Return stats →
  (format_collision_data stats = inl TypeError ↔
   Analyzer.total_collisions (summary stats) = 0).
Proof.
  intros Hstats.
  rewrite type_error_iff.
  unfold calculate_statistics in Hstats.
  destruct (ensure_nearby self) as [e|rows]; [discriminate|]. cbn in Hstats.
  destruct (Z.of_nat (length (sample_points self)) =? 0); [discriminate|].
  injection Hstats as <-. cbn.
  destruct rows as [|row rows]; [done|].
  change (0 <? Z.of_nat (length (row :: rows))) with true. cbn match.
  destruct (mode_spec (map (λ row, hour row.2) (row :: rows))) as (h & -> & _); [done|].
  split; [done|]. cbn [length]. lia.
Qed.

(** X27.  On the report of a match that holds collisions,
    [format_collision_data] raises the [ValueError] of [max()] exactly
    when no matched collision has a day label, or none has a weather
    label, or none has a light label, its codes being outside the lookup
    table; a severity column without labels does not make it fail. *)
Theorem format_unlabelled_column (self : CollisionAnalyzer)
    (rows : Frame MatchedCollision) (stats : Statistics) :
  ensure_nearby self = Return rows →
  calculate_statistics self = Return stats →
  rows ≠ [] →
  (format_collision_data stats = inl MaxOfEmpty ↔
   (∀ row, row ∈ rows → Analyzer.day_name row.2 = None)
   ∨ (∀ row, row ∈ rows → weather_name row.2 = None)
   ∨ (∀ row, row ∈ rows → light_name row.2 = None)).
Proof.
  intros Hrows Hstats Hne.
  destruct (calculate_report self rows stats Hrows Hstats)
    as (_ & _ & Hday & Hweather & Hlight & Hhour & _).
  rewrite (proj2 (format_error_cases stats)).
  rewrite Hday, Hweather, Hlight, Hhour.
  rewrite !(breakdown_empty (λ row : Z * MatchedCollision, _ row.2)).
  assert ((0 <? Z.of_nat (length rows)) = true) as ->
    by (apply Z.ltb_lt; destruct rows; [done | cbn [length]; lia]).
  destruct (mode_spec ((λ row, hour row.2) <$> rows)) as (h & -> & _).
  { by intros ?%fmap_nil_inv. }
  split; [by intros [_ ?] | by intros ?].
Qed.

End FormatReport.

(* ===================================================================== *)
(** * The worked cases *)
(* ===================================================================== *)

Section CaseFacts.
Import Scenario Cases.

Lemma case_within_reach (r : R) :
  (0 <= r)%R → within_reach (PJ := flat_projector) (analyzer_within r) tt collision_ok.
Proof. intros Hr. apply Exists_cons_hd. simpl. by rewrite distance_self. Qed.

(** On the straight road the collision at its start is the one match, for
    every radius that is not negative. *)
Lemma case_match (r : R) :
  (0 <= r)%R →
  ∃ m, find_nearby_collisions (PJ := flat_projector) (analyzer_within r) = Return [m]
       ∧ m.1 = 0 ∧ source m.2 = collision_ok.
Proof.
  intros Hr.
  destruct (find_total (PJ := flat_projector) (analyzer_within r) tt) as [matched Hfind].
  - apply NoDup_singleton.
  - reflexivity.
  - intros row ->%list_elem_of_singleton _. by eexists.
  - pose proof (matched_sources (PJ := flat_projector) (analyzer_within r) tt matched
                  (NoDup_singleton _) eq_refl Hfind) as Hperm.
    cbn [collisions_gdf analyzer_within] in Hperm.
    rewrite filter_cons_True in Hperm by by apply case_within_reach.
    rewrite filter_nil in Hperm. apply Permutation_singleton_r in Hperm.
    destruct matched as [|m [|m' matched]]; [done| |done].
    exists m. injection Hperm as H1 H2. by rewrite Hfind.
Qed.

End CaseFacts.

Section MatcherWitnesses.
Import Scenario Cases.

Lemma matched_by_label_witness :
  ∃ matched,
    find_nearby_collisions (PJ := flat_projector)
      (analyzer_of [(0, collision_ok); (0, collision_far)] [(0, 0); (0, 50)]%R None)
    = Return matched
    ∧ (λ m, (m.1, source m.2)) <$> matched
      ≡ₚ filter (λ row, row.1 ∈ (filter (λ r, within_reach (PJ := flat_projector)
                                                (analyzer_of
                                                   [(0, collision_ok); (0, collision_far)]
                                                   [(0, 0); (0, 50)]%R None) tt r.2)
                                        [(0, collision_ok); (0, collision_far)]).*1)
                [(0, collision_ok); (0, collision_far)].
Proof.
  destruct (find_total_all (PJ := flat_projector)
              (analyzer_of [(0, collision_ok); (0, collision_far)]
                           [(0, 0); (0, 50)]%R None) tt eq_refl)
    as [matched Hfind].
  { intros row Hrow.
    repeat (apply elem_of_cons in Hrow as [->|Hrow]; [by eexists|]).
    by apply elem_of_nil in Hrow. }
  exists matched. split; [exact Hfind|].
  exact (matched_by_label (PJ := flat_projector)
           (analyzer_of [(0, collision_ok); (0, collision_far)]
                        [(0, 0); (0, 50)]%R None) tt matched eq_refl Hfind).
Defined.

Lemma radius_monotone_witness :
  (50 <= 100)%R
  ∧ ∃ matched matched',
      find_nearby_collisions (PJ := flat_projector) (analyzer_within 50) = Return matched
      ∧ find_nearby_collisions (PJ := flat_projector) (analyzer_within 100)
        = Return matched'
      ∧ (0, collision_ok) ∈ (λ m, (m.1, source m.2)) <$> matched'.
Proof.
  split; [lra|].
  destruct (case_match 50) as (m & Hfind & Hl & Hc); [lra|].
  destruct (case_match 100) as (m' & Hfind' & _); [lra|].
  exists [m], [m']. split; [exact Hfind|]. split; [exact Hfind'|].
  apply (radius_monotone (PJ := flat_projector) (analyzer_within 50)
           (analyzer_within 100) tt [m] [m'] 0 collision_ok).
  - reflexivity.
  - reflexivity.
  - simpl. lra.
  - apply NoDup_singleton.
  - reflexivity.
  - exact Hfind.
  - exact Hfind'.
  - apply list_elem_of_fmap. exists m. split; [by rewrite Hl, Hc | by left].
Defined.

Lemma negative_radius_witness :
  (radius (analyzer_within (-1)) < 0)%R
  ∧ find_nearby_collisions (PJ := flat_projector) (analyzer_within (-1)) = Return [].
Proof.
  assert (radius (analyzer_within (-1)) < 0)%R as Hneg by (simpl; lra).
  split; [exact Hneg|].
  exact (negative_radius (PJ := flat_projector) (analyzer_within (-1)) tt Hneg eq_refl).
Defined.

Lemma matched_within_corridor_witness :
  generate_sample_points (PJ := flat_projector) sampler_100
    = Return (sample_points (analyzer_within 50))
  ∧ ∃ m,
      find_nearby_collisions (PJ := flat_projector) (analyzer_within 50) = Return [m]
      ∧ (0 <= distance_to_road_m m.2 <= 50)%R.
Proof.
  split; [exact samples_100|].
  destruct (case_match 50) as (m & Hfind & _); [lra|].
  exists m. split; [exact Hfind|].
  apply (matched_within_corridor (PJ := flat_projector) sampler_100 (analyzer_within 50)
           tt [m] m).
  - reflexivity.
  - exact samples_100.
  - reflexivity.
  - reflexivity.
  - reflexivity.
  - apply NoDup_singleton.
  - exact Hfind.
  - by left.
Defined.

End MatcherWitnesses.

Section StatisticsWitnesses.
Import Scenario Cases.

Lemma breakdown_entries_witness :
  ∃ stats,
    calculate_statistics (PJ := flat_projector)
      (analyzer_of [] [(0, 0)]%R (Some [(0, matched_ok); (1, matched_unlisted)]))
    = Return stats
    ∧ severity stats !! "Slight"%string
      = Some {| count := 1; percentage := (inject_Z 1 / inject_Z 2) * 100 |}.
Proof.
  eexists. split; [reflexivity|].
  match goal with
  | |- severity ?s !! _ = Some ?share =>
      destruct (breakdown_entries (PJ := flat_projector)
                  (analyzer_of [] [(0, 0)]%R (Some [(0, matched_ok); (1, matched_unlisted)]))
                  [(0, matched_ok); (1, matched_unlisted)] s "Slight"%string share
                  eq_refl eq_refl) as (Hsev & _)
  end.
  apply Hsev. split; [by vm_compute | reflexivity].
Defined.

Lemma time_ranges_cover_witness :
  ∃ stats,
    calculate_statistics (PJ := flat_projector)
      (analyzer_of [] [(0, 0)]%R (Some [(0, matched_ok); (1, matched_unlisted)]))
    = Return stats
    ∧ foldr Z.add 0 ((λ entry, count entry.2) <$> time_distribution (time_stats stats))
      = 2.
Proof.
  eexists. split; [reflexivity|].
  match goal with
  | |- foldr _ _ (_ <$> time_distribution (time_stats ?s)) = _ =>
      destruct (time_ranges_cover (PJ := flat_projector)
                  (analyzer_of [] [(0, 0)]%R (Some [(0, matched_ok); (1, matched_unlisted)]))
                  [(0, matched_ok); (1, matched_unlisted)] s eq_refl eq_refl)
        as [Hcounted _]
  end.
  rewrite Hcounted. by vm_compute.
Defined.

Lemma most_common_hour_spec_witness :
  ∃ stats,
    calculate_statistics (PJ := flat_projector)
      (analyzer_of [] [(0, 0)]%R (Some [(0, matched_ok)])) = Return stats
    ∧ most_common_hour (time_stats stats) = Some 17.
Proof.
  eexists. split; [reflexivity|].
  match goal with
  | |- most_common_hour (time_stats ?s) = _ =>
      destruct (most_common_hour_spec (PJ := flat_projector)
                  (analyzer_of [] [(0, 0)]%R (Some [(0, matched_ok)]))
                  [(0, matched_ok)] s eq_refl eq_refl) as [_ Hsome]
  end.
  destruct Hsome as (h & Hh & (row & Hrow & Hhour) & _); [done|].
  apply list_elem_of_singleton in Hrow as ->. rewrite Hh. by rewrite <- Hhour.
Defined.

Lemma hour_counts_spec_witness :
  ∃ stats,
    calculate_statistics (PJ := flat_projector)
      (analyzer_of [] [(0, 0)]%R (Some [(0, matched_ok); (1, matched_unlisted)]))
    = Return stats
    ∧ hour_counts (time_stats stats) !! 17 = Some 1
    ∧ hour_counts (time_stats stats) !! 9 = None.
Proof.
  eexists. split; [reflexivity|].
  match goal with
  | |- hour_counts (time_stats ?s) !! _ = _ ∧ _ =>
      pose proof (hour_counts_spec (PJ := flat_projector)
                    (analyzer_of [] [(0, 0)]%R
                       (Some [(0, matched_ok); (1, matched_unlisted)]))
                    [(0, matched_ok); (1, matched_unlisted)] s) as Hcounts
  end.
  split.
  - by rewrite (Hcounts 17 eq_refl eq_refl).
  - by rewrite (Hcounts 9 eq_refl eq_refl).
Defined.

End StatisticsWitnesses.

Section ConstructionWitnesses.
Import Scenario Cases.

Lemma fetch_from_osm_spec_witness :
  ∃ longest,
    Osm.fetch_from_osm (OS := two_stretches) "Hammersmith" "Askew Road"
    = Return (Osm.LineStringG longest)
    ∧ longest ∈ [short_stretch; long_stretch]
    ∧ (line_length short_stretch <= line_length longest)%R
    ∧ (line_length long_stretch <= line_length longest)%R.
Proof.
  destruct (fetch_from_osm_spec (OS := two_stretches) "Hammersmith" "Askew Road" _ eq_refl)
    as [_ Hlines].
  destruct Hlines as [Hmulti _]; [done|].
  destruct (Hmulti [short_stretch; long_stretch] eq_refl ltac:(done))
    as (longest & Hfetch & Hin & Hmax).
  exists longest. split; [exact Hfetch|]. split; [exact Hin|].
  split; apply Hmax; [by left | right; by left].
Defined.

Lemma marker_colour_witness :
  decoded matched_ok ∧ Visualizer.marker_color matched_ok = "orange"%string.
Proof.
  assert (decoded matched_ok) as Hdecoded by (by repeat split).
  split; [exact Hdecoded|].
  exact (marker_colour matched_ok Hdecoded).
Defined.

End ConstructionWitnesses.

Section UtilsWitnesses.
Import Scenario Cases.

Lemma filter_collisions_spec_witness :
  ∃ out,
    Utils.filter_collisions (DT := slash_dates)
      (Utils.load_collision_data csv_file true) None
      (Some ("2023-01-01", "2023-01-31")%string) (Some [2; 3]) = Return out
    ∧ out `sublist_of` Utils.load_collision_data csv_file true
    ∧ ∀ row, row ∈ out → Utils.collision_severity row.2.1 ∈ [2; 3].
Proof.
  eexists. split; [by vm_compute|].
  match goal with
  | |- ?out `sublist_of` ?gdf ∧ _ =>
      destruct (filter_collisions_spec (DT := slash_dates) gdf out None
                  (Some ("2023-01-01", "2023-01-31")%string) (Some [2; 3]))
        as [Hsub Hin]; [by vm_compute|]
  end.
  split; [exact Hsub|].
  intros row (_ & _ & _ & Hsev)%Hin. by apply (Hsev [2; 3]).
Defined.

Lemma loaded_filtered_index_witness :
  ∃ out,
    Utils.filter_collisions (DT := slash_dates)
      (Utils.load_collision_data csv_file true) None
      (Some ("2023-01-01", "2023-02-28")%string) None = Return out
    ∧ out.*1 = [0; 2]
    ∧ NoDup ((λ row : Z * Utils.GeoRow, (row.1, Utils.as_collision row.2)) <$> out).*1.
Proof.
  eexists. split; [by vm_compute|]. split; [reflexivity|].
  match goal with
  | |- NoDup (_ <$> ?out).*1 =>
      destruct (loaded_filtered_index (DT := slash_dates) csv_file true out None
                  (Some ("2023-01-01", "2023-02-28")%string) None) as [Hnd _];
        [by vm_compute | exact Hnd]
  end.
Defined.

Lemma format_clock_witness :
  ∃ stats fields,
    calculate_statistics (PJ := flat_projector)
      (analyzer_of [] [(0, 0)]%R (Some [(0, matched_ok)])) = Return stats
    ∧ Utils.format_collision_data (DO := enumeration_order) stats = inr fields
    ∧ Analyzer.most_common_hour (time_stats stats) = Some 17
    ∧ Utils.most_common_hour fields = 17
    ∧ 1 ≤ Utils.hour_12 fields ≤ 12
    ∧ ¬ Utils.am_pm fields = "AM"%string.
Proof.
  eexists. eexists. split; [reflexivity|].
  lazymatch goal with
  | |- Utils.format_collision_data (DO := enumeration_order) ?s = inr ?f ∧ _ =>
      cut (Utils.format_collision_data (DO := enumeration_order) s = inr f)
  end.
  2: by vm_compute.
  intros Hfmt. split; [exact Hfmt|].
  destruct (format_clock (DO := enumeration_order) _ _ Hfmt) as (Hhour & Hrange & _ & Hnoon & _).
  split; [reflexivity|]. split; [reflexivity|]. split; [exact Hrange|].
  intros Ham%Hnoon. by vm_compute in Ham.
Defined.

Lemma format_most_common_witness :
  ∃ stats fields,
    calculate_statistics (PJ := flat_projector)
      (analyzer_of [] [(0, 0)]%R (Some [(0, matched_ok); (1, matched_unlisted)]))
    = Return stats
    ∧ Utils.format_collision_data (DO := enumeration_order) stats = inr fields
    ∧ Utils.day_name fields = "Monday"%string
    ∧ is_Some (day_of_week_stats stats !! Utils.day_name fields)
    ∧ is_Some (weather stats !! Utils.weather_condition fields)
    ∧ is_Some (light stats !! Utils.light_condition fields).
Proof.
  eexists. eexists. split; [reflexivity|].
  lazymatch goal with
  | |- Utils.format_collision_data (DO := enumeration_order) ?s = inr ?f ∧ _ =>
      cut (Utils.format_collision_data (DO := enumeration_order) s = inr f)
  end.
  2: by vm_compute.
  intros Hfmt. split; [exact Hfmt|]. split; [reflexivity|].
  destruct (format_most_common (DO := enumeration_order) _ _ Hfmt)
    as ((d & Hd & _) & (w & Hw & _) & (l & Hl & _) & _).
  split; [by exists d|]. split; [by exists w | by exists l].
Defined.

Lemma format_empty_match_witness :
  ∃ stats,
    calculate_statistics (PJ := flat_projector)
      (analyzer_of [] [(0, 0)]%R (Some [])) = Return stats
    ∧ Utils.format_collision_data (DO := enumeration_order) stats = inl Utils.TypeError.
Proof.
  eexists. split; [reflexivity|].
  by apply (format_empty_match (PJ := flat_projector) (DO := enumeration_order)
              (analyzer_of [] [(0, 0)]%R (Some [])) _ eq_refl).
Defined.

Lemma format_unlabelled_column_witness :
  ∃ stats,
    calculate_statistics (PJ := flat_projector)
      (analyzer_of [] [(0, 0)]%R (Some [(0, matched_unlisted)])) = Return stats
    ∧ Utils.format_collision_data (DO := enumeration_order) stats = inl Utils.MaxOfEmpty.
Proof.
  eexists. split; [reflexivity|].
  apply (format_unlabelled_column (PJ := flat_projector) (DO := enumeration_order)
           (analyzer_of [] [(0, 0)]%R (Some [(0, matched_unlisted)]))
           [(0, matched_unlisted)] _ eq_refl eq_refl ltac:(done)).
  left. by intros row ->%list_elem_of_singleton.
Defined.

End UtilsWitnesses.
